(** * PatentAnalyzer: the filter builder of [main/models.py]

    A shallow embedding of [Patent.filter], [Patent.fetch_representation] and
    [Patent.approximate_count], together with the part of the Django ORM and
    of the datastore they rest on, and the properties of the specification
    checked against it.

    - The criteria bundle [data] is a Python [dict]: a finite map from key
      names to dynamically typed values.  [Patent.filter] reads it with
      [data[key]] and writes three of its entries, so the function is a
      computation over the bundle that may raise.
    - A [Q] object is a tree of keyword conditions.  [Patent.objects.filter]
      resolves every condition against the declared models and evaluates the
      tree on the rows of the SQL join it induces.
    - Regular expressions, distances on the sphere and the text of a
      coordinate belong to the datastore; they are the methods of the class
      [Datastore], over which the execution of a query is parametric. *)

From Stdlib Require Import ZArith String Ascii List Bool Lia Btauto.
From Stdlib Require QArith.
From stdpp Require Import gmap strings list sorting pretty.

Set Warnings "-register-all".

(** ** Python values *)

(** Finite floating-point numbers are represented by the rational they
    denote; this code never computes with them. *)
Abbreviation number := QArith_base.Q.

Definition number_of_Z (n : Z) : number := QArith_base.Qmake n 1.

(** [int(x)] on a number: truncation toward zero. *)
Definition number_trunc (q : number) : Z :=
  Z.quot (QArith_base.Qnum q) (Z.pos (QArith_base.Qden q)).

(** The values a criteria bundle holds.  A date is its proleptic Gregorian
    ordinal ([date.toordinal()]), which has the order of [date]; a nested
    [dict] keeps its insertion order. *)
Inductive value : Type :=
| VNone
| VBool (b : bool)
| VInt (n : Z)
| VFloat (q : number)
| VStr (s : string)
| VDate (ordinal : Z)
| VList (items : list value)
| VDict (entries : list (string * value)).

Abbreviation dict := (gmap string value).

Inductive exception : Type :=
| KeyError (key : string)
| TypeError
| AttributeError
| FieldError (name : string).

Inductive result (A : Type) : Type :=
| Return (a : A)
| Raise (e : exception).
Arguments Return {A} a.
Arguments Raise {A} e.

Definition rbind {A B} (r : result A) (k : A -> result B) : result B :=
  match r with
  | Return a => k a
  | Raise e => Raise e
  end.

(** A computation over the caller's bundle: the bundle is threaded through,
    and what was written before an exception stays written. *)
Definition py (A : Type) : Type := dict -> dict * result A.

Definition ret {A} (a : A) : py A := fun d => (d, Return a).

Definition bind {A B} (m : py A) (k : A -> py B) : py B :=
  fun d =>
    match m d with
    | (d', Return a) => k a d'
    | (d', Raise e) => (d', Raise e)
    end.

Definition lift {A} (r : result A) : py A := fun d => (d, r).

Notation "x <- m ;; k" := (bind m (fun x => k))
  (at level 90, m at level 89, right associativity).
Notation "m ;;; k" := (bind m (fun _ => k))
  (at level 90, right associativity).

(** [data[key]] *)
Definition getitem (key : string) : py value :=
  fun d =>
    match d !! key with
    | Some v => (d, Return v)
    | None => (d, Raise (KeyError key))
    end.

(** [data[key] = v] *)
Definition setitem (key : string) (v : value) : py unit :=
  fun d => (<[key := v]> d, Return tt).

(** [for x in xs: body(x)] *)
Fixpoint for_each {A} (xs : list A) (body : A -> py unit) : py unit :=
  match xs with
  | [] => ret tt
  | x :: xs' => body x ;;; for_each xs' body
  end.

(** [bool(v)] *)
Definition truthy (v : value) : bool :=
  match v with
  | VNone => false
  | VBool b => b
  | VInt n => negb (n =? 0)%Z
  | VFloat q => negb (QArith_base.Qnum q =? 0)%Z
  | VStr s => negb (String.eqb s "")
  | VDate _ => true
  | VList items => match items with [] => false | _ => true end
  | VDict entries => match entries with [] => false | _ => true end
  end.

(** [v is not None] *)
Definition is_not_None (v : value) : bool :=
  match v with
  | VNone => false
  | _ => true
  end.

Fixpoint chars (s : string) : list string :=
  match s with
  | EmptyString => []
  | String c s' => String c EmptyString :: chars s'
  end.

(** [iter(v)]: a list yields its items, a string its characters, a dict its
    keys; nothing else is iterable. *)
Definition py_iter (v : value) : result (list value) :=
  match v with
  | VList items => Return items
  | VStr s => Return (VStr <$> chars s)
  | VDict entries => Return ((fun kv => VStr kv.1) <$> entries)
  | _ => Raise TypeError
  end.

Fixpoint assoc (key : string) (entries : list (string * value)) : option value :=
  match entries with
  | [] => None
  | (k, v) :: rest => if String.eqb k key then Some v else assoc key rest
  end.

(** [v[key]] with a string key. *)
Definition subscript (v : value) (key : string) : result value :=
  match v with
  | VDict entries =>
      match assoc key entries with
      | Some x => Return x
      | None => Raise (KeyError key)
      end
  | _ => Raise TypeError
  end.

Fixpoint all_str (items : list value) : result (list string) :=
  match items with
  | [] => Return []
  | VStr s :: rest => rbind (all_str rest) (fun ss => Return (s :: ss))
  | _ :: _ => Raise TypeError
  end.

(** The attribute lookup [sep.join]: only a string has it. *)
Definition join_method (sep : value) : result string :=
  match sep with
  | VStr s => Return s
  | _ => Raise AttributeError
  end.

(** The call [sep.join(v)]. *)
Definition str_join (sep : string) (v : value) : result string :=
  rbind (py_iter v) (fun items =>
  rbind (all_str items) (fun ss =>
  Return (String.concat sep ss))).

(** [keyword.startswith(key)] *)
Definition startswith (keyword key : value) : result bool :=
  match keyword with
  | VStr s =>
      match key with
      | VStr p => Return (String.prefix p s)
      | _ => Raise TypeError
      end
  | _ => Raise AttributeError
  end.

(** A real number as [Point] and [D] take it ([bool] is an [int]).  Both
    make a double of it: an integer is taken here for the number it is, which
    it stays up to 2^53, and the [OverflowError] of an integer beyond the
    doubles is not modelled, nor that [D] parses a string; the properties
    about locations take numbers within the range. *)
Definition as_number (v : value) : result number :=
  match v with
  | VInt n => Return (number_of_Z n)
  | VFloat q => Return q
  | VBool b => Return (number_of_Z (if b then 1 else 0))
  | _ => Raise TypeError
  end.

(** ** The models

    One record per model class of [main/models.py], a field per column.  A
    nullable column is an [option]; a foreign key holds the primary key of
    the row it refers to; every model without an explicit primary key has
    Django's automatic [id]. *)

(** A PostGIS point: longitude [x], latitude [y]. *)
Record Point : Type := { x : number; y : number }.

Module Model.

Module CPCSection.
Record t : Type := { section : string; title : string }.
End CPCSection.

Module CPCClass.
Record t : Type := { section : string; _class : string; title : string }.
End CPCClass.

Module CPCSubclass.
Record t : Type := { _class : string; subclass : string; title : string }.
End CPCSubclass.

Module CPCGroup.
Record t : Type := { subclass : string; group : string; title : string }.
End CPCGroup.

Module Patent.
Record t : Type := {
  id : Z;
  office : string;
  office_patent_id : string;
  type : option string;
  application_filed_date : option Z;
  granted_date : Z;
  title : string;
  abstract_processed : option string;
  claims_count : Z;
  figures_count : option Z;
  sheets_count : option Z;
  withdrawn : bool;
  granted_year : option Z;
  application_year : option Z;
  years_to_get_granted : option number;
  title_processed : option string;
  title_word_count_without_processing : option Z;
  title_word_count_with_processing : option Z;
  abstract_word_count_without_processing : option Z;
  abstract_word_count_with_processing : option Z;
  cpc_groups_count : option Z;
  assignee_count : option Z;
  inventor_count : option Z;
  incoming_citations_count : option Z;
  outgoing_citations_count : option Z;
  representation : option string
}.
End Patent.

Module PatentCPCGroup.
Record t : Type := { id : Z; patent : Z; cpc_group : string }.
End PatentCPCGroup.

Module PCTData.
Record t : Type := {
  id : Z;
  patent : Z;
  pct_id : string;
  published_or_filed_date : Z;
  filed_country : string;
  granted : bool;
  representation : option string
}.
End PCTData.

Module Location.
Record t : Type := {
  id : Z;
  country_code : option string;
  state : option string;
  city : option string;
  point : option Point;
  county_fips : option Z;
  state_fips : option Z
}.
End Location.

Module Inventor.
Record t : Type := {
  id : Z;
  patent : Z;
  location : option Z;
  first_name : option string;
  last_name : option string;
  male : option bool
}.
End Inventor.

Module Assignee.
Record t : Type := {
  id : Z;
  patent : Z;
  location : option Z;
  first_name : option string;
  last_name : option string;
  organization : option string;
  is_organization : option bool
}.
End Assignee.

End Model.

(** The tables a query reads, and the planner's statistics ([pg_class]:
    [reltuples] by [relname]). *)
Record Database : Type := {
  patents : list Model.Patent.t;
  patent_cpc_groups : list Model.PatentCPCGroup.t;
  pct_data : list Model.PCTData.t;
  locations : list Model.Location.t;
  inventors : list Model.Inventor.t;
  assignees : list Model.Assignee.t;
  pg_class : list (string * number)
}.

(** ** Q objects *)

Inductive lookup : Type := Exact | Gte | Lte | IRegex | In | DistanceLte.

(** The right-hand side of a condition: a value of the bundle, or the pair
    [(Point(lng, lat), D(m=radius))] of a distance lookup. *)
Inductive rhs : Type :=
| Lit (v : value)
| Geo (center : Point) (radius_m : number).

(** [Q(path__lookup=rhs)], [Q()], [a & b] and [a | b], the keyword split at
    its double underscores: [inventors__first_name__iregex] is the path
    [["inventors"; "first_name"]] with the lookup [IRegex]; a keyword without
    a lookup name is [Exact]. *)
Inductive Q : Type :=
| QEmpty
| QLeaf (path : list string) (lk : lookup) (r : rhs)
| QAnd (a b : Q)
| QOr (a b : Q).

(** [a & b]: Django returns the other operand when one is empty. *)
Definition q_and (a b : Q) : Q :=
  match a, b with
  | QEmpty, _ => b
  | _, QEmpty => a
  | _, _ => QAnd a b
  end.

(** [a | b] *)
Definition q_or (a b : Q) : Q :=
  match a, b with
  | QEmpty, _ => b
  | _, QEmpty => a
  | _, _ => QOr a b
  end.

Fixpoint leaves (q : Q) : list (list string * lookup * rhs) :=
  match q with
  | QEmpty => []
  | QLeaf path lk r => [(path, lk, r)]
  | QAnd a b | QOr a b => leaves a ++ leaves b
  end.

(** ** Rows and columns *)

(** One row of the SQL join: the patent and, for each relation the query
    joins, one related row ([None]: not joined, or the null row of an outer
    join), each inventor and assignee with the location its foreign key
    names. *)
Record Row : Type := {
  row_patent : Model.Patent.t;
  row_cpc_groups : option Model.PatentCPCGroup.t;
  row_pct_data : option Model.PCTData.t;
  row_inventors : option Model.Inventor.t;
  row_inventors_location : option Model.Location.t;
  row_assignees : option Model.Assignee.t;
  row_assignees_location : option Model.Location.t
}.

Inductive cell : Type :=
| CNull
| CBool (b : bool)
| CInt (n : Z)
| CFloat (q : number)
| CStr (s : string)
| CDate (ordinal : Z)
| CPoint (p : Point).

Definition nullable {A} (f : A -> cell) (o : option A) : cell :=
  match o with
  | Some a => f a
  | None => CNull
  end.

Definition columns (A : Type) : Type := list (string * (A -> cell)).

Fixpoint column {A} (cols : columns A) (name : string) : option (A -> cell) :=
  match cols with
  | [] => None
  | (n, f) :: rest => if String.eqb n name then Some f else column rest name
  end.

Definition patent_columns : columns Model.Patent.t :=
  let P := Model.Patent.t in
  [ ("id", fun p : P => CInt (Model.Patent.id p));
    ("office", fun p : P => CStr (Model.Patent.office p));
    ("office_patent_id", fun p : P => CStr (Model.Patent.office_patent_id p));
    ("type", fun p : P => nullable CStr (Model.Patent.type p));
    ("application_filed_date",
      fun p : P => nullable CDate (Model.Patent.application_filed_date p));
    ("granted_date", fun p : P => CDate (Model.Patent.granted_date p));
    ("title", fun p : P => CStr (Model.Patent.title p));
    ("abstract_processed",
      fun p : P => nullable CStr (Model.Patent.abstract_processed p));
    ("claims_count", fun p : P => CInt (Model.Patent.claims_count p));
    ("figures_count", fun p : P => nullable CInt (Model.Patent.figures_count p));
    ("sheets_count", fun p : P => nullable CInt (Model.Patent.sheets_count p));
    ("withdrawn", fun p : P => CBool (Model.Patent.withdrawn p));
    ("granted_year", fun p : P => nullable CInt (Model.Patent.granted_year p));
    ("application_year",
      fun p : P => nullable CInt (Model.Patent.application_year p));
    ("years_to_get_granted",
      fun p : P => nullable CFloat (Model.Patent.years_to_get_granted p));
    ("title_processed",
      fun p : P => nullable CStr (Model.Patent.title_processed p));
    ("title_word_count_without_processing",
      fun p : P => nullable CInt (Model.Patent.title_word_count_without_processing p));
    ("title_word_count_with_processing",
      fun p : P => nullable CInt (Model.Patent.title_word_count_with_processing p));
    ("abstract_word_count_without_processing",
      fun p : P =>
        nullable CInt (Model.Patent.abstract_word_count_without_processing p));
    ("abstract_word_count_with_processing",
      fun p : P => nullable CInt (Model.Patent.abstract_word_count_with_processing p));
    ("cpc_groups_count", fun p : P => nullable CInt (Model.Patent.cpc_groups_count p));
    ("assignee_count", fun p : P => nullable CInt (Model.Patent.assignee_count p));
    ("inventor_count", fun p : P => nullable CInt (Model.Patent.inventor_count p));
    ("incoming_citations_count",
      fun p : P => nullable CInt (Model.Patent.incoming_citations_count p));
    ("outgoing_citations_count",
      fun p : P => nullable CInt (Model.Patent.outgoing_citations_count p));
    ("representation", fun p : P => nullable CStr (Model.Patent.representation p)) ].

(** The link table; [cpc_group] is a foreign key to the primary key [group]
    of [CPCGroup], so [cpc_group] and [cpc_group__group] name the same
    column. *)
Definition patent_cpc_group_columns : columns Model.PatentCPCGroup.t :=
  let L := Model.PatentCPCGroup.t in
  [ ("id", fun l : L => CInt (Model.PatentCPCGroup.id l));
    ("patent", fun l : L => CInt (Model.PatentCPCGroup.patent l));
    ("cpc_group", fun l : L => CStr (Model.PatentCPCGroup.cpc_group l)) ].

Definition pct_data_columns : columns Model.PCTData.t :=
  let D := Model.PCTData.t in
  [ ("id", fun d : D => CInt (Model.PCTData.id d));
    ("patent", fun d : D => CInt (Model.PCTData.patent d));
    ("pct_id", fun d : D => CStr (Model.PCTData.pct_id d));
    ("published_or_filed_date",
      fun d : D => CDate (Model.PCTData.published_or_filed_date d));
    ("filed_country", fun d : D => CStr (Model.PCTData.filed_country d));
    ("granted", fun d : D => CBool (Model.PCTData.granted d));
    ("representation", fun d : D => nullable CStr (Model.PCTData.representation d)) ].

Definition location_columns : columns Model.Location.t :=
  let L := Model.Location.t in
  [ ("id", fun l : L => CInt (Model.Location.id l));
    ("country_code", fun l : L => nullable CStr (Model.Location.country_code l));
    ("state", fun l : L => nullable CStr (Model.Location.state l));
    ("city", fun l : L => nullable CStr (Model.Location.city l));
    ("point", fun l : L => nullable CPoint (Model.Location.point l));
    ("county_fips", fun l : L => nullable CInt (Model.Location.county_fips l));
    ("state_fips", fun l : L => nullable CInt (Model.Location.state_fips l)) ].

Definition inventor_columns : columns Model.Inventor.t :=
  let I := Model.Inventor.t in
  [ ("id", fun i : I => CInt (Model.Inventor.id i));
    ("patent", fun i : I => CInt (Model.Inventor.patent i));
    ("location", fun i : I => nullable CInt (Model.Inventor.location i));
    ("first_name", fun i : I => nullable CStr (Model.Inventor.first_name i));
    ("last_name", fun i : I => nullable CStr (Model.Inventor.last_name i));
    ("male", fun i : I => nullable CBool (Model.Inventor.male i)) ].

Definition assignee_columns : columns Model.Assignee.t :=
  let A := Model.Assignee.t in
  [ ("id", fun a : A => CInt (Model.Assignee.id a));
    ("patent", fun a : A => CInt (Model.Assignee.patent a));
    ("location", fun a : A => nullable CInt (Model.Assignee.location a));
    ("first_name", fun a : A => nullable CStr (Model.Assignee.first_name a));
    ("last_name", fun a : A => nullable CStr (Model.Assignee.last_name a));
    ("organization", fun a : A => nullable CStr (Model.Assignee.organization a));
    ("is_organization",
      fun a : A => nullable CBool (Model.Assignee.is_organization a)) ].

(** The multi-valued relations of [Patent] that [filter] and
    [fetch_representation] name (the [related_name] of the foreign keys). *)
Inductive relation : Type :=
| Rel_cpc_groups
| Rel_pct_data
| Rel_inventors
| Rel_assignees.

Definition relation_named (name : string) : option relation :=
  if String.eqb name "cpc_groups" then Some Rel_cpc_groups
  else if String.eqb name "pct_data" then Some Rel_pct_data
  else if String.eqb name "inventors" then Some Rel_inventors
  else if String.eqb name "assignees" then Some Rel_assignees
  else None.

Definition through {A} (get : Row -> option A) (f : A -> cell) : Row -> cell :=
  fun r => nullable f (get r).

(** A path below a model: one of its columns. *)
Definition resolve_column {A} (get : Row -> option A) (cols : columns A)
    (name : string) : result (Row -> cell) :=
  match column cols name with
  | Some f => Return (through get f)
  | None => Raise (FieldError name)
  end.

(** A path below [inventors] or [assignees]: a column, or a column of the
    location. *)
Definition resolve_person {A} (get : Row -> option A) (cols : columns A)
    (loc : Row -> option Model.Location.t) (rest : list string) :
    result (Row -> cell) :=
  match rest with
  | [] => resolve_column get cols "id"
  | [name] => resolve_column get cols name
  | name :: [name'] =>
      if String.eqb name "location" then resolve_column loc location_columns name'
      else Raise (FieldError name')
  | _ :: _ :: name' :: _ => Raise (FieldError name')
  end.

(** What Django's lookup resolution does with the path of a condition on
    [Patent]: the first name is a column of the patent or one of its
    relations, the following names are resolved in the related model, and a
    name that is neither raises [FieldError].  The paths through the
    relations below are those over the columns of the joined tables (the
    titles of the classification levels and the citations are not reached by
    any condition this code builds, and are left out). *)
Definition resolve (path : list string) : result (Row -> cell) :=
  match path with
  | [] => Raise (FieldError "")
  | name :: rest =>
      match relation_named name with
      | None =>
          match rest with
          | [] => resolve_column (fun r => Some (row_patent r)) patent_columns name
          | name' :: _ =>
              match column patent_columns name with
              | Some _ => Raise (FieldError name')
              | None => Raise (FieldError name)
              end
          end
      | Some Rel_cpc_groups =>
          match rest with
          | [] => resolve_column row_cpc_groups patent_cpc_group_columns "id"
          | [name'] => resolve_column row_cpc_groups patent_cpc_group_columns name'
          | name' :: [name''] =>
              if String.eqb name' "cpc_group" && String.eqb name'' "group"
              then resolve_column row_cpc_groups patent_cpc_group_columns "cpc_group"
              else Raise (FieldError name'')
          | _ :: _ :: name'' :: _ => Raise (FieldError name'')
          end
      | Some Rel_pct_data =>
          match rest with
          | [] => resolve_column row_pct_data pct_data_columns "id"
          | [name'] => resolve_column row_pct_data pct_data_columns name'
          | _ :: name'' :: _ => Raise (FieldError name'')
          end
      | Some Rel_inventors =>
          resolve_person row_inventors inventor_columns row_inventors_location rest
      | Some Rel_assignees =>
          resolve_person row_assignees assignee_columns row_assignees_location rest
      end
  end.

(** The first condition of a [Q], left to right, whose path does not
    resolve. *)
Fixpoint check (q : Q) : result unit :=
  match q with
  | QEmpty => Return tt
  | QLeaf path _ _ => rbind (resolve path) (fun _ => Return tt)
  | QAnd a b | QOr a b => rbind (check a) (fun _ => check b)
  end.

Definition relation_eqb (a b : relation) : bool :=
  match a, b with
  | Rel_cpc_groups, Rel_cpc_groups
  | Rel_pct_data, Rel_pct_data
  | Rel_inventors, Rel_inventors
  | Rel_assignees, Rel_assignees => true
  | _, _ => false
  end.

(** The path goes through the relation. *)
Definition path_joins (rel : relation) (path : list string) : bool :=
  match path with
  | name :: _ =>
      match relation_named name with
      | Some rel' => relation_eqb rel rel'
      | None => false
      end
  | [] => false
  end.

(** The relations a [Q] joins. *)
Definition joins (q : Q) (rel : relation) : bool :=
  existsb (fun l => path_joins rel l.1.1) (leaves q).

(** An unevaluated result set over [Patent]: its condition. *)
Record QuerySet : Type := { query_where : Q }.

(** [Patent.objects.filter(query)]: the conditions are resolved when the
    query set is built, the rows are read when it is consumed. *)
Definition objects_filter (query : Q) : result QuerySet :=
  rbind (check query) (fun _ => Return {| query_where := query |}).

(** ** Annotations *)

(** The expressions [fetch_representation] aggregates: [F(path)] (a bare
    string argument of [Func] or [StringAgg] is an [F]), [Value(s)],
    [Concat(...)] and [Func(..., function=name)]. *)
Inductive expr : Type :=
| F (path : list string)
| Value (s : string)
| Concat (parts : list expr)
| Func (arg : expr) (function : string).

Record StringAgg : Type := {
  expression : expr;
  delimiter : string;
  distinct : bool
}.

(** [patents.annotate(name=StringAgg(...), ...).order_by(field)] *)
Record AnnotatedQuerySet : Type := {
  patents_annotated : QuerySet;
  annotations : list (string * StringAgg);
  order_by : string
}.

(** [cursor.fetchone()[0]]: the first column of the first row, and the
    [TypeError] of [None[0]] when there is no row. *)
Definition fetchone_0 {A} (rows : list A) : result A :=
  match rows with
  | r :: _ => Return r
  | [] => Raise TypeError
  end.

(** ** The [__str__] methods *)

(** [f"{x}"] of a text column: the text, and [None] for NULL. *)
Definition format_field (x : option string) : string :=
  match x with
  | Some s => s
  | None => "None"
  end.

(** The truth of a text column: NULL and the empty string are false. *)
Definition field_truthy (x : option string) : bool :=
  match x with
  | Some s => negb (String.eqb s "")
  | None => false
  end.

Module CPCSection.
Definition __str__ (self : Model.CPCSection.t) : string := Model.CPCSection.section self.
End CPCSection.

Module CPCClass.
Definition __str__ (self : Model.CPCClass.t) : string := Model.CPCClass._class self.
End CPCClass.

Module CPCSubclass.
Definition __str__ (self : Model.CPCSubclass.t) : string :=
  Model.CPCSubclass.subclass self.
End CPCSubclass.

Module CPCGroup.
Definition __str__ (self : Model.CPCGroup.t) : string := Model.CPCGroup.group self.
End CPCGroup.

Module Location.
Definition __str__ (self : Model.Location.t) : string :=
  if field_truthy (Model.Location.state self)
  then format_field (Model.Location.country_code self) +:+ " - "
       +:+ format_field (Model.Location.state self) +:+ " - "
       +:+ format_field (Model.Location.city self)
  else format_field (Model.Location.country_code self) +:+ " - "
       +:+ format_field (Model.Location.city self).
End Location.

Module Inventor.
Definition __str__ (self : Model.Inventor.t) : string :=
  format_field (Model.Inventor.first_name self) +:+ " "
  +:+ format_field (Model.Inventor.last_name self).
End Inventor.

Module Assignee.
Definition __str__ (self : Model.Assignee.t) : string :=
  if field_truthy (Model.Assignee.organization self)
  then format_field (Model.Assignee.organization self)
  else format_field (Model.Assignee.first_name self) +:+ " "
       +:+ format_field (Model.Assignee.last_name self).
End Assignee.

(** ** [Patent]: the static methods *)

Module Patent.

(** [Patent.__str__] and [Patent.__repr__] return the cached
    representation, a nullable column. *)
Definition __str__ (self : Model.Patent.t) : option string :=
  Model.Patent.representation self.

Definition __repr__ (self : Model.Patent.t) : option string :=
  Model.Patent.representation self.

(** [exact_query(field, value)] *)
Definition exact_query (field : list string) (v : value) : Q :=
  if truthy v then QLeaf field Exact (Lit v) else QEmpty.

(** [range_query(field, value)] *)
Definition range_query (field : list string) (v : value) : result Q :=
  let query := QEmpty in
  if truthy v then
    rbind (subscript v "min") (fun lo =>
    let query := if truthy lo then q_and query (QLeaf field Gte (Lit lo)) else query in
    rbind (subscript v "max") (fun hi =>
    let query := if truthy hi then q_and query (QLeaf field Lte (Lit hi)) else query in
    Return query))
  else Return query.

(** [Q(field__distance_lte=(Point(location["lng"], location["lat"]),
    D(m=location["radius"])))] *)
Definition distance_query (field : list string) (location : value) : result Q :=
  rbind (subscript location "lng") (fun lng =>
  rbind (subscript location "lat") (fun lat =>
  rbind (as_number lng) (fun px =>
  rbind (as_number lat) (fun py =>
  rbind (subscript location "radius") (fun radius =>
  rbind (as_number radius) (fun m =>
  Return (QLeaf field DistanceLte (Geo {| x := px; y := py |} m)))))))).

(** Lines 232 to 250: the conditions on the patent's own columns. *)
Definition patent_query : py Q :=
  logic <- getitem "patent_keywords_logic" ;;
  sep <- lift (join_method logic) ;;
  words <- getitem "patent_keywords" ;;
  keywords <- lift (str_join sep words) ;;
  v <- getitem "patent_office" ;;
  let patent_query := exact_query ["office"] v in
  v <- getitem "patent_type" ;;
  let patent_query := q_and patent_query (exact_query ["type"] v) in
  v <- getitem "patent_application_filed_date" ;;
  q <- lift (range_query ["application_filed_date"] v) ;;
  let patent_query := q_and patent_query q in
  v <- getitem "patent_granted_date" ;;
  q <- lift (range_query ["granted_date"] v) ;;
  let patent_query := q_and patent_query q in
  v <- getitem "patent_figures_count" ;;
  q <- lift (range_query ["figures_count"] v) ;;
  let patent_query := q_and patent_query q in
  v <- getitem "patent_claims_count" ;;
  q <- lift (range_query ["claims_count"] v) ;;
  let patent_query := q_and patent_query q in
  v <- getitem "patent_sheets_count" ;;
  q <- lift (range_query ["sheets_count"] v) ;;
  let patent_query := q_and patent_query q in
  withdrawn <- getitem "patent_withdrawn" ;;
  let patent_query :=
    if is_not_None withdrawn
    then q_and patent_query (QLeaf ["withdrawn"] Exact (Lit withdrawn))
    else patent_query in
  words <- getitem "patent_keywords" ;;
  let patent_query :=
    if truthy words
    then q_and patent_query
           (q_or (QLeaf ["title"] IRegex (Lit (VStr ("(" +:+ keywords +:+ ")"))))
                 (QLeaf ["abstract"] IRegex (Lit (VStr ("(" +:+ keywords +:+ ")")))))
    else patent_query in
  ret patent_query.

Definition hierarchies : list string :=
  ["cpc_section"; "cpc_class"; "cpc_subclass"; "cpc_group"].

(** [[keyword for keyword in items if not keyword.startswith(key)]] *)
Fixpoint without_prefix (key : value) (items : list value) : result (list value) :=
  match items with
  | [] => Return []
  | keyword :: rest =>
      rbind (startswith keyword key) (fun b =>
      rbind (without_prefix key rest) (fun kept =>
      Return (if negb b then keyword :: kept else kept)))
  end.

(** The body of the innermost loop, lines 259 to 263. *)
Definition prune (hierarchy_below : string) (key : value) : py unit :=
  below <- getitem hierarchy_below ;;
  items <- lift (py_iter below) ;;
  kept <- lift (without_prefix key items) ;;
  setitem hierarchy_below (VList kept).

(** Lines 258 to 263: the loop over the keys of one level, for one level
    below it. *)
Definition prune_below (level hierarchy_below : string) : py unit :=
  selected <- getitem level ;;
  keys <- lift (py_iter selected) ;;
  for_each keys (prune hierarchy_below).

(** Lines 255 to 263: the loops over the levels, which write the caller's
    bundle. *)
Definition deduplicate : py unit :=
  for_each (zip (seq 0 (length hierarchies)) hierarchies) (fun '(level_index, level) =>
    for_each (drop (level_index + 1) hierarchies) (prune_below level)).

(** [Q(cpc_groups__cpc_group__group__iregex=f"^({'|'.join(codes)})")] *)
Definition level_query (codes : value) : result Q :=
  rbind (str_join "|" codes) (fun alternatives =>
  Return (QLeaf ["cpc_groups"; "cpc_group"; "group"] IRegex
            (Lit (VStr ("^(" +:+ alternatives +:+ ")"))))).

(** Lines 266 to 279. *)
Definition cpc_query : py Q :=
  let cpc_query := QEmpty in
  sections <- getitem "cpc_section" ;;
  q <- lift (if truthy sections then level_query sections else Return QEmpty) ;;
  let cpc_query := q_and cpc_query q in
  classes <- getitem "cpc_class" ;;
  q <- lift (if truthy classes then level_query classes else Return QEmpty) ;;
  let cpc_query := q_and cpc_query q in
  subclasses <- getitem "cpc_subclass" ;;
  q <- lift (if truthy subclasses then level_query subclasses else Return QEmpty) ;;
  let cpc_query := q_and cpc_query q in
  groups <- getitem "cpc_group" ;;
  let cpc_query :=
    if truthy groups
    then q_and cpc_query (QLeaf ["cpc_groups"; "cpc_group"] In (Lit groups))
    else cpc_query in
  ret cpc_query.

(** Lines 281 to 285. *)
Definition pct_query : py Q :=
  v <- getitem "pct_application_date" ;;
  pct_query <- lift (range_query ["pct_data"; "published_or_filed_date"] v) ;;
  granted <- getitem "pct_granted" ;;
  let pct_query :=
    if is_not_None granted
    then q_and pct_query (QLeaf ["pct_data"; "granted"] Exact (Lit granted))
    else pct_query in
  ret pct_query.

(** [Q(field__iregex=f"^({''.join(names)})")] *)
Definition first_name_query (field : list string) (names : value) : result Q :=
  rbind (str_join "" names) (fun joined =>
  Return (QLeaf field IRegex (Lit (VStr ("^(" +:+ joined +:+ ")"))))).

(** Lines 287 to 302. *)
Definition inventor_query : py Q :=
  let inventor_query := QEmpty in
  names <- getitem "inventor_first_name" ;;
  q <- (if truthy names
        then names <- getitem "inventor_first_name" ;;
             lift (first_name_query ["inventors"; "first_name"] names)
        else ret QEmpty) ;;
  let inventor_query := q_and inventor_query q in
  names <- getitem "inventor_last_name" ;;
  let inventor_query :=
    if truthy names
    then q_and inventor_query (QLeaf ["inventors"; "last_name"] In (Lit names))
    else inventor_query in
  male <- getitem "inventor_male" ;;
  let inventor_query :=
    if is_not_None male
    then q_and inventor_query (QLeaf ["inventors"; "male"] Exact (Lit male))
    else inventor_query in
  location <- getitem "inventor_location" ;;
  q <- lift (if truthy location
             then distance_query ["inventors"; "location"; "point"] location
             else Return QEmpty) ;;
  ret (q_and inventor_query q).

(** Lines 304 to 321. *)
Definition assignee_query : py Q :=
  let assignee_query := QEmpty in
  names <- getitem "assignee_first_name" ;;
  q <- (if truthy names
        then names <- getitem "assignee_first_name" ;;
             lift (first_name_query ["assignees"; "first_name"] names)
        else ret QEmpty) ;;
  let assignee_query := q_and assignee_query q in
  names <- getitem "assignee_last_name" ;;
  let assignee_query :=
    if truthy names
    then q_and assignee_query (QLeaf ["assignees"; "last_name"] In (Lit names))
    else assignee_query in
  organizations <- getitem "assignee_organization" ;;
  let assignee_query :=
    if truthy organizations
    then q_and assignee_query
           (QLeaf ["assignees"; "organization"] In (Lit organizations))
    else assignee_query in
  location <- getitem "assignee_location" ;;
  q <- lift (if truthy location
             then distance_query ["assignees"; "location"; "point"] location
             else Return QEmpty) ;;
  ret (q_and assignee_query q).

(** The [Q] that [filter] hands to [Patent.objects.filter]. *)
Definition compile : py Q :=
  patent_query <- patent_query ;;
  deduplicate ;;;
  cpc_query <- cpc_query ;;
  pct_query <- pct_query ;;
  inventor_query <- inventor_query ;;
  assignee_query <- assignee_query ;;
  ret (q_and (q_and (q_and (q_and patent_query cpc_query) pct_query) inventor_query)
         assignee_query).

(** [Patent.filter(data)]: the bundle as the call leaves it, and the result
    set or the exception. *)
Definition filter : py QuerySet :=
  query <- compile ;;
  lift (objects_filter query).

(** [Patent.fetch_representation(patents)] *)
Definition fetch_representation (patents : QuerySet) : AnnotatedQuerySet :=
  {| patents_annotated := patents;
     annotations :=
       [ ("cpc_groups_groups",
           {| expression := F ["cpc_groups"; "cpc_group"; "group"];
              delimiter := ", "; distinct := true |});
         ("pct_documents",
           {| expression := F ["pct_data"; "representation"];
              delimiter := ", "; distinct := true |});
         ("inventor_names",
           {| expression :=
                Concat [F ["inventors"; "first_name"]; Value " ";
                        F ["inventors"; "last_name"]];
              delimiter := ", "; distinct := true |});
         ("inventor_points",
           {| expression :=
                Concat [Func (F ["inventors"; "location"; "point"]) "ST_X"; Value "|";
                        Func (F ["inventors"; "location"; "point"]) "ST_Y"];
              delimiter := ","; distinct := true |});
         ("assignee_names",
           {| expression :=
                Concat [F ["assignees"; "first_name"]; Value " ";
                        F ["assignees"; "last_name"]; Value " ";
                        F ["assignees"; "organization"]];
              delimiter := ", "; distinct := true |});
         ("assignee_points",
           {| expression :=
                Concat [Func (F ["assignees"; "location"; "point"]) "ST_X"; Value "|";
                        Func (F ["assignees"; "location"; "point"]) "ST_Y"];
              delimiter := ","; distinct := true |}) ];
     order_by := "id" |}.

(** [Patent._meta.db_table]: the application label and the lower-cased
    class name. *)
Definition db_table : string := "main_patent".

(** [Patent.approximate_count()]:
    [SELECT reltuples FROM pg_class WHERE relname = %s], the first row, and
    [int] of its column. *)
Definition approximate_count (db : Database) : result Z :=
  let rows := List.filter (fun r => String.eqb r.1 db_table) (pg_class db) in
  rbind (fetchone_0 (snd <$> rows)) (fun reltuples =>
  Return (number_trunc reltuples)).

End Patent.

(** ** The datastore *)

(** What PostgreSQL and PostGIS, and the installed Django over them,
    contribute to a query.  The code does not determine them, so the
    properties hold for every one of them (and name what they need of
    it). *)
Class Datastore : Type := {
  (** [subject ~* pattern], for a pattern that is a regular expression (on
      another pattern the datastore raises when the rows are read, which is
      not modelled: the properties about rows take patterns without
      metacharacters, or leave the pattern uninterpreted) *)
  iregex : string -> string -> bool;
  (** the distance from the point to the centre is at most so many metres *)
  distance_lte : Point -> Point -> number -> bool;
  (** the text of a [double precision] *)
  coordinate_text : number -> string;
  (** what [StringAgg] without [default=] gives a group without a value:
      NULL from Django 5.0 on, the empty string before *)
  aggregate_of_nothing : option string
}.

(** ** Evaluating a query *)

Definition cpc_groups_of (db : Database) (p : Model.Patent.t) :
    list Model.PatentCPCGroup.t :=
  List.filter (fun l => Model.PatentCPCGroup.patent l =? Model.Patent.id p)%Z
    (patent_cpc_groups db).

Definition pct_data_of (db : Database) (p : Model.Patent.t) : list Model.PCTData.t :=
  List.filter (fun d => Model.PCTData.patent d =? Model.Patent.id p)%Z (pct_data db).

Definition inventors_of (db : Database) (p : Model.Patent.t) : list Model.Inventor.t :=
  List.filter (fun i => Model.Inventor.patent i =? Model.Patent.id p)%Z (inventors db).

Definition assignees_of (db : Database) (p : Model.Patent.t) : list Model.Assignee.t :=
  List.filter (fun a => Model.Assignee.patent a =? Model.Patent.id p)%Z (assignees db).

Definition location_of (db : Database) (key : option Z) : option Model.Location.t :=
  match key with
  | Some k => List.find (fun l => Model.Location.id l =? k)%Z (locations db)
  | None => None
  end.

(** One side of a join: without the join the row has no such part; joined,
    there is a row per related row, and the null row when there is none.
    (Django joins a relation named under [&] with INNER JOIN and one named
    under [|] with LEFT OUTER JOIN.  No lookup of this code holds of a NULL,
    so the rows that satisfy the condition are the same either way, and the
    outer join is taken for both.) *)
Definition side {A} (joined : bool) (related : list A) : list (option A) :=
  if joined then
    match related with
    | [] => [None]
    | _ => Some <$> related
    end
  else [None].

(** The rows of the join for one patent, nested in the order of the
    relations. *)
Definition joined_rows (db : Database) (joined : relation -> bool)
    (p : Model.Patent.t) : list Row :=
  flat_map (fun g =>
  flat_map (fun d =>
  flat_map (fun i =>
  flat_map (fun a =>
    [ {| row_patent := p;
         row_cpc_groups := g;
         row_pct_data := d;
         row_inventors := i;
         row_inventors_location :=
           match i with
           | Some i' => location_of db (Model.Inventor.location i')
           | None => None
           end;
         row_assignees := a;
         row_assignees_location :=
           match a with
           | Some a' => location_of db (Model.Assignee.location a')
           | None => None
           end |} ])
    (side (joined Rel_assignees) (assignees_of db p)))
    (side (joined Rel_inventors) (inventors_of db p)))
    (side (joined Rel_pct_data) (pct_data_of db p)))
    (side (joined Rel_cpc_groups) (cpc_groups_of db p)).

Definition cell_number (c : cell) : option number :=
  match c with
  | CInt n => Some (number_of_Z n)
  | CFloat q => Some q
  | _ => None
  end.

Definition value_number (v : value) : option number :=
  match v with
  | VInt n => Some (number_of_Z n)
  | VFloat q => Some q
  | _ => None
  end.

(** The order between a column and a value of the same kind: integers,
    dates, and numbers one of which is a float.  NULL, and a value of another
    kind than the column, compare with nothing.  (The integer columns are
    32-bit.  What becomes of a bound outside their range differs with the
    version of Django and is not modelled: the properties about bounds take
    bounds within the range.) *)
Definition compare_cell (c : cell) (v : value) : option comparison :=
  match c, v with
  | CInt a, VInt b => Some (a ?= b)%Z
  | CDate a, VDate b => Some (a ?= b)%Z
  | CDate _, _ | _, VDate _ => None
  | _, _ =>
      match cell_number c, value_number v with
      | Some a, Some b => Some (QArith_base.Qcompare a b)
      | _, _ => None
      end
  end.

Definition cell_eq (c : cell) (v : value) : bool :=
  match c, v with
  | CStr a, VStr b => String.eqb a b
  | CBool a, VBool b => Bool.eqb a b
  | _, _ =>
      match compare_cell c v with
      | Some Eq => true
      | _ => false
      end
  end.

Section Execution.
Context `{Datastore}.

(** One condition on one column of a row. *)
Definition holds (lk : lookup) (c : cell) (r : rhs) : bool :=
  match lk, r with
  | Exact, Lit v => cell_eq c v
  | Gte, Lit v =>
      match compare_cell c v with
      | Some Gt | Some Eq => true
      | _ => false
      end
  | Lte, Lit v =>
      match compare_cell c v with
      | Some Lt | Some Eq => true
      | _ => false
      end
  | IRegex, Lit (VStr pattern) =>
      match c with
      | CStr subject => iregex pattern subject
      | _ => false
      end
  | In, Lit v =>
      match py_iter v with
      | Return items => existsb (cell_eq c) items
      | Raise _ => false
      end
  | DistanceLte, Geo center radius_m =>
      match c with
      | CPoint p => distance_lte p center radius_m
      | _ => false
      end
  | _, _ => false
  end.

(** The WHERE clause on a row. *)
Fixpoint eval (q : Q) (r : Row) : bool :=
  match q with
  | QEmpty => true
  | QLeaf path lk v =>
      match resolve path with
      | Return f => holds lk (f r) v
      | Raise _ => false
      end
  | QAnd a b => eval a r && eval b r
  | QOr a b => eval a r || eval b r
  end.

(** The rows a query selects.  The query has no [ORDER BY], so the
    datastore may return them in any order; they are listed here patent by
    patent in the order of the table, and a property about the rows of a
    result set is about how often a patent is among them. *)
Definition select (db : Database) (q : Q) (joined : relation -> bool) : list Row :=
  flat_map (fun p => List.filter (eval q) (joined_rows db joined p)) (patents db).

(** Consuming the result set of [Patent.filter]: the patent of every
    selected row of the join over the relations the condition names. *)
Definition execute (db : Database) (patents : QuerySet) : list Model.Patent.t :=
  row_patent <$> select db (query_where patents) (joins (query_where patents)).

(** [list(Patent.filter(data))]: the call, then the rows of its result. *)
Definition run_filter (db : Database) (data : dict) : result (list Model.Patent.t) :=
  rbind (Patent.filter data).2 (fun patents => Return (execute db patents)).

End Execution.

(** ** Evaluating the annotated query *)

Fixpoint expr_paths (e : expr) : list (list string) :=
  match e with
  | F path => [path]
  | Value _ => []
  | Concat parts => flat_map expr_paths parts
  | Func arg _ => expr_paths arg
  end.

(** The joins of [patents.annotate(...)]: those of the condition, which the
    annotations reuse, and those the annotations name. *)
Definition annotated_joins (a : AnnotatedQuerySet) (rel : relation) : bool :=
  joins (query_where (patents_annotated a)) rel
  || existsb (fun ann => existsb (path_joins rel) (expr_paths (expression ann.2)))
       (annotations a).

Section Aggregation.
Context `{Datastore}.

(** [StringAgg(e, delimiter, distinct)] over the values of [e] on the rows
    of a group: NULLs are skipped and equal values are taken once.  SQL
    leaves the order of the entries open (they are listed here in the order
    of their first row, and the properties say nothing of it), and what a
    group without a value gets is the datastore's. *)
Definition string_agg (agg_distinct : bool) (agg_delimiter : string)
    (values : list (option string)) : option string :=
  let entries := omap id values in
  let entries := if agg_distinct then remove_dups entries else entries in
  match entries with
  | [] => aggregate_of_nothing
  | _ => Some (String.concat agg_delimiter entries)
  end.

End Aggregation.

(** Insertion into a strictly increasing list of keys. *)
Fixpoint insert_key (k : Z) (ks : list Z) : list Z :=
  match ks with
  | [] => [k]
  | k' :: rest =>
      if (k <? k')%Z then k :: ks
      else if (k =? k')%Z then ks
      else k' :: insert_key k rest
  end.

(** The keys of [GROUP BY id ORDER BY id]. *)
Definition group_keys (ks : list Z) : list Z := foldr insert_key [] ks.

(** A patent as the annotated query returns it: the instance and its
    annotations by name. *)
Record AnnotatedPatent : Type := {
  instance : Model.Patent.t;
  annotation : list (string * option string)
}.

Section Representation.
Context `{Datastore}.

(** The text of a column in an aggregate (the columns aggregated here are
    text columns). *)
Definition cell_text (c : cell) : option string :=
  match c with
  | CStr s => Some s
  | _ => None
  end.

(** The value of an expression on a row; [None] is NULL.  [Concat] reads a
    NULL part as the empty string, [ST_X] and [ST_Y] of a NULL point are
    NULL. *)
Fixpoint eval_expr (e : expr) (r : Row) : option string :=
  match e with
  | F path =>
      match resolve path with
      | Return f => cell_text (f r)
      | Raise _ => None
      end
  | Value s => Some s
  | Concat parts =>
      Some (String.concat "" (List.map (fun e' => default "" (eval_expr e' r)) parts))
  | Func (F path) function =>
      match resolve path with
      | Return f =>
          match f r with
          | CPoint p =>
              if String.eqb function "ST_X" then Some (coordinate_text (x p))
              else if String.eqb function "ST_Y" then Some (coordinate_text (y p))
              else None
          | _ => None
          end
      | Raise _ => None
      end
  | Func _ _ => None
  end.

(** The annotations of one group of rows. *)
Definition aggregate (a : AnnotatedQuerySet) (group : list Row) :
    list (string * option string) :=
  (fun ann : string * StringAgg =>
     (ann.1,
      string_agg (distinct ann.2) (delimiter ann.2)
        (eval_expr (expression ann.2) <$> group)))
  <$> annotations a.

Definition rows_of (k : Z) (rows : list Row) : list Row :=
  List.filter (fun r => Model.Patent.id (row_patent r) =? k)%Z rows.

(** Consuming the result of [fetch_representation]: the selected rows of
    the join grouped by the patent's [id], one output row per group with its
    aggregates, in the order of [order_by]. *)
Definition execute_annotated (db : Database) (a : AnnotatedQuerySet) :
    list AnnotatedPatent :=
  let rows := select db (query_where (patents_annotated a)) (annotated_joins a) in
  let keys := Model.Patent.id <$> (row_patent <$> rows) in
  let keys := if String.eqb (order_by a) "id" then group_keys keys
              else remove_dups keys in
  flat_map (fun k =>
    match rows_of k rows with
    | [] => []
    | (r :: _) as group =>
        [ {| instance := row_patent r; annotation := aggregate a group |} ]
    end) keys.

End Representation.

(** ** Bundles that select nothing *)

Definition falsy_at (d : dict) (key : string) : bool :=
  match d !! key with
  | Some v => negb (truthy v)
  | None => false
  end.

Definition none_at (d : dict) (key : string) : bool :=
  match d !! key with
  | Some VNone => true
  | _ => false
  end.

Definition string_at (d : dict) (key : string) : bool :=
  match d !! key with
  | Some (VStr _) => true
  | _ => false
  end.

(** An empty list, string or dict: nothing to iterate over. *)
Definition empty_iterable_at (d : dict) (key : string) : bool :=
  match d !! key with
  | Some (VList []) | Some (VStr EmptyString) | Some (VDict []) => true
  | _ => false
  end.

(** A range without a bound: no value at all, or [min] and [max] both
    without a value. *)
Definition unset_range (v : value) : bool :=
  negb (truthy v)
  || match subscript v "min", subscript v "max" with
     | Return lo, Return hi => negb (truthy lo) && negb (truthy hi)
     | _, _ => false
     end.

Definition no_range_at (d : dict) (key : string) : bool :=
  match d !! key with
  | Some v => unset_range v
  | None => false
  end.

Definition patent_unconstrained (d : dict) : bool :=
  string_at d "patent_keywords_logic"
  && empty_iterable_at d "patent_keywords"
  && falsy_at d "patent_office"
  && falsy_at d "patent_type"
  && no_range_at d "patent_application_filed_date"
  && no_range_at d "patent_granted_date"
  && no_range_at d "patent_figures_count"
  && no_range_at d "patent_claims_count"
  && no_range_at d "patent_sheets_count"
  && none_at d "patent_withdrawn".

Definition cpc_unconstrained (d : dict) : bool :=
  empty_iterable_at d "cpc_section"
  && empty_iterable_at d "cpc_class"
  && empty_iterable_at d "cpc_subclass"
  && empty_iterable_at d "cpc_group".

Definition pct_unconstrained (d : dict) : bool :=
  no_range_at d "pct_application_date" && none_at d "pct_granted".

Definition inventor_unconstrained (d : dict) : bool :=
  falsy_at d "inventor_first_name"
  && falsy_at d "inventor_last_name"
  && none_at d "inventor_male"
  && falsy_at d "inventor_location".

Definition assignee_unconstrained (d : dict) : bool :=
  falsy_at d "assignee_first_name"
  && falsy_at d "assignee_last_name"
  && falsy_at d "assignee_organization"
  && falsy_at d "assignee_location".

(** Every key of the form is present and every dimension is left empty. *)
Definition unconstrained (d : dict) : bool :=
  patent_unconstrained d
  && cpc_unconstrained d
  && pct_unconstrained d
  && inventor_unconstrained d
  && assignee_unconstrained d.

(** ** The selections of the four classification levels *)

(** The codes that start with none of the coarser codes. *)
Definition not_implied (coarser codes : list string) : list string :=
  List.filter (fun code => negb (existsb (fun c => String.prefix c code) coarser)) codes.

(** A bundle with the four selections given as lists of codes. *)
Definition with_selection (d : dict) (sections classes subclasses groups : list string) :
    dict :=
  <["cpc_section" := VList (VStr <$> sections)]>
    (<["cpc_class" := VList (VStr <$> classes)]>
       (<["cpc_subclass" := VList (VStr <$> subclasses)]>
          (<["cpc_group" := VList (VStr <$> groups)]> d))).

(** ** A datastore and a snapshot to run the definitions on *)

Module Sample.

Definition lower (c : ascii) : ascii :=
  let n := nat_of_ascii c in
  if (65 <=? n)%nat && (n <=? 90)%nat then ascii_of_nat (n + 32) else c.

Fixpoint lower_string (s : string) : string :=
  match s with
  | EmptyString => EmptyString
  | String c s' => String (lower c) (lower_string s')
  end.

Fixpoint contains (part s : string) : bool :=
  String.prefix part s
  || match s with
     | EmptyString => false
     | String _ s' => contains part s'
     end.

(** The alternatives of [a|b|c]. *)
Fixpoint alternatives (s : string) : list string :=
  match s with
  | EmptyString => [EmptyString]
  | String c s' =>
      if Ascii.eqb c "|" then EmptyString :: alternatives s'
      else
        match alternatives s' with
        | [] => [String c EmptyString]
        | a :: rest => String c a :: rest
        end
  end.

Definition metacharacter (c : ascii) : bool :=
  existsb (Ascii.eqb c)
    (list_ascii_of_string "\^$.[]()*+?{}").

Fixpoint literal (s : string) : bool :=
  match s with
  | EmptyString => true
  | String c s' => negb (metacharacter c) && literal s'
  end.

(** [(body)] to [body] *)
Definition unparenthesised (s : string) : option string :=
  match s with
  | String c rest =>
      let n := String.length rest in
      if Ascii.eqb c "(" && String.eqb (String.substring (n - 1) 1 rest) ")"
      then Some (String.substring 0 (n - 1) rest)
      else None
  | EmptyString => None
  end.

(** Case-insensitive matching of the patterns [(w1|...|wn)] and
    [^(w1|...|wn)] whose words hold no metacharacter: some word occurs in
    the subject, respectively starts it.  Other patterns match nothing
    here. *)
Definition sample_iregex (pattern subject : string) : bool :=
  let '(anchored, body) :=
    match pattern with
    | String c rest => if Ascii.eqb c "^" then (true, rest) else (false, pattern)
    | EmptyString => (false, pattern)
    end in
  match unparenthesised body with
  | Some words =>
      literal words
      && existsb
           (fun w =>
              if anchored then String.prefix (lower_string w) (lower_string subject)
              else contains (lower_string w) (lower_string subject))
           (alternatives words)
  | None => false
  end.

(** Distance on a plane whose unit is the metre, in place of the
    spheroid. *)
Definition sample_distance_lte (p center : Point) (radius_m : number) : bool :=
  let dx := QArith_base.Qminus (x p) (x center) in
  let dy := QArith_base.Qminus (y p) (y center) in
  QArith_base.Qle_bool
    (QArith_base.Qplus (QArith_base.Qmult dx dx) (QArith_base.Qmult dy dy))
    (QArith_base.Qmult radius_m radius_m).

(** An integral coordinate in decimal, another one as a fraction. *)
Definition sample_coordinate_text (q : number) : string :=
  match QArith_base.Qden q with
  | xH => pretty (QArith_base.Qnum q)
  | d => pretty (QArith_base.Qnum q) +:+ "/" +:+ pretty (Z.pos d)
  end.

Definition store : Datastore := {|
  iregex := sample_iregex;
  distance_lte := sample_distance_lte;
  coordinate_text := sample_coordinate_text;
  aggregate_of_nothing := None
|}.

Definition patent (key : Z) (office title : string) (abstract : option string)
    (figures : option Z) (is_withdrawn : bool) : Model.Patent.t :=
  {| Model.Patent.id := key;
     Model.Patent.office := office;
     Model.Patent.office_patent_id := pretty key;
     Model.Patent.type := Some "utility";
     Model.Patent.application_filed_date := Some 737000%Z;
     Model.Patent.granted_date := 738000%Z;
     Model.Patent.title := title;
     Model.Patent.abstract_processed := abstract;
     Model.Patent.claims_count := 10;
     Model.Patent.figures_count := figures;
     Model.Patent.sheets_count := None;
     Model.Patent.withdrawn := is_withdrawn;
     Model.Patent.granted_year := None;
     Model.Patent.application_year := None;
     Model.Patent.years_to_get_granted := None;
     Model.Patent.title_processed := None;
     Model.Patent.title_word_count_without_processing := None;
     Model.Patent.title_word_count_with_processing := None;
     Model.Patent.abstract_word_count_without_processing := None;
     Model.Patent.abstract_word_count_with_processing := None;
     Model.Patent.cpc_groups_count := None;
     Model.Patent.assignee_count := None;
     Model.Patent.inventor_count := None;
     Model.Patent.incoming_citations_count := None;
     Model.Patent.outgoing_citations_count := None;
     Model.Patent.representation := None |}.

Definition golf_glove : Model.Patent.t :=
  patent 1 "USPTO" "Golf glove" (Some "glove golf grip") (Some 5%Z) false.

Definition filter_press : Model.Patent.t :=
  patent 2 "USPTO" "Filter press" (Some "tennis ball wash filter") (Some 0%Z) true.

Definition location (key : Z) (lng lat : Z) : Model.Location.t :=
  {| Model.Location.id := key;
     Model.Location.country_code := Some "GR";
     Model.Location.state := None;
     Model.Location.city := None;
     Model.Location.point := Some {| x := number_of_Z lng; y := number_of_Z lat |};
     Model.Location.county_fips := None;
     Model.Location.state_fips := None |}.

Definition inventor (key owner : Z) (place : option Z) (first last : string)
    (is_male : option bool) : Model.Inventor.t :=
  {| Model.Inventor.id := key;
     Model.Inventor.patent := owner;
     Model.Inventor.location := place;
     Model.Inventor.first_name := Some first;
     Model.Inventor.last_name := Some last;
     Model.Inventor.male := is_male |}.

Definition link (key owner : Z) (code : string) : Model.PatentCPCGroup.t :=
  {| Model.PatentCPCGroup.id := key;
     Model.PatentCPCGroup.patent := owner;
     Model.PatentCPCGroup.cpc_group := code |}.

(** Two patents; the first has two inventors at the same place, and two
    classification groups. *)
Definition db : Database :=
  {| patents := [golf_glove; filter_press];
     patent_cpc_groups :=
       [link 1 1 "A63B71/146"; link 2 1 "B01D1/00"; link 3 2 "B01D25/12"];
     pct_data := [];
     locations := [location 1 23 37; location 2 100 100];
     inventors :=
       [ inventor 1 1 (Some 1%Z) "JoMary" "Smith" (Some false);
         inventor 2 1 (Some 1%Z) "John" "Smith" (Some true);
         inventor 3 2 (Some 2%Z) "Mary" "Jones" None ];
     assignees := [];
     pg_class := [("main_inventor", number_of_Z 3); ("main_patent", number_of_Z 1200)] |}.

(** The bundle of a form left blank: every key present, nothing selected. *)
Definition blank : dict :=
  list_to_map
    [ ("patent_office", VStr "");
      ("patent_type", VStr "");
      ("patent_application_filed_date", VDict [("min", VNone); ("max", VNone)]);
      ("patent_granted_date", VDict [("min", VNone); ("max", VNone)]);
      ("patent_figures_count", VDict [("min", VNone); ("max", VNone)]);
      ("patent_claims_count", VDict [("min", VNone); ("max", VNone)]);
      ("patent_sheets_count", VDict [("min", VNone); ("max", VNone)]);
      ("patent_withdrawn", VNone);
      ("patent_keywords", VList []);
      ("patent_keywords_logic", VStr "|");
      ("cpc_section", VList []);
      ("cpc_class", VList []);
      ("cpc_subclass", VList []);
      ("cpc_group", VList []);
      ("pct_application_date", VDict [("min", VNone); ("max", VNone)]);
      ("pct_granted", VNone);
      ("inventor_first_name", VList []);
      ("inventor_last_name", VList []);
      ("inventor_male", VNone);
      ("inventor_location", VNone);
      ("assignee_first_name", VList []);
      ("assignee_last_name", VList []);
      ("assignee_organization", VList []);
      ("assignee_location", VNone) ].

(** The criteria of the specification's end-to-end example: office, two
    keywords joined with [|], one section. *)
Definition golf_or_tennis : dict :=
  <["patent_office" := VStr "USPTO"]>
    (<["patent_keywords" := VList [VStr "golf"; VStr "tennis"]]>
       (<["cpc_section" := VList [VStr "A"]]> blank)).

(** Section [A] together with a group below it. *)
Definition section_and_group : dict :=
  with_selection blank ["A"] [] [] ["A63B71/146"].

(** At most zero figures. *)
Definition no_figures : dict :=
  <["patent_figures_count" := VDict [("min", VNone); ("max", VInt 0)]]> blank.


(** The snapshot without its patents, the statistics untouched. *)
Definition emptied : Database :=
  {| patents := [];
     patent_cpc_groups := [];
     pct_data := [];
     locations := [];
     inventors := [];
     assignees := [];
     pg_class := pg_class db |}.

End Sample.

(** ** Notions the properties are stated with *)

(** The entries a computation may write: every other key has its value
    afterwards, whether the computation returns or raises. *)
Definition writes_only {A} (keys : list string) (m : py A) : Prop :=
  forall (d : dict) (k : string),
    existsb (String.eqb k) keys = false -> (m d).1 !! k = d !! k.

(** The row of a join over the inventors alone. *)
Definition inventor_row (db : Database) (p : Model.Patent.t)
    (i : option Model.Inventor.t) : Row :=
  {| row_patent := p;
     row_cpc_groups := None;
     row_pct_data := None;
     row_inventors := i;
     row_inventors_location :=
       match i with
       | Some i' => location_of db (Model.Inventor.location i')
       | None => None
       end;
     row_assignees := None;
     row_assignees_location := None |}.

(** A bundle that selects nothing, but for inventors around a centre. *)
Definition around (d : dict) (lng lat radius_m : number) : dict :=
  <["inventor_location" :=
      VDict [("lng", VFloat lng); ("lat", VFloat lat); ("radius", VFloat radius_m)]]> d.


(** [STRING_AGG] as a string of entries: no entry, no string. *)
Definition joined (agg_delimiter : string) (entries : list string) : option string :=
  match entries with
  | [] => None
  | _ => Some (String.concat agg_delimiter entries)
  end.

(** The aggregate is the delimiter-joined string of entries without a
    repetition that are exactly the non-NULL values. *)
Definition distinct_entries (agg_delimiter : string) (values : list (option string))
    (agg : option string) : Prop :=
  exists entries : list string,
    NoDup entries
    /\ (forall s, s ∈ entries <-> Some s ∈ values)
    /\ agg = joined agg_delimiter entries.

(** The computation neither reads nor writes the key: with another value
    under the key it does the same thing, and leaves that value there. *)
Definition ignores {A} (key : string) (m : py A) : Prop :=
  forall (d : dict) (v : value), m (<[key := v]> d) = (<[key := v]> (m d).1, (m d).2).

(** The condition [compile] returns, as a function of what its fragments
    return: only [deduplicate] changes the bundle on the way. *)
Definition compiled (d : dict) : result Q :=
  rbind (Patent.patent_query d).2 (fun patent_query =>
  rbind (Patent.deduplicate d).2 (fun _ =>
  let d' := (Patent.deduplicate d).1 in
  rbind (Patent.cpc_query d').2 (fun cpc_query =>
  rbind (Patent.pct_query d').2 (fun pct_query =>
  rbind (Patent.inventor_query d').2 (fun inventor_query =>
  rbind (Patent.assignee_query d').2 (fun assignee_query =>
  Return
    (q_and (q_and (q_and (q_and patent_query cpc_query) pct_query) inventor_query)
       assignee_query))))))).

(** Every condition of the [Q] is on a path that starts with one of the
    names. *)
Definition rooted (roots : list string) (q : Q) : Prop :=
  Forall (fun l => existsb (String.eqb (hd EmptyString l.1.1)) roots = true) (leaves q).

(** What a computation returns, when it returns, has the property. *)
Definition yields {A} (P : A -> Prop) (m : py A) : Prop :=
  forall d a, (m d).2 = Return a -> P a.

(** The names of the columns of [Patent]. *)
Definition patent_columns_named : list string := fst <$> patent_columns.

(** The three flags of the form that are None, True or False. *)
Inductive tri_state : Type := patent_withdrawn | pct_granted | inventor_male.

(** The key of the flag in the bundle, and the path of its condition. *)
Definition flag_key (t : tri_state) : string :=
  match t with
  | patent_withdrawn => "patent_withdrawn"
  | pct_granted => "pct_granted"
  | inventor_male => "inventor_male"
  end.

Definition flag_path (t : tri_state) : list string :=
  match t with
  | patent_withdrawn => ["withdrawn"]
  | pct_granted => ["pct_data"; "granted"]
  | inventor_male => ["inventors"; "male"]
  end.

Section Notions.
Context `{Datastore}.

(** The location of the inventor lies within the radius of the centre. *)
Definition inventor_within (db : Database) (center : Point) (radius_m : number)
    (i : Model.Inventor.t) : bool :=
  match location_of db (Model.Inventor.location i) with
  | Some l =>
      match Model.Location.point l with
      | Some p => distance_lte p center radius_m
      | None => false
      end
  | None => false
  end.


(** What setting a flag does to a condition: unset, the condition has
    nothing on the column; set, it is the unset condition and the equality
    of the column with the flag; and a bundle that raises raises either
    way. *)
Definition adds_condition (path : list string) (b : bool) (unset set : result Q) : Prop :=
  match unset with
  | Return q =>
      Forall (fun l => l.1.1 <> path) (leaves q)
      /\ exists q',
           set = Return q'
           /\ (path, Exact, Lit (VBool b)) ∈ leaves q'
           /\ forall r, eval q' r = eval q r && eval (QLeaf path Exact (Lit (VBool b))) r
  | Raise e => set = Raise e
  end.

End Notions.

(** ** Notions of the further properties *)

(** Every condition of the [Q] is on a path of the models. *)
Definition checked (q : Q) : Prop := check q = Return tt.

(** The keys of the bundle that [filter] reads. *)
Definition form_keys : list string :=
  [ "patent_keywords_logic"; "patent_keywords"; "patent_office"; "patent_type";
    "patent_application_filed_date"; "patent_granted_date"; "patent_figures_count";
    "patent_claims_count"; "patent_sheets_count"; "patent_withdrawn";
    "cpc_section"; "cpc_class"; "cpc_subclass"; "cpc_group";
    "pct_application_date"; "pct_granted";
    "inventor_first_name"; "inventor_last_name"; "inventor_male"; "inventor_location";
    "assignee_first_name"; "assignee_last_name"; "assignee_organization";
    "assignee_location" ].

(** A computation that returns only on a bundle with the keys. *)
Definition needs {A} (keys : list string) (m : py A) : Prop :=
  forall d a, (m d).2 = Return a -> Forall (fun k => is_Some (d !! k)) keys.

(** A computation that puts no new key into the bundle. *)
Definition adds_no_key {A} (m : py A) : Prop :=
  forall d k, d !! k = None -> (m d).1 !! k = None.

(** A value that is left out (anything false), or one of the kind. *)
Definition optional (ok : value -> bool) (v : value) : bool := negb (truthy v) || ok v.

Definition is_string (v : value) : bool :=
  match v with
  | VStr _ => true
  | _ => false
  end.

(** A list of strings. *)
Definition is_strings (v : value) : bool :=
  match v with
  | VList items => forallb is_string items
  | _ => false
  end.

(** None, True or False. *)
Definition is_flag (v : value) : bool :=
  match v with
  | VNone | VBool _ => true
  | _ => false
  end.

Definition is_int (v : value) : bool :=
  match v with
  | VInt _ => true
  | _ => false
  end.

Definition is_date (v : value) : bool :=
  match v with
  | VDate _ => true
  | _ => false
  end.

Definition is_number (v : value) : bool :=
  match v with
  | VInt _ | VFloat _ => true
  | _ => false
  end.

(** A dict with the entries [min] and [max], each left out or a bound of
    the kind of the column. *)
Definition has_bounds (is_bound : value -> bool) (v : value) : bool :=
  match subscript v "min", subscript v "max" with
  | Return lo, Return hi => optional is_bound lo && optional is_bound hi
  | _, _ => false
  end.

(** A dict with the numbers [lng], [lat] and [radius]. *)
Definition is_location (v : value) : bool :=
  match subscript v "lng", subscript v "lat", subscript v "radius" with
  | Return lng, Return lat, Return radius =>
      is_number lng && is_number lat && is_number radius
  | _, _, _ => false
  end.

(** The key is there, with a value of the shape. *)
Definition shaped (ok : value -> bool) (d : dict) (key : string) : bool :=
  match d !! key with
  | Some v => ok v
  | None => false
  end.

(** The entries each fragment reads have the shape the form gives them. *)
Definition patent_well_formed (d : dict) : bool :=
  shaped is_string d "patent_keywords_logic"
  && shaped is_strings d "patent_keywords"
  && shaped (optional is_string) d "patent_office"
  && shaped (optional is_string) d "patent_type"
  && shaped (optional (has_bounds is_date)) d "patent_application_filed_date"
  && shaped (optional (has_bounds is_date)) d "patent_granted_date"
  && shaped (optional (has_bounds is_int)) d "patent_figures_count"
  && shaped (optional (has_bounds is_int)) d "patent_claims_count"
  && shaped (optional (has_bounds is_int)) d "patent_sheets_count"
  && shaped is_flag d "patent_withdrawn".

Definition cpc_well_formed (d : dict) : bool :=
  shaped is_strings d "cpc_section"
  && shaped is_strings d "cpc_class"
  && shaped is_strings d "cpc_subclass"
  && shaped is_strings d "cpc_group".

Definition pct_well_formed (d : dict) : bool :=
  shaped (optional (has_bounds is_date)) d "pct_application_date"
  && shaped is_flag d "pct_granted".

Definition inventor_well_formed (d : dict) : bool :=
  shaped (optional is_strings) d "inventor_first_name"
  && shaped (optional is_strings) d "inventor_last_name"
  && shaped is_flag d "inventor_male"
  && shaped (optional is_location) d "inventor_location".

Definition assignee_well_formed (d : dict) : bool :=
  shaped (optional is_strings) d "assignee_first_name"
  && shaped (optional is_strings) d "assignee_last_name"
  && shaped (optional is_strings) d "assignee_organization"
  && shaped (optional is_location) d "assignee_location".

(** Every key of the form is present with a value of the shape the form
    gives it: texts, lists of texts, flags, ranges of dates or of counts,
    and locations, each of which may be left out where [filter] tests it
    for truth. *)
Definition well_formed (d : dict) : bool :=
  patent_well_formed d
  && cpc_well_formed d
  && pct_well_formed d
  && inventor_well_formed d
  && assignee_well_formed d.

(** What the five fragments of [filter] return, the last four on the
    de-duplicated bundle. *)
Definition fragments (d : dict) : result (Q * Q * Q * Q * Q) :=
  rbind (Patent.patent_query d).2 (fun patent_query =>
  rbind (Patent.deduplicate d).2 (fun _ =>
  let d' := (Patent.deduplicate d).1 in
  rbind (Patent.cpc_query d').2 (fun cpc_query =>
  rbind (Patent.pct_query d').2 (fun pct_query =>
  rbind (Patent.inventor_query d').2 (fun inventor_query =>
  rbind (Patent.assignee_query d').2 (fun assignee_query =>
  Return (patent_query, cpc_query, pct_query, inventor_query, assignee_query))))))).

(** The relation a path goes through, if any. *)
Definition root_of (path : list string) : option relation :=
  match path with
  | name :: _ => relation_named name
  | [] => None
  end.

(** A row with the patent alone, and with one related row beside it. *)
Definition bare_row (p : Model.Patent.t) : Row :=
  {| row_patent := p; row_cpc_groups := None; row_pct_data := None;
     row_inventors := None; row_inventors_location := None;
     row_assignees := None; row_assignees_location := None |}.

Definition cpc_row (p : Model.Patent.t) (g : option Model.PatentCPCGroup.t) : Row :=
  {| row_patent := p; row_cpc_groups := g; row_pct_data := None;
     row_inventors := None; row_inventors_location := None;
     row_assignees := None; row_assignees_location := None |}.

Definition pct_row (p : Model.Patent.t) (t : option Model.PCTData.t) : Row :=
  {| row_patent := p; row_cpc_groups := None; row_pct_data := t;
     row_inventors := None; row_inventors_location := None;
     row_assignees := None; row_assignees_location := None |}.

Definition assignee_row (db : Database) (p : Model.Patent.t)
    (a : option Model.Assignee.t) : Row :=
  {| row_patent := p; row_cpc_groups := None; row_pct_data := None;
     row_inventors := None; row_inventors_location := None;
     row_assignees := a;
     row_assignees_location :=
       match a with
       | Some a' => location_of db (Model.Assignee.location a')
       | None => None
       end |}.

(** The part of a row that a path through the relation reads. *)
Definition part (rel : option relation) (r : Row) : Row :=
  match rel with
  | None => bare_row (row_patent r)
  | Some Rel_cpc_groups => cpc_row (row_patent r) (row_cpc_groups r)
  | Some Rel_pct_data => pct_row (row_patent r) (row_pct_data r)
  | Some Rel_inventors =>
      {| row_patent := row_patent r; row_cpc_groups := None; row_pct_data := None;
         row_inventors := row_inventors r;
         row_inventors_location := row_inventors_location r;
         row_assignees := None; row_assignees_location := None |}
  | Some Rel_assignees =>
      {| row_patent := row_patent r; row_cpc_groups := None; row_pct_data := None;
         row_inventors := None; row_inventors_location := None;
         row_assignees := row_assignees r;
         row_assignees_location := row_assignees_location r |}
  end.

(** Every condition of the [Q] goes through the relation (or, for [None],
    is on a column of the patent). *)
Definition through_relation (rel : option relation) (q : Q) : Prop :=
  Forall (fun l => root_of l.1.1 = rel) (leaves q).

(** A conjunction of conditions. *)
Fixpoint conjunctive (q : Q) : bool :=
  match q with
  | QEmpty | QLeaf _ _ _ => true
  | QAnd a b => conjunctive a && conjunctive b
  | QOr _ _ => false
  end.

Definition count_true (b : bool) : nat := if b then 1 else 0.

(** The row has no related row of the relation. *)
Definition null_part (rel : relation) (r : Row) : Prop :=
  match rel with
  | Rel_cpc_groups => row_cpc_groups r = None
  | Rel_pct_data => row_pct_data r = None
  | Rel_inventors => row_inventors r = None /\ row_inventors_location r = None
  | Rel_assignees => row_assignees r = None /\ row_assignees_location r = None
  end.

Section Multiplicity.
Context `{Datastore}.

(** The number of related rows that satisfy the conditions on a relation;
    a relation without a condition is not joined, and counts once. *)
Definition matches {A} (q : Q) (rel : relation) (row : option A -> Row)
    (related : list A) : nat :=
  if joins q rel then length (List.filter (fun a => eval q (row (Some a))) related)
  else 1.

(** How often [filter] selects a patent, from the conditions of the five
    fragments. *)
Definition multiplicity (db : Database) (fs : Q * Q * Q * Q * Q) (p : Model.Patent.t) :
    nat :=
  let '(patent_query, cpc_query, pct_query, inventor_query, assignee_query) := fs in
  count_true (eval patent_query (bare_row p))
  * matches cpc_query Rel_cpc_groups (cpc_row p) (cpc_groups_of db p)
  * matches pct_query Rel_pct_data (pct_row p) (pct_data_of db p)
  * matches inventor_query Rel_inventors (inventor_row db p) (inventors_of db p)
  * matches assignee_query Rel_assignees (assignee_row db p) (assignees_of db p).

End Multiplicity.

Definition conjunction (q : Q) : Prop := conjunctive q = true.

(** Inventors near the first location of the sample, under section [B]. *)
Definition section_b_nearby : dict :=
  <["cpc_section" := VList [VStr "B"]]>
    (around Sample.blank (number_of_Z 23) (number_of_Z 37) (number_of_Z 5)).

(** The row without the related rows of the relations that are not
    joined. *)
Definition restrict (joined : relation -> bool) (r : Row) : Row :=
  {| row_patent := row_patent r;
     row_cpc_groups := if joined Rel_cpc_groups then row_cpc_groups r else None;
     row_pct_data := if joined Rel_pct_data then row_pct_data r else None;
     row_inventors := if joined Rel_inventors then row_inventors r else None;
     row_inventors_location :=
       if joined Rel_inventors then row_inventors_location r else None;
     row_assignees := if joined Rel_assignees then row_assignees r else None;
     row_assignees_location :=
       if joined Rel_assignees then row_assignees_location r else None |}.

(** The expressions whose values [fetch_representation] aggregates under
    [inventor_names] and [assignee_names]. *)
Definition inventor_names : expr :=
  Concat [F ["inventors"; "first_name"]; Value " "; F ["inventors"; "last_name"]].

Definition assignee_names : expr :=
  Concat [F ["assignees"; "first_name"]; Value " "; F ["assignees"; "last_name"];
          Value " "; F ["assignees"; "organization"]].

(** A bundle that selects nothing, but for a range of the number of
    figures. *)
Definition figures_between (d : dict) (lo hi : Z) : dict :=
  <["patent_figures_count" := VDict [("min", VInt lo); ("max", VInt hi)]]> d.

(** The number of figures is known and within the bounds. *)
Definition figures_within (lo hi : Z) (p : Model.Patent.t) : bool :=
  match Model.Patent.figures_count p with
  | Some n => (lo <=? n)%Z && (n <=? hi)%Z
  | None => false
  end.

(** The entry of an inventor in [inventor_names]. *)
Definition inventor_entry (i : Model.Inventor.t) : string :=
  default "" (Model.Inventor.first_name i) +:+ " "
  +:+ default "" (Model.Inventor.last_name i).

(** The row with another patent. *)
Definition with_patent (p : Model.Patent.t) (r : Row) : Row :=
  {| row_patent := p; row_cpc_groups := row_cpc_groups r;
     row_pct_data := row_pct_data r; row_inventors := row_inventors r;
     row_inventors_location := row_inventors_location r;
     row_assignees := row_assignees r;
     row_assignees_location := row_assignees_location r |}.

(** Inventors whose first name starts with [John], on the sample: of the
    two inventors of the first patent the representation names one. *)
Definition first_name_john : dict :=
  <["inventor_first_name" := VList [VStr "John"]]> Sample.blank.

(** ** Notions of the statistics *)

(** The planner's estimate of the rows of a table: [reltuples] of the row
    of [pg_class] with the name of the table, when there is one relation of
    that name (the catalogue has a row per relation and schema, and the
    query of [approximate_count] names no schema and no order). *)
Definition statistics_of (db : Database) (table : string) : option number :=
  match List.filter (fun r => String.eqb r.1 table) (pg_class db) with
  | [r] => Some r.2
  | _ => None
  end.

(** ** Notions of the aggregates *)

Section Collected.
Context `{Datastore}.




End Collected.

(** ** Notions of the patterns *)

(** A character that a regular expression reads as itself: printable ASCII,
    and none of the metacharacters. *)
Definition plain_char (c : ascii) : bool :=
  let n := nat_of_ascii c in
  (32 <=? n)%nat && (n <=? 126)%nat
  && negb (existsb (Ascii.eqb c) (list_ascii_of_string "\^$.|[]()*+?{}")).

(** A text of such characters. *)
Fixpoint plain (s : string) : bool :=
  match s with
  | EmptyString => true
  | String c s' => plain_char c && plain s'
  end.



Section Patterns.
Context `{Datastore}.


End Patterns.

(** ** Notions of the admissible bundles *)

(** A number of the 32-bit integer columns. *)
Definition int4 (n : Z) : bool := (-2147483648 <=? n)%Z && (n <=? 2147483647)%Z.

(** An [int], a date or a [float] between the bounds; what else a value
    may be is for its shape to say. *)
Definition in_range (lo hi : Z) (v : value) : bool :=
  match v with
  | VInt n | VDate n => (lo <=? n)%Z && (n <=? hi)%Z
  | VFloat q =>
      QArith_base.Qle_bool (number_of_Z lo) q && QArith_base.Qle_bool q (number_of_Z hi)
  | _ => true
  end.

(** The bounds of a range lie between the bounds. *)
Definition bounds_in_range (lo hi : Z) (v : value) : bool :=
  match subscript v "min", subscript v "max" with
  | Return a, Return b => in_range lo hi a && in_range lo hi b
  | _, _ => true
  end.

(** A longitude and a latitude in degrees and a radius that is not
    negative, each a number that is a double as it is. *)
Definition on_the_globe (v : value) : bool :=
  match subscript v "lng", subscript v "lat", subscript v "radius" with
  | Return lng, Return lat, Return radius =>
      in_range (-180) 180 lng && in_range (-90) 90 lat
      && in_range 0 9007199254740992 radius
  | _, _, _ => true
  end.

(** A text without the character NUL, which the datastore does not store. *)
Definition nul_free (s : string) : bool :=
  negb (existsb (Ascii.eqb "000") (list_ascii_of_string s)).

(** The text, or every text of the list, is of the kind. *)
Definition texts (ok : string -> bool) (v : value) : bool :=
  match v with
  | VStr s => ok s
  | VList items =>
      forallb (fun item => match item with VStr s => ok s | _ => true end) items
  | _ => true
  end.

(** The value of the key, where there is one, is of the kind. *)
Definition where_present (ok : value -> bool) (d : dict) (key : string) : bool :=
  match d !! key with
  | Some v => ok v
  | None => true
  end.

(** A well-formed bundle whose values the libraries and the datastore take
    as the model reads them: the texts that are compared hold no NUL, the
    texts that are pasted into a pattern are plain (so that the pattern is
    a valid one), dates are dates of the calendar, counts are 32-bit
    integers, and locations are on the globe. *)
Definition admissible (d : dict) : bool :=
  well_formed d
  && forallb (where_present (texts nul_free) d)
       [ "patent_office"; "patent_type"; "cpc_group"; "inventor_last_name";
         "assignee_last_name"; "assignee_organization" ]
  && forallb (where_present (texts plain) d)
       [ "cpc_section"; "cpc_class"; "cpc_subclass"; "inventor_first_name";
         "assignee_first_name" ]
  && forallb (where_present (bounds_in_range 1 3652059) d)
       [ "patent_application_filed_date"; "patent_granted_date"; "pct_application_date" ]
  && forallb (where_present (bounds_in_range (-2147483648) 2147483647) d)
       [ "patent_figures_count"; "patent_claims_count"; "patent_sheets_count" ]
  && forallb (where_present on_the_globe d) ["inventor_location"; "assignee_location"].

(** * Properties *)

(** ** Running a computation over the bundle *)

Lemma bind_ret {A B} (a : A) (k : A -> py B) (d : dict) : bind (ret a) k d = k a d.
Proof. reflexivity. Qed.

Lemma falsy_at_lookup (d : dict) (key : string) :
  falsy_at d key = true -> exists v, d !! key = Some v /\ truthy v = false.
Proof.
  unfold falsy_at. destruct (d !! key) as [v|]; [|done].
  intros Hv. exists v. split; [done|]. by destruct (truthy v).
Qed.

Lemma none_at_lookup (d : dict) (key : string) :
  none_at d key = true -> d !! key = Some VNone.
Proof. unfold none_at. by destruct (d !! key) as [[]|]. Qed.

Lemma string_at_lookup (d : dict) (key : string) :
  string_at d key = true -> exists s, d !! key = Some (VStr s).
Proof. unfold string_at. destruct (d !! key) as [[]|]; try done. eauto. Qed.

Lemma empty_iterable_at_lookup (d : dict) (key : string) :
  empty_iterable_at d key = true ->
  exists v, d !! key = Some v /\ truthy v = false /\ py_iter v = Return [].
Proof.
  unfold empty_iterable_at.
  destruct (d !! key) as [[| | | |[]| |[]|[]]|]; try done; eauto.
Qed.

Lemma no_range_at_lookup (d : dict) (key : string) :
  no_range_at d key = true -> exists v, d !! key = Some v /\ unset_range v = true.
Proof. unfold no_range_at. destruct (d !! key); [eauto|done]. Qed.

Lemma range_query_unset (field : list string) (v : value) :
  unset_range v = true -> Patent.range_query field v = Return QEmpty.
Proof.
  unfold unset_range, Patent.range_query. destruct (truthy v); [|done]. simpl.
  destruct (subscript v "min") as [lo|]; [|done].
  destruct (subscript v "max") as [hi|]; [|done]. simpl.
  by destruct (truthy lo), (truthy hi).
Qed.

(** ** A bundle that selects nothing compiles to the empty condition *)

(** Splits a conjunction of checks on the bundle into the lookups it
    asserts. *)
Ltac lookups H :=
  repeat match type of H with
         | (_ && _ = true) =>
             let H' := fresh "H" in
             apply andb_prop in H; destruct H as [H H']
         end;
  repeat match goal with
         | H : falsy_at _ _ = true |- _ =>
             apply falsy_at_lookup in H; destruct H as (? & H & ?)
         | H : none_at _ _ = true |- _ => apply none_at_lookup in H
         | H : string_at _ _ = true |- _ =>
             apply string_at_lookup in H; destruct H as (? & H)
         | H : empty_iterable_at _ _ = true |- _ =>
             apply empty_iterable_at_lookup in H; destruct H as (? & H & ? & ?)
         | H : no_range_at _ _ = true |- _ =>
             apply no_range_at_lookup in H; destruct H as (? & H & ?)
         end.

Lemma str_join_nothing (sep : string) (v : value) :
  py_iter v = Return [] -> str_join sep v = Return EmptyString.
Proof. unfold str_join. by intros ->. Qed.

(** Runs a computation as far as the lookups and tests in the context
    decide it. *)
Ltac run :=
  repeat (cbn -[String.append String.concat];
          match goal with
          | |- context [<[?k := _]> _ !! ?k] => rewrite lookup_insert_eq
          | |- context [<[_ := _]> _ !! _] => rewrite lookup_insert_ne by done
          | H : ?d !! ?k = _ |- context [?d !! ?k] => rewrite H
          | H : truthy ?v = _ |- context [truthy ?v] => rewrite H
          | H : unset_range ?v = true |- context [Patent.range_query ?f ?v] =>
              rewrite (range_query_unset f v H)
          | H : py_iter ?v = Return [] |- context [str_join ?sep ?v] =>
              rewrite (str_join_nothing sep v H)
          | H : py_iter ?v = _ |- context [py_iter ?v] => rewrite H
          end).

Ltac unfold_py := unfold bind, getitem, setitem, lift, ret.

Lemma patent_query_unconstrained (d : dict) :
  patent_unconstrained d = true -> Patent.patent_query d = (d, Return QEmpty).
Proof.
  unfold patent_unconstrained. intros Hd. lookups Hd.
  unfold Patent.patent_query, Patent.exact_query. unfold_py. by run.
Qed.

(** The six pairs of levels of the loops of [deduplicate], in their
    order. *)
Lemma deduplicate_unroll :
  Patent.deduplicate
  = ((Patent.prune_below "cpc_section" "cpc_class" ;;;
      Patent.prune_below "cpc_section" "cpc_subclass" ;;;
      Patent.prune_below "cpc_section" "cpc_group" ;;; ret tt) ;;;
     (Patent.prune_below "cpc_class" "cpc_subclass" ;;;
      Patent.prune_below "cpc_class" "cpc_group" ;;; ret tt) ;;;
     (Patent.prune_below "cpc_subclass" "cpc_group" ;;; ret tt) ;;;
     ret tt ;;; ret tt).
Proof. reflexivity. Qed.

Lemma deduplicate_unconstrained (d : dict) :
  cpc_unconstrained d = true -> Patent.deduplicate d = (d, Return tt).
Proof.
  unfold cpc_unconstrained. intros Hd. lookups Hd.
  rewrite deduplicate_unroll. unfold Patent.prune_below. unfold_py. by run.
Qed.

Lemma cpc_query_unconstrained (d : dict) :
  cpc_unconstrained d = true -> Patent.cpc_query d = (d, Return QEmpty).
Proof.
  unfold cpc_unconstrained. intros Hd. lookups Hd.
  unfold Patent.cpc_query. unfold_py. by run.
Qed.

Lemma pct_query_unconstrained (d : dict) :
  pct_unconstrained d = true -> Patent.pct_query d = (d, Return QEmpty).
Proof.
  unfold pct_unconstrained. intros Hd. lookups Hd.
  unfold Patent.pct_query. unfold_py. by run.
Qed.

Lemma inventor_query_unconstrained (d : dict) :
  inventor_unconstrained d = true -> Patent.inventor_query d = (d, Return QEmpty).
Proof.
  unfold inventor_unconstrained. intros Hd. lookups Hd.
  unfold Patent.inventor_query. unfold_py. by run.
Qed.

Lemma assignee_query_unconstrained (d : dict) :
  assignee_unconstrained d = true -> Patent.assignee_query d = (d, Return QEmpty).
Proof.
  unfold assignee_unconstrained. intros Hd. lookups Hd.
  unfold Patent.assignee_query. unfold_py. by run.
Qed.

Lemma compile_unconstrained (d : dict) :
  unconstrained d = true -> Patent.compile d = (d, Return QEmpty).
Proof.
  unfold unconstrained. intros Hd.
  apply andb_prop in Hd as [Hd Hassignee]. apply andb_prop in Hd as [Hd Hinventor].
  apply andb_prop in Hd as [Hd Hpct]. apply andb_prop in Hd as [Hpatent Hcpc].
  unfold Patent.compile, bind.
  rewrite (patent_query_unconstrained d) by done.
  rewrite (deduplicate_unconstrained d) by done.
  rewrite (cpc_query_unconstrained d) by done.
  rewrite (pct_query_unconstrained d) by done.
  rewrite (inventor_query_unconstrained d) by done.
  by rewrite (assignee_query_unconstrained d) by done.
Qed.

(** ** Rows of a query without a condition *)

Section Unfiltered.
Context `{Datastore}.

Lemma select_unjoined (db : Database) (q : Q) :
  (forall rel, joins q rel = false) ->
  row_patent <$> select db q (joins q)
  = List.filter
      (fun p =>
         eval q
           {| row_patent := p; row_cpc_groups := None; row_pct_data := None;
              row_inventors := None; row_inventors_location := None;
              row_assignees := None; row_assignees_location := None |})
      (patents db).
Proof.
  intros Hq. unfold select.
  induction (patents db) as [|p ps IH]; [done|].
  cbn [flat_map List.filter]. rewrite fmap_app, IH.
  unfold joined_rows, side. rewrite !Hq. cbn.
  by destruct (eval q _).
Qed.

Lemma execute_everything (db : Database) :
  execute db {| query_where := QEmpty |} = patents db.
Proof.
  unfold execute. cbn [query_where]. rewrite select_unjoined by done.
  cbn. induction (patents db) as [|p ps IH]; [done|]. cbn. by rewrite IH.
Qed.

End Unfiltered.

(** ** The keyword condition *)

(** C1: the code departs from the specification.  For the criteria of the
    specification's example, [filter] builds the single pattern
    [(golf|tennis)] and matches it against [title] or [abstract]; [Patent]
    declares [abstract_processed] and no [abstract], so
    [Patent.objects.filter] raises [FieldError] where the specification has
    the processed abstract matched. *)
Theorem keywords_name_a_missing_column :
  (Patent.compile Sample.golf_or_tennis).2
  = Return
      (QAnd
         (QAnd (QLeaf ["office"] Exact (Lit (VStr "USPTO")))
            (QOr (QLeaf ["title"] IRegex (Lit (VStr "(golf|tennis)")))
               (QLeaf ["abstract"] IRegex (Lit (VStr "(golf|tennis)")))))
         (QLeaf ["cpc_groups"; "cpc_group"; "group"] IRegex (Lit (VStr "^(A)"))))
  /\ check (QLeaf ["abstract"] IRegex (Lit (VStr "(golf|tennis)")))
     = Raise (FieldError "abstract")
  /\ check (QLeaf ["abstract_processed"] IRegex (Lit (VStr "(golf|tennis)")))
     = Return tt
  /\ (Patent.filter Sample.golf_or_tennis).2 = Raise (FieldError "abstract").
Proof. repeat split; reflexivity. Qed.

(** ** Ranges *)

Lemma range_query_min_only (field : list string) (lo : value) :
  truthy lo = true ->
  Patent.range_query field (VDict [("min", lo); ("max", VNone)])
  = Return (QLeaf field Gte (Lit lo)).
Proof. intros Hlo. unfold Patent.range_query. cbn. by rewrite Hlo. Qed.

Lemma range_query_max_only (field : list string) (hi : value) :
  truthy hi = true ->
  Patent.range_query field (VDict [("min", VNone); ("max", hi)])
  = Return (QLeaf field Lte (Lit hi)).
Proof. intros Hhi. unfold Patent.range_query. cbn. by rewrite Hhi. Qed.

Lemma range_query_both (field : list string) (lo hi : value) :
  truthy lo = true -> truthy hi = true ->
  Patent.range_query field (VDict [("min", lo); ("max", hi)])
  = Return (QAnd (QLeaf field Gte (Lit lo)) (QLeaf field Lte (Lit hi))).
Proof. intros Hlo Hhi. unfold Patent.range_query. cbn. by rewrite Hlo, Hhi. Qed.

Section Ranges.
Context `{Datastore}.

(** Integer bounds with the minimum above the maximum hold of no column. *)
Lemma crossed_bounds_hold_of_nothing (c : cell) (lo hi : Z) :
  (hi < lo)%Z ->
  holds Gte c (Lit (VInt lo)) && holds Lte c (Lit (VInt hi)) = false.
Proof.
  intros Hlt. destruct c as [| | n | [num den] | | |]; try done; cbn.
  - destruct (Z.compare_spec n lo), (Z.compare_spec n hi); try done; lia.
  - unfold QArith_base.Qcompare. cbn.
    destruct (Z.compare_spec (num * 1) (lo * Z.pos den)),
      (Z.compare_spec (num * 1) (hi * Z.pos den)); try done; nia.
Qed.

End Ranges.

(** C6: the code departs from the specification.  [range_query] tests its bounds
    for truth, and zero is false: a maximum of zero adds no condition, so
    asking for at most zero figures returns every patent, the one with
    five figures included. *)
Theorem zero_maximum_is_dropped :
  Patent.range_query ["figures_count"] (VDict [("min", VNone); ("max", VInt 0)])
  = Return QEmpty
  /\ Patent.range_query ["figures_count"] (VDict [("min", VNone); ("max", VInt 3)])
     = Return (QLeaf ["figures_count"] Lte (Lit (VInt 3)))
  /\ Model.Patent.figures_count Sample.golf_glove = Some 5%Z
  /\ run_filter (H := Sample.store) Sample.db Sample.no_figures
     = Return [Sample.golf_glove; Sample.filter_press].
Proof. repeat split; reflexivity. Qed.

(** ** The approximate count *)

(** The call returns the estimate of the patents' table, as an integer. *)
Lemma approximate_count_estimate (db : Database) (reltuples : number) :
  statistics_of db Patent.db_table = Some reltuples ->
  Patent.approximate_count db = Return (number_trunc reltuples).
Proof.
  unfold statistics_of, Patent.approximate_count.
  destruct (List.filter _ (pg_class db)) as [|r [|r' rows]]; [done| |done].
  cbn. by intros [= ->].
Qed.

(** C9: [approximate_count] takes no criteria and reads nothing but the
    planner's statistics of the patents' table.  Whenever the catalogue has
    the estimate of that table (it has one for every table there is, and
    one relation of the name), the call returns an integer, the estimate
    truncated toward zero; so two
    snapshots with the same estimate for the table, and one snapshot read
    twice, return the same integer, whatever the tables hold and whatever
    the statistics of the other tables are. *)
Theorem approximate_count_statistics_only (db1 db2 : Database) (reltuples : number) :
  statistics_of db1 Patent.db_table = Some reltuples ->
  statistics_of db2 Patent.db_table = Some reltuples ->
  Patent.approximate_count db1 = Return (number_trunc reltuples)
  /\ Patent.approximate_count db2 = Return (number_trunc reltuples).
Proof. intros Hdb1 Hdb2. split; by apply approximate_count_estimate. Qed.

(** The sample snapshot, and the same estimate over empty tables: 1200 both
    times, with two patents and with none. *)
Lemma approximate_count_statistics_only_witness :
  (statistics_of Sample.db Patent.db_table = Some (number_of_Z 1200)
   /\ statistics_of Sample.emptied Patent.db_table = Some (number_of_Z 1200))
  /\ Patent.approximate_count Sample.db = Return 1200%Z
  /\ Patent.approximate_count Sample.emptied = Return 1200%Z.
Proof.
  split; [split; reflexivity|].
  exact (approximate_count_statistics_only Sample.db Sample.emptied (number_of_Z 1200)
           eq_refl eq_refl).
Defined.

(** The estimate of the sample snapshot is not the number of its patents. *)
Lemma approximate_count_sample :
  Patent.approximate_count Sample.db = Return 1200%Z
  /\ length (patents Sample.db) = 2.
Proof. split; reflexivity. Qed.

(** ** The hierarchy de-duplicator *)

Lemma prefix_trans (a b c : string) :
  String.prefix a b = true -> String.prefix b c = true -> String.prefix a c = true.
Proof.
  revert b c. induction a as [|x a IH]; intros [|y b] [|z c]; cbn; try done.
  destruct (ascii_dec x y) as [->|]; [|done].
  destruct (ascii_dec y z) as [->|]; [|done].
  apply IH.
Qed.

Lemma not_implied_nil (codes : list string) : not_implied [] codes = codes.
Proof.
  unfold not_implied. induction codes as [|c codes IH]; [done|].
  simpl in *. by rewrite IH.
Qed.

Lemma not_implied_cons (key : string) (keys codes : list string) :
  not_implied keys (List.filter (fun c => negb (String.prefix key c)) codes)
  = not_implied (key :: keys) codes.
Proof.
  unfold not_implied. induction codes as [|c codes IH]; [done|].
  cbn. destruct (String.prefix key c); cbn; [done|].
  rewrite IH. by destruct (existsb _ keys).
Qed.

Lemma not_implied_step (coarser : list string) (code : string) (codes : list string) :
  not_implied coarser (code :: codes)
  = if existsb (fun c => String.prefix c code) coarser
    then not_implied coarser codes
    else code :: not_implied coarser codes.
Proof. unfold not_implied. cbn. by destruct (existsb _ coarser). Qed.

Lemma existsb_prefix_not_implied (coarser finer : list string) (code : string) :
  existsb (fun c => String.prefix c code) coarser = false ->
  existsb (fun c => String.prefix c code) (not_implied coarser finer)
  = existsb (fun c => String.prefix c code) finer.
Proof.
  intros Hcode. induction finer as [|k finer IH]; [done|].
  rewrite not_implied_step.
  destruct (existsb (fun c => String.prefix c k) coarser) eqn:Hk; cbn [existsb].
  - rewrite IH. destruct (String.prefix k code) eqn:Hkc; [|done].
    apply existsb_exists in Hk as (c & Hc & Hck).
    assert (existsb (fun c => String.prefix c code) coarser = true) as Hex.
    { apply existsb_exists. exists c. split; [done|]. by eapply prefix_trans. }
    congruence.
  - by rewrite IH.
Qed.

(** Pruning by the pruned coarser level removes what pruning by the
    selected one removes: a code below a pruned code is below what pruned
    it. *)
Lemma not_implied_app (coarser finer codes : list string) :
  not_implied (not_implied coarser finer) (not_implied coarser codes)
  = not_implied (coarser ++ finer) codes.
Proof.
  induction codes as [|c codes IH]; [done|].
  rewrite !not_implied_step, existsb_app.
  destruct (existsb (fun k => String.prefix k c) coarser) eqn:Hc; cbn [orb].
  - apply IH.
  - rewrite not_implied_step, existsb_prefix_not_implied by done.
    destruct (existsb _ finer); [apply IH|]. by rewrite IH.
Qed.

Lemma without_prefix_strings (key : string) (codes : list string) :
  Patent.without_prefix (VStr key) (VStr <$> codes)
  = Return (VStr <$> List.filter (fun c => negb (String.prefix key c)) codes).
Proof.
  induction codes as [|c codes IH]; [done|].
  cbn. rewrite IH. cbn. by destruct (String.prefix key c).
Qed.

Lemma prune_strings (below key : string) (codes : list string) (d : dict) :
  d !! below = Some (VList (VStr <$> codes)) ->
  Patent.prune below (VStr key) d
  = (<[below := VList (VStr <$> List.filter (fun c => negb (String.prefix key c)) codes)]> d,
     Return tt).
Proof.
  intros Hd. unfold Patent.prune. unfold_py. rewrite Hd. cbn.
  by rewrite without_prefix_strings.
Qed.

Lemma for_each_prune (below : string) (keys codes : list string) (d : dict) :
  d !! below = Some (VList (VStr <$> codes)) ->
  for_each (VStr <$> keys) (Patent.prune below) d
  = (<[below := VList (VStr <$> not_implied keys codes)]> d, Return tt).
Proof.
  revert codes d. induction keys as [|key keys IH]; intros codes d Hd.
  - cbn. rewrite not_implied_nil. by rewrite insert_id.
  - cbn [fmap list_fmap for_each]. unfold bind at 1.
    rewrite (prune_strings below key codes d Hd).
    rewrite (IH (List.filter (fun c => negb (String.prefix key c)) codes))
      by apply lookup_insert_eq.
    by rewrite insert_insert_eq, not_implied_cons.
Qed.

Lemma prune_below_strings (level below : string) (keys codes : list string) (d : dict) :
  d !! level = Some (VList (VStr <$> keys)) ->
  d !! below = Some (VList (VStr <$> codes)) ->
  Patent.prune_below level below d
  = (<[below := VList (VStr <$> not_implied keys codes)]> d, Return tt).
Proof.
  intros Hlevel Hbelow. unfold Patent.prune_below. unfold bind at 1, getitem.
  rewrite Hlevel. unfold bind at 1, lift. cbn [py_iter].
  by apply for_each_prune.
Qed.

Lemma bind_step {A B} (m : py A) (k : A -> py B) (d d' : dict) (a : A) :
  m d = (d', Return a) -> bind m k d = k a d'.
Proof. intros Hm. unfold bind. by rewrite Hm. Qed.

Lemma bind_assoc {A B C} (m : py A) (k : A -> py B) (k' : B -> py C) (d : dict) :
  bind (bind m k) k' d = bind m (fun a => bind (k a) k') d.
Proof. unfold bind. by destruct (m d) as [d' [a|e]]. Qed.

(** C3: [deduplicate] leaves the sections as they are and removes from
    every finer level every code that starts with a code selected at any
    coarser level, the levels in between included; with section [A] and
    group [A63B71/146] the group is removed, and the compiled condition is
    the one on section [A] alone. *)
Theorem deduplicate_prunes_every_finer_level
    (d : dict) (sections classes subclasses groups : list string) :
  Patent.deduplicate (with_selection d sections classes subclasses groups)
  = (with_selection d sections
       (not_implied sections classes)
       (not_implied (sections ++ classes) subclasses)
       (not_implied (sections ++ classes ++ subclasses) groups),
     Return tt)
  /\ (Patent.compile Sample.section_and_group).1 !! "cpc_group" = Some (VList [])
  /\ (Patent.compile Sample.section_and_group).2
     = Return (QLeaf ["cpc_groups"; "cpc_group"; "group"] IRegex (Lit (VStr "^(A)"))).
Proof.
  split; [|split; reflexivity].
  rewrite deduplicate_unroll. unfold with_selection.
  set (C := not_implied sections classes).
  set (S1 := not_implied sections subclasses).
  set (G1 := not_implied sections groups).
  repeat first
    [ rewrite bind_assoc
    | erewrite bind_step;
      [|apply prune_below_strings; simplify_map_eq; reflexivity]
    | rewrite bind_ret
    | progress cbn beta ].
  subst C S1 G1.
  rewrite (not_implied_app sections classes subclasses).
  rewrite (not_implied_app sections classes groups).
  rewrite (not_implied_app (sections ++ classes) subclasses groups).
  rewrite <- app_assoc.
  unfold ret. f_equal. apply map_eq. intros k.
  destruct (decide (k = "cpc_group")) as [->|];
    [by simplify_map_eq|].
  destruct (decide (k = "cpc_subclass")) as [->|];
    [by simplify_map_eq|].
  destruct (decide (k = "cpc_class")) as [->|];
    [by simplify_map_eq|].
  destruct (decide (k = "cpc_section")) as [->|];
    by simplify_map_eq.
Qed.

(** ** What [filter] writes into the caller's bundle *)

Lemma writes_only_ret {A} (keys : list string) (a : A) : writes_only keys (ret a).
Proof. by intros d k _. Qed.

Lemma writes_only_lift {A} (keys : list string) (r : result A) :
  writes_only keys (lift r).
Proof. by intros d k _. Qed.

Lemma writes_only_getitem (keys : list string) (key : string) :
  writes_only keys (getitem key).
Proof. intros d k _. unfold getitem. by destruct (d !! key). Qed.

Lemma writes_only_setitem (keys : list string) (key : string) (v : value) :
  existsb (String.eqb key) keys = true -> writes_only keys (setitem key v).
Proof.
  intros Hkey d k Hk. unfold setitem. cbn.
  apply lookup_insert_ne. intros ->. congruence.
Qed.

Lemma writes_only_bind {A B} (keys : list string) (m : py A) (f : A -> py B) :
  writes_only keys m -> (forall a, writes_only keys (f a)) -> writes_only keys (bind m f).
Proof.
  intros Hm Hf d k Hk. unfold bind. specialize (Hm d k Hk).
  destruct (m d) as [d' [a|e]]; cbn in *; [|done].
  by rewrite (Hf a d' k Hk).
Qed.

Lemma writes_only_for_each {A} (keys : list string) (xs : list A) (body : A -> py unit) :
  (forall x, writes_only keys (body x)) -> writes_only keys (for_each xs body).
Proof.
  intros Hbody. induction xs as [|x xs IH]; cbn [for_each].
  - apply writes_only_ret.
  - apply writes_only_bind; [apply Hbody | by intros _].
Qed.

(** Proves [writes_only] of a computation by its structure. *)
Ltac frame :=
  repeat first
    [ apply writes_only_ret
    | apply writes_only_lift
    | apply writes_only_getitem
    | apply writes_only_setitem; reflexivity
    | apply writes_only_for_each; intros ?
    | apply writes_only_bind; [|intros ?]
    | match goal with
      | |- writes_only _ (if ?b then _ else _) => destruct b
      end
    | progress cbn beta zeta ].

Lemma patent_query_writes_nothing (keys : list string) :
  writes_only keys Patent.patent_query.
Proof. unfold Patent.patent_query. frame. Qed.

Lemma deduplicate_writes (keys : list string) :
  existsb (String.eqb "cpc_class") keys = true ->
  existsb (String.eqb "cpc_subclass") keys = true ->
  existsb (String.eqb "cpc_group") keys = true ->
  writes_only keys Patent.deduplicate.
Proof.
  intros Hc Hs Hg. rewrite deduplicate_unroll.
  unfold Patent.prune_below, Patent.prune.
  repeat first
    [ apply writes_only_setitem; assumption
    | apply writes_only_ret
    | apply writes_only_lift
    | apply writes_only_getitem
    | apply writes_only_for_each; intros ?
    | apply writes_only_bind; [|intros ?] ].
Qed.

Lemma cpc_query_writes_nothing (keys : list string) : writes_only keys Patent.cpc_query.
Proof. unfold Patent.cpc_query. frame. Qed.

Lemma pct_query_writes_nothing (keys : list string) : writes_only keys Patent.pct_query.
Proof. unfold Patent.pct_query. frame. Qed.

Lemma inventor_query_writes_nothing (keys : list string) :
  writes_only keys Patent.inventor_query.
Proof. unfold Patent.inventor_query. frame. Qed.

Lemma assignee_query_writes_nothing (keys : list string) :
  writes_only keys Patent.assignee_query.
Proof. unfold Patent.assignee_query. frame. Qed.

Lemma compile_writes : writes_only ["cpc_class"; "cpc_subclass"; "cpc_group"] Patent.compile.
Proof.
  unfold Patent.compile.
  apply writes_only_bind; [apply patent_query_writes_nothing|intros ?].
  apply writes_only_bind; [by apply deduplicate_writes|intros ?].
  apply writes_only_bind; [apply cpc_query_writes_nothing|intros ?].
  apply writes_only_bind; [apply pct_query_writes_nothing|intros ?].
  apply writes_only_bind; [apply inventor_query_writes_nothing|intros ?].
  apply writes_only_bind; [apply assignee_query_writes_nothing|intros ?].
  apply writes_only_ret.
Qed.

(** C5, as the code has it: [filter] writes the entries [cpc_class],
    [cpc_subclass] and [cpc_group] of the caller's bundle and no other:
    every other key has the value it had, whether the call returns or
    raises.  (The three entries are replaced by their de-duplicated
    lists.) *)
Theorem filter_writes_only_the_finer_levels (d : dict) (k : string) :
  existsb (String.eqb k) ["cpc_class"; "cpc_subclass"; "cpc_group"] = false ->
  (Patent.filter d).1 !! k = d !! k.
Proof.
  revert d k. change (writes_only ["cpc_class"; "cpc_subclass"; "cpc_group"] Patent.filter).
  unfold Patent.filter.
  apply writes_only_bind; [apply compile_writes|intros ?]. apply writes_only_lift.
Qed.

(** The section selection of the sample bundle stays. *)
Lemma filter_writes_only_the_finer_levels_witness :
  existsb (String.eqb "cpc_section") ["cpc_class"; "cpc_subclass"; "cpc_group"] = false
  /\ (Patent.filter Sample.section_and_group).1 !! "cpc_section"
     = Sample.section_and_group !! "cpc_section".
Proof.
  split; [reflexivity|].
  apply (filter_writes_only_the_finer_levels Sample.section_and_group "cpc_section").
  reflexivity.
Defined.

(** C5, as stated, fails: the call replaces the group selection of the
    bundle it was given. *)
Lemma filter_rewrites_the_bundle :
  Sample.section_and_group !! "cpc_group" = Some (VList [VStr "A63B71/146"])
  /\ (Patent.filter Sample.section_and_group).1 !! "cpc_group" = Some (VList []).
Proof. split; reflexivity. Qed.

(** ** Relations multiply rows *)

(** Carries a check of the bundle across the assignment of another key. *)
Ltac other_key :=
  match goal with
  | H : ?check ?d = true |- ?check (<[_ := _]> ?d) = true =>
      revert H;
      unfold check, falsy_at, none_at, string_at, empty_iterable_at, no_range_at;
      rewrite !lookup_insert_ne by done;
      exact (fun H => H)
  end.

Lemma objects_filter_checked (q : Q) :
  check q = Return tt -> objects_filter q = Return {| query_where := q |}.
Proof. unfold objects_filter. by intros ->. Qed.

Section Relations.
Context `{Datastore}.

Lemma inventor_query_around (d : dict) (lng lat radius_m : number) :
  inventor_unconstrained d = true ->
  Patent.inventor_query (around d lng lat radius_m)
  = (around d lng lat radius_m,
     Return (QLeaf ["inventors"; "location"; "point"] DistanceLte
               (Geo {| x := lng; y := lat |} radius_m))).
Proof.
  unfold inventor_unconstrained, around. intros Hd. lookups Hd.
  unfold Patent.inventor_query. unfold_py. by run.
Qed.

Lemma compile_around (d : dict) (lng lat radius_m : number) :
  unconstrained d = true ->
  Patent.compile (around d lng lat radius_m)
  = (around d lng lat radius_m,
     Return (QLeaf ["inventors"; "location"; "point"] DistanceLte
               (Geo {| x := lng; y := lat |} radius_m))).
Proof.
  unfold unconstrained. intros Hd.
  apply andb_prop in Hd as [Hd Hassignee]. apply andb_prop in Hd as [Hd Hinventor].
  apply andb_prop in Hd as [Hd Hpct]. apply andb_prop in Hd as [Hpatent Hcpc].
  unfold Patent.compile, bind.
  set (d' := around d lng lat radius_m).
  rewrite (patent_query_unconstrained d') by (subst d'; unfold around; other_key).
  rewrite (deduplicate_unconstrained d') by (subst d'; unfold around; other_key).
  rewrite (cpc_query_unconstrained d') by (subst d'; unfold around; other_key).
  rewrite (pct_query_unconstrained d') by (subst d'; unfold around; other_key).
  subst d'. rewrite (inventor_query_around d) by done.
  by rewrite (assignee_query_unconstrained (around d lng lat radius_m))
    by (unfold around; other_key).
Qed.

Lemma filter_rows_of_inventors (db : Database) (q : Q) (p : Model.Patent.t)
    (l : list Model.Inventor.t) :
  row_patent
  <$> List.filter (eval q) (flat_map (fun i => [inventor_row db p i]) (Some <$> l))
  = repeat p (length (List.filter (fun i => eval q (inventor_row db p (Some i))) l)).
Proof.
  induction l as [|i l IH]; [done|].
  cbn [fmap list_fmap flat_map app List.filter].
  destruct (eval q (inventor_row db p (Some i))); cbn; by rewrite <- IH.
Qed.

(** A condition on the inventors alone selects a patent once for each of
    its inventors that satisfies it. *)
Lemma execute_over_inventors (db : Database) (q : Q) :
  joins q Rel_cpc_groups = false -> joins q Rel_pct_data = false ->
  joins q Rel_inventors = true -> joins q Rel_assignees = false ->
  (forall p, eval q (inventor_row db p None) = false) ->
  execute db {| query_where := q |}
  = flat_map
      (fun p =>
         repeat p
           (length
              (List.filter (fun i => eval q (inventor_row db p (Some i)))
                 (inventors_of db p))))
      (patents db).
Proof.
  intros Hg Hd Hi Ha Hnull. unfold execute, select. cbn [query_where].
  induction (patents db) as [|p ps IH]; [done|].
  cbn [flat_map]. rewrite fmap_app, IH. f_equal.
  unfold joined_rows, side. rewrite Hg, Hd, Hi, Ha.
  cbn [flat_map app]. rewrite !app_nil_r.
  destruct (inventors_of db p) as [|i l] eqn:Hl.
  - cbn [flat_map app List.filter]. fold (inventor_row db p None).
    by rewrite Hnull.
  - by rewrite <- (filter_rows_of_inventors db q p (i :: l)).
Qed.

Lemma eval_distance (db : Database) (center : Point) (radius_m : number)
    (p : Model.Patent.t) (i : Model.Inventor.t) :
  eval (QLeaf ["inventors"; "location"; "point"] DistanceLte (Geo center radius_m))
    (inventor_row db p (Some i))
  = inventor_within db center radius_m i.
Proof.
  unfold inventor_within. cbn. unfold through, inventor_row. cbn.
  destruct (location_of db (Model.Inventor.location i)) as [l|]; [|done].
  cbn. by destruct (Model.Location.point l).
Qed.

(** C4, as the code has it: [filter] joins the inventors and selects one
    row per inventor that satisfies the condition, without de-duplication:
    with only an inventor-location radius, a patent is in the result set
    once for each of its inventors whose location lies within the radius. *)
Theorem filter_repeats_a_patent_per_inventor
    (db : Database) (d : dict) (lng lat radius_m : number) :
  unconstrained d = true ->
  run_filter db (around d lng lat radius_m)
  = Return
      (flat_map
         (fun p =>
            repeat p
              (length
                 (List.filter
                    (inventor_within db {| x := lng; y := lat |} radius_m)
                    (inventors_of db p))))
         (patents db)).
Proof.
  intros Hd. unfold run_filter, Patent.filter, bind.
  rewrite compile_around by done. unfold lift. cbn [snd].
  rewrite objects_filter_checked by reflexivity. cbn [rbind].
  rewrite execute_over_inventors by done.
  f_equal. apply flat_map_ext. intros p. do 2 f_equal.
  apply List.filter_ext. intros i. apply eval_distance.
Qed.

End Relations.

(** Inventors within five metres of the first location of the sample. *)
Lemma filter_repeats_a_patent_per_inventor_witness :
  unconstrained Sample.blank = true
  /\ run_filter (H := Sample.store) Sample.db
       (around Sample.blank (number_of_Z 23) (number_of_Z 37) (number_of_Z 5))
     = Return
         (flat_map
            (fun p =>
               repeat p
                 (length
                    (List.filter
                       (inventor_within (H := Sample.store) Sample.db
                          {| x := number_of_Z 23; y := number_of_Z 37 |} (number_of_Z 5))
                       (inventors_of Sample.db p))))
            (patents Sample.db)).
Proof.
  split; [reflexivity|].
  apply (filter_repeats_a_patent_per_inventor (H := Sample.store) Sample.db Sample.blank).
  reflexivity.
Defined.

(** C4, as stated, fails: the patent whose two inventors both lie within
    the radius is in the result set twice. *)
Lemma filter_returns_a_patent_twice :
  length (inventors_of Sample.db Sample.golf_glove) = 2
  /\ run_filter (H := Sample.store) Sample.db
       (around Sample.blank (number_of_Z 23) (number_of_Z 37) (number_of_Z 5))
     = Return [Sample.golf_glove; Sample.golf_glove].
Proof. split; reflexivity. Qed.


(** ** First names *)

Lemma all_str_strings (l : list string) : all_str (VStr <$> l) = Return l.
Proof. induction l as [|s l IH]; [done|]. cbn. by rewrite IH. Qed.






Lemma Permutation_eq_refl {A} (l l' : list A) : l = l' -> l ≡ₚ l'.
Proof. by intros ->. Qed.











Section FirstNames.
Context `{Datastore}.







End FirstNames.



(** On the sample snapshot the names [Jo] and [Ma] select the patent of the
    inventor JoMary and neither that of John nor that of Mary; either name
    alone selects its own. *)
Lemma first_names_sample :
  run_filter (H := Sample.store) Sample.db
    (<["inventor_first_name" := VList [VStr "Jo"; VStr "Ma"]]> Sample.blank)
  = Return [Sample.golf_glove]
  /\ run_filter (H := Sample.store) Sample.db
       (<["inventor_first_name" := VList [VStr "Ma"]]> Sample.blank)
     = Return [Sample.filter_press]
  /\ run_filter (H := Sample.store) Sample.db
       (<["inventor_first_name" := VList [VStr "Jo"]]> Sample.blank)
     = Return [Sample.golf_glove; Sample.golf_glove].
Proof. repeat split; reflexivity. Qed.

(** ** The aggregated representation *)

Lemma insert_key_elem (k k' : Z) (ks : list Z) :
  k' ∈ insert_key k ks <-> k' = k \/ k' ∈ ks.
Proof.
  induction ks as [|j ks IH]; cbn.
  - rewrite list_elem_of_singleton, elem_of_nil. tauto.
  - destruct (Z.ltb_spec k j); [by rewrite elem_of_cons|].
    destruct (Z.eqb_spec k j) as [->|].
    + rewrite elem_of_cons. tauto.
    + rewrite !elem_of_cons, IH. tauto.
Qed.

Lemma insert_key_sorted (k : Z) (ks : list Z) :
  StronglySorted Z.lt ks -> StronglySorted Z.lt (insert_key k ks).
Proof.
  induction ks as [|j ks IH]; intros Hks; cbn.
  - by repeat constructor.
  - apply StronglySorted_cons in Hks as [Hj Hks].
    destruct (Z.ltb_spec k j) as [Hlt|Hge].
    + apply StronglySorted_cons. split; [|by apply StronglySorted_cons].
      constructor; [done|]. eapply Forall_impl; [exact Hj|]. intros. cbn in *. lia.
    + destruct (Z.eqb_spec k j) as [->|Hne]; [by apply StronglySorted_cons|].
      apply StronglySorted_cons. split; [|by apply IH].
      apply Forall_forall. intros k' Hk'. apply insert_key_elem in Hk' as [->|Hk'].
      * lia.
      * by eapply Forall_forall in Hj.
Qed.

Lemma group_keys_sorted (ks : list Z) : StronglySorted Z.lt (group_keys ks).
Proof.
  unfold group_keys. induction ks as [|k ks IH]; cbn; [constructor|].
  by apply insert_key_sorted.
Qed.

Lemma remove_dups_nil {A} `{EqDecision A} (l : list A) : remove_dups l = [] -> l = [].
Proof.
  destruct l as [|x l]; [done|]. intros Hnone.
  assert (x ∈ remove_dups (x :: l)) as Hx by (apply elem_of_remove_dups; by left).
  rewrite Hnone in Hx. by apply elem_of_nil in Hx.
Qed.

Section Aggregates.
Context `{Datastore}.

Lemma string_agg_entries (values : list (option string)) (s : string) :
  s ∈ remove_dups (omap id values) <-> Some s ∈ values.
Proof.
  rewrite elem_of_remove_dups, list_elem_of_omap. split.
  - intros (o & Ho & Hs). cbn in Hs. by subst.
  - intros Hs. by exists (Some s).
Qed.

(** With a value that is not NULL, the aggregate is the joined string of
    the distinct values. *)
Lemma string_agg_distinct (agg_delimiter : string) (values : list (option string)) :
  omap id values <> [] ->
  distinct_entries agg_delimiter values (string_agg true agg_delimiter values).
Proof.
  intros Hsome. exists (remove_dups (omap id values)).
  split; [apply NoDup_remove_dups|]. split; [apply string_agg_entries|].
  unfold string_agg, joined.
  destruct (remove_dups (omap id values)) as [|e entries] eqn:Hentries; [|done].
  by apply remove_dups_nil in Hentries.
Qed.



Lemma rows_of_id (k : Z) (rows : list Row) (r : Row) :
  List.In r (rows_of k rows) -> Model.Patent.id (row_patent r) = k.
Proof. unfold rows_of. rewrite filter_In. intros [_ Hr]. lia. Qed.

(** An output row carries the aggregates of the rows of its patent. *)
Lemma execute_annotated_elem (db : Database) (a : AnnotatedQuerySet) (o : AnnotatedPatent) :
  List.In o (execute_annotated db a) ->
  annotation o
  = aggregate a
      (rows_of (Model.Patent.id (instance o))
         (select db (query_where (patents_annotated a)) (annotated_joins a))).
Proof.
  unfold execute_annotated.
  set (rows := select db _ _). generalize (if String.eqb (order_by a) "id"
    then group_keys (Model.Patent.id <$> (row_patent <$> rows))
    else remove_dups (Model.Patent.id <$> (row_patent <$> rows))).
  intros keys Ho. apply in_flat_map in Ho as (k & _ & Ho).
  destruct (rows_of k rows) as [|r group] eqn:Hgroup; [done|].
  destruct Ho as [<-|[]]. cbn [instance annotation].
  rewrite (rows_of_id k rows r); [by rewrite Hgroup|].
  rewrite Hgroup. by left.
Qed.




End Aggregates.

(** ** Keys a fragment does not read *)

Lemma ignores_ret {A} (key : string) (a : A) : ignores key (ret a).
Proof. by intros d v. Qed.

Lemma ignores_lift {A} (key : string) (r : result A) : ignores key (lift r).
Proof. by intros d v. Qed.

Lemma ignores_getitem (key key' : string) : key <> key' -> ignores key (getitem key').
Proof.
  intros Hne d v. unfold getitem. rewrite lookup_insert_ne by done.
  by destruct (d !! key').
Qed.

Lemma ignores_setitem (key key' : string) (x : value) :
  key <> key' -> ignores key (setitem key' x).
Proof. intros Hne d v. unfold setitem. cbn. by rewrite insert_insert_ne. Qed.

Lemma ignores_bind {A B} (key : string) (m : py A) (f : A -> py B) :
  ignores key m -> (forall a, ignores key (f a)) -> ignores key (bind m f).
Proof.
  intros Hm Hf d v. unfold bind. rewrite Hm.
  destruct (m d) as [d' [a|e]]; cbn; [|done]. apply Hf.
Qed.

Lemma ignores_for_each {A} (key : string) (xs : list A) (body : A -> py unit) :
  (forall x, ignores key (body x)) -> ignores key (for_each xs body).
Proof.
  intros Hbody. induction xs as [|x xs IH]; cbn [for_each].
  - apply ignores_ret.
  - apply ignores_bind; [apply Hbody | by intros _].
Qed.

Lemma deduplicate_ignores (key : string) :
  existsb (String.eqb key) Patent.hierarchies = false -> ignores key Patent.deduplicate.
Proof.
  intros Hkey. rewrite deduplicate_unroll. unfold Patent.prune_below, Patent.prune.
  assert (forall k, existsb (String.eqb k) Patent.hierarchies = true -> key <> k) as Hne.
  { intros k Hk ->. congruence. }
  repeat first
    [ apply ignores_ret
    | apply ignores_lift
    | apply ignores_getitem; apply Hne; reflexivity
    | apply ignores_setitem; apply Hne; reflexivity
    | apply ignores_for_each; intros ?
    | apply ignores_bind; [|intros ?] ].
Qed.

Lemma patent_query_ignores (key : string) :
  existsb (String.eqb key)
    ["patent_keywords_logic"; "patent_keywords"; "patent_office"; "patent_type";
     "patent_application_filed_date"; "patent_granted_date"; "patent_figures_count";
     "patent_claims_count"; "patent_sheets_count"; "patent_withdrawn"] = false ->
  ignores key Patent.patent_query.
Proof.
  intros Hkey. unfold Patent.patent_query.
  repeat first
    [ apply ignores_ret
    | apply ignores_lift
    | apply ignores_getitem; intros ->; discriminate
    | apply ignores_bind; [|intros ?]
    | progress cbn beta zeta ].
Qed.

Lemma cpc_query_ignores (key : string) :
  existsb (String.eqb key) Patent.hierarchies = false -> ignores key Patent.cpc_query.
Proof.
  intros Hkey. unfold Patent.cpc_query.
  repeat first
    [ apply ignores_ret
    | apply ignores_lift
    | apply ignores_getitem; intros ->; discriminate
    | apply ignores_bind; [|intros ?]
    | progress cbn beta zeta ].
Qed.

Lemma pct_query_ignores (key : string) :
  existsb (String.eqb key) ["pct_application_date"; "pct_granted"] = false ->
  ignores key Patent.pct_query.
Proof.
  intros Hkey. unfold Patent.pct_query.
  repeat first
    [ apply ignores_ret
    | apply ignores_lift
    | apply ignores_getitem; intros ->; discriminate
    | apply ignores_bind; [|intros ?]
    | progress cbn beta zeta ].
Qed.

Lemma inventor_query_ignores (key : string) :
  existsb (String.eqb key)
    ["inventor_first_name"; "inventor_last_name"; "inventor_male"; "inventor_location"]
  = false ->
  ignores key Patent.inventor_query.
Proof.
  intros Hkey. unfold Patent.inventor_query.
  repeat first
    [ apply ignores_ret
    | apply ignores_lift
    | apply ignores_getitem; intros ->; discriminate
    | apply ignores_bind; [|intros ?]
    | match goal with
      | |- ignores _ (if ?b then _ else _) => destruct b
      end
    | progress cbn beta zeta ].
Qed.

Lemma assignee_query_ignores (key : string) :
  existsb (String.eqb key)
    ["assignee_first_name"; "assignee_last_name"; "assignee_organization";
     "assignee_location"] = false ->
  ignores key Patent.assignee_query.
Proof.
  intros Hkey. unfold Patent.assignee_query.
  repeat first
    [ apply ignores_ret
    | apply ignores_lift
    | apply ignores_getitem; intros ->; discriminate
    | apply ignores_bind; [|intros ?]
    | match goal with
      | |- ignores _ (if ?b then _ else _) => destruct b
      end
    | progress cbn beta zeta ].
Qed.

Lemma writes_nothing {A} (m : py A) (d : dict) : writes_only [] m -> (m d).1 = d.
Proof. intros Hm. apply map_eq. intros k. by apply Hm. Qed.

Lemma compile_compiled (d : dict) : (Patent.compile d).2 = compiled d.
Proof.
  unfold Patent.compile, compiled, bind.
  pose proof (writes_nothing Patent.patent_query d (patent_query_writes_nothing [])) as Hp.
  destruct (Patent.patent_query d) as [d0 [pq|e]]; cbn [fst snd rbind] in *;
    [subst d0|done].
  destruct (Patent.deduplicate d) as [d' [[]|e]]; cbn [fst snd rbind]; [|done].
  pose proof (writes_nothing Patent.cpc_query d' (cpc_query_writes_nothing [])) as Hc.
  destruct (Patent.cpc_query d') as [d0 [cq|e]]; cbn [fst snd rbind] in *;
    [subst d0|done].
  pose proof (writes_nothing Patent.pct_query d' (pct_query_writes_nothing [])) as Ht.
  destruct (Patent.pct_query d') as [d0 [tq|e]]; cbn [fst snd rbind] in *;
    [subst d0|done].
  pose proof (writes_nothing Patent.inventor_query d' (inventor_query_writes_nothing []))
    as Hi.
  destruct (Patent.inventor_query d') as [d0 [iq|e]]; cbn [fst snd rbind] in *;
    [subst d0|done].
  by destruct (Patent.assignee_query d') as [d0 [aq|e]].
Qed.

(** ** The columns a fragment constrains *)

Lemma leaves_q_and (a b : Q) : leaves (q_and a b) = leaves a ++ leaves b.
Proof. destruct a, b; cbn; by rewrite ?app_nil_r. Qed.

Lemma rooted_empty (roots : list string) : rooted roots QEmpty.
Proof. constructor. Qed.

Lemma rooted_leaf (roots : list string) (path : list string) (lk : lookup) (r : rhs) :
  existsb (String.eqb (hd EmptyString path)) roots = true -> rooted roots (QLeaf path lk r).
Proof. intros Hpath. by repeat constructor. Qed.

Lemma rooted_q_and (roots : list string) (a b : Q) :
  rooted roots a -> rooted roots b -> rooted roots (q_and a b).
Proof. unfold rooted. rewrite leaves_q_and. apply Forall_app_2. Qed.

Lemma leaves_q_or (a b : Q) : leaves (q_or a b) = leaves a ++ leaves b.
Proof. destruct a, b; cbn; by rewrite ?app_nil_r. Qed.

Lemma rooted_q_or (roots : list string) (a b : Q) :
  rooted roots a -> rooted roots b -> rooted roots (q_or a b).
Proof. unfold rooted. rewrite leaves_q_or. apply Forall_app_2. Qed.

Lemma rooted_node (roots : list string) (a b : Q) :
  rooted roots a -> rooted roots b -> rooted roots (QOr a b).
Proof. apply Forall_app_2. Qed.

Lemma rooted_elsewhere (roots : list string) (q : Q) (path : list string) :
  rooted roots q ->
  existsb (String.eqb (hd EmptyString path)) roots = false ->
  Forall (fun l => l.1.1 <> path) (leaves q).
Proof.
  unfold rooted. intros Hq Hpath. eapply Forall_impl; [exact Hq|].
  intros l Hl Heq. cbv beta in Hl. rewrite Heq in Hl. congruence.
Qed.

Lemma exact_query_rooted (roots : list string) (field : list string) (v : value) :
  existsb (String.eqb (hd EmptyString field)) roots = true ->
  rooted roots (Patent.exact_query field v).
Proof.
  intros Hfield. unfold Patent.exact_query.
  destruct (truthy v); [by apply rooted_leaf | apply rooted_empty].
Qed.

Lemma range_query_rooted (roots : list string) (field : list string) (v : value) (q : Q) :
  existsb (String.eqb (hd EmptyString field)) roots = true ->
  Patent.range_query field v = Return q -> rooted roots q.
Proof.
  intros Hfield. unfold Patent.range_query.
  destruct (truthy v); [|intros [= <-]; apply rooted_empty].
  destruct (subscript v "min") as [lo|]; [|done].
  destruct (subscript v "max") as [hi|]; [|done]. cbn. intros [= <-].
  destruct (truthy lo), (truthy hi);
    repeat first [apply rooted_q_and | by apply rooted_leaf | apply rooted_empty].
Qed.

Lemma level_query_rooted (roots : list string) (codes : value) (q : Q) :
  existsb (String.eqb "cpc_groups") roots = true ->
  Patent.level_query codes = Return q -> rooted roots q.
Proof.
  intros Hroot. unfold Patent.level_query.
  destruct (str_join "|" codes); [|done]. cbn. intros [= <-]. by apply rooted_leaf.
Qed.

Lemma first_name_query_rooted (roots : list string) (field : list string) (names : value)
    (q : Q) :
  existsb (String.eqb (hd EmptyString field)) roots = true ->
  Patent.first_name_query field names = Return q -> rooted roots q.
Proof.
  intros Hfield. unfold Patent.first_name_query.
  destruct (str_join "" names); [|done]. cbn. intros [= <-]. by apply rooted_leaf.
Qed.

Lemma distance_query_rooted (roots : list string) (field : list string) (location : value)
    (q : Q) :
  existsb (String.eqb (hd EmptyString field)) roots = true ->
  Patent.distance_query field location = Return q -> rooted roots q.
Proof.
  intros Hfield. unfold Patent.distance_query.
  destruct (subscript location "lng") as [lng|]; [|done].
  destruct (subscript location "lat") as [lat|]; [|done]. cbn.
  destruct (as_number lng); [|done]. destruct (as_number lat); [|done]. cbn.
  destruct (subscript location "radius") as [radius|]; [|done]. cbn.
  destruct (as_number radius); [|done]. cbn. intros [= <-]. by apply rooted_leaf.
Qed.

Lemma yields_ret {A} (P : A -> Prop) (a : A) : P a -> yields P (ret a).
Proof. intros Ha d a' [= <-]. done. Qed.

Lemma yields_bind {A B} (P : B -> Prop) (m : py A) (f : A -> py B) :
  (forall a, yields P (f a)) -> yields P (bind m f).
Proof.
  intros Hf d b. unfold bind. destruct (m d) as [d' [a|e]]; [apply Hf|done].
Qed.

Lemma yields_bind_lift {A B} (P : B -> Prop) (r : result A) (f : A -> py B) :
  (forall a, r = Return a -> yields P (f a)) -> yields P (bind (lift r) f).
Proof.
  intros Hf d b. unfold bind, lift. destruct r as [a|e]; [by apply Hf|done].
Qed.

Lemma yields_lift {A} (P : A -> Prop) (r : result A) :
  (forall a, r = Return a -> P a) -> yields P (lift r).
Proof. intros Hr d a. apply Hr. Qed.

Lemma yields_bind_with {A B} (P0 : A -> Prop) (P : B -> Prop) (m : py A) (f : A -> py B) :
  yields P0 m -> (forall a, P0 a -> yields P (f a)) -> yields P (bind m f).
Proof.
  intros Hm Hf d b. unfold bind. specialize (Hm d).
  destruct (m d) as [d' [a|e]]; [|done]. apply Hf. by apply Hm.
Qed.

(** Proves [rooted] of what a fragment returns by its structure. *)
Ltac rooting :=
  repeat first
    [ match goal with
      | |- yields (rooted ?roots) (bind (if _ then _ else _) _) =>
          apply (yields_bind_with (rooted roots)); [|intros ? ?]
      end
    | apply yields_bind_lift; intros ? ?
    | apply yields_lift; intros ? ?
    | apply yields_bind; intros ?
    | apply yields_ret
    | match goal with
      | |- yields _ (if ?b then _ else _) => destruct b
      | H : (if ?b then _ else _) = Return _ |- _ => destruct b
      | H : Return _ = Return _ |- _ => injection H as <-
      end
    | progress cbn beta zeta ];
  repeat first
    [ apply rooted_q_and
    | apply rooted_q_or
    | apply rooted_empty
    | assumption
    | apply rooted_leaf; reflexivity
    | apply exact_query_rooted; reflexivity
    | apply rooted_node
    | eapply range_query_rooted; [|eassumption]; reflexivity
    | eapply level_query_rooted; [|eassumption]; reflexivity
    | eapply first_name_query_rooted; [|eassumption]; reflexivity
    | eapply distance_query_rooted; [|eassumption]; reflexivity
    | match goal with
      | |- rooted _ (if ?b then _ else _) => destruct b
      end ].

Lemma patent_query_rooted :
  yields (rooted ("abstract" :: patent_columns_named)) Patent.patent_query.
Proof. unfold Patent.patent_query. rooting. Qed.

Lemma cpc_query_rooted : yields (rooted ["cpc_groups"]) Patent.cpc_query.
Proof. unfold Patent.cpc_query. rooting. Qed.

Lemma pct_query_rooted : yields (rooted ["pct_data"]) Patent.pct_query.
Proof. unfold Patent.pct_query. rooting. Qed.

Lemma inventor_query_rooted : yields (rooted ["inventors"]) Patent.inventor_query.
Proof. unfold Patent.inventor_query. rooting. Qed.

Lemma assignee_query_rooted : yields (rooted ["assignees"]) Patent.assignee_query.
Proof. unfold Patent.assignee_query. rooting. Qed.

(** ** The tri-state flags *)

Lemma exact_query_paths (field : list string) (v : value) :
  Forall (fun l => l.1.1 = field) (leaves (Patent.exact_query field v)).
Proof. unfold Patent.exact_query. destruct (truthy v); by repeat constructor. Qed.

Lemma range_query_paths (field : list string) (v : value) (q : Q) :
  Patent.range_query field v = Return q -> Forall (fun l => l.1.1 = field) (leaves q).
Proof.
  unfold Patent.range_query. destruct (truthy v); [|intros [= <-]; constructor].
  destruct (subscript v "min") as [lo|]; [|done].
  destruct (subscript v "max") as [hi|]; [|done]. cbn. intros [= <-].
  destruct (truthy lo), (truthy hi); by repeat constructor.
Qed.

Lemma first_name_query_paths (field : list string) (names : value) (q : Q) :
  Patent.first_name_query field names = Return q ->
  Forall (fun l => l.1.1 = field) (leaves q).
Proof.
  unfold Patent.first_name_query. destruct (str_join "" names); [|done].
  cbn. intros [= <-]. by repeat constructor.
Qed.

Lemma distance_query_paths (field : list string) (location : value) (q : Q) :
  Patent.distance_query field location = Return q ->
  Forall (fun l => l.1.1 = field) (leaves q).
Proof.
  unfold Patent.distance_query.
  destruct (subscript location "lng") as [lng|]; [|done].
  destruct (subscript location "lat") as [lat|]; [|done]. cbn.
  destruct (as_number lng); [|done]. destruct (as_number lat); [|done]. cbn.
  destruct (subscript location "radius") as [radius|]; [|done]. cbn.
  destruct (as_number radius); [|done]. cbn. intros [= <-]. by repeat constructor.
Qed.

Section TriState.
Context `{Datastore}.

Lemma eval_q_and (a b : Q) (r : Row) : eval (q_and a b) r = eval a r && eval b r.
Proof. destruct a, b; cbn; by rewrite ?andb_true_r. Qed.

(** Runs both sides of a goal along the lookups and calls they share. *)
Ltac both :=
  repeat
    (cbn -[String.append String.concat];
     first
       [ rewrite lookup_insert_eq
       | rewrite lookup_insert_ne by discriminate
       | match goal with
         | |- context [match ?d !! ?k with _ => _ end] =>
             destruct (d !! k) as [?|] eqn:?
         | |- context [match ?x with Return _ => _ | Raise _ => _ end] =>
             lazymatch x with
             | context [match _ with _ => _ end] => fail
             | context [if _ then _ else _] => fail
             | _ => destruct x as [?|?] eqn:?
             end
         | |- context [if ?c then _ else _] => destruct c eqn:?
         end ]).

(** The conditions of a compiled fragment are on other paths. *)
Ltac other_paths :=
  cbn [leaves]; rewrite ?leaves_q_and; cbn [leaves];
  repeat first
    [ apply Forall_nil_2
    | apply Forall_app_2
    | apply Forall_cons_2; [discriminate|]
    | eapply Forall_impl; [apply exact_query_paths|by intros ? ->]
    | eapply Forall_impl; [eapply range_query_paths; eassumption|by intros ? ->]
    | eapply Forall_impl; [eapply first_name_query_paths; eassumption|by intros ? ->]
    | eapply Forall_impl; [eapply distance_query_paths; eassumption|by intros ? ->] ].

(** Closes a pair of runs that ended: the same exception, or two
    conditions that differ by the one on the flag. *)
Ltac flagged :=
  cbn [snd];
  first
    [ reflexivity
    | split;
      [ other_paths
      | eexists; split; [reflexivity|]; split;
        [ cbn [leaves]; rewrite ?leaves_q_and; cbn [leaves]; set_solver
        | intros ?; rewrite ?eval_q_and; cbn -[String.append String.concat];
          rewrite ?eval_q_and;
          repeat match goal with
                 | Hx : ?x = _ |- context [match ?x with _ => _ end] => rewrite Hx
                 end;
          btauto ] ] ].

Lemma pct_query_granted (d : dict) (b : bool) :
  adds_condition ["pct_data"; "granted"] b
    (Patent.pct_query (<["pct_granted" := VNone]> d)).2
    (Patent.pct_query (<["pct_granted" := VBool b]> d)).2.
Proof. unfold adds_condition, Patent.pct_query. unfold_py. both; flagged. Qed.

Lemma inventor_query_male (d : dict) (b : bool) :
  adds_condition ["inventors"; "male"] b
    (Patent.inventor_query (<["inventor_male" := VNone]> d)).2
    (Patent.inventor_query (<["inventor_male" := VBool b]> d)).2.
Proof. unfold adds_condition, Patent.inventor_query. unfold_py. both; flagged. Qed.

Lemma patent_query_withdrawn (d : dict) (b : bool) :
  adds_condition ["withdrawn"] b
    (Patent.patent_query (<["patent_withdrawn" := VNone]> d)).2
    (Patent.patent_query (<["patent_withdrawn" := VBool b]> d)).2.
Proof. unfold adds_condition, Patent.patent_query. unfold_py. both; flagged. Qed.

(** Puts a fragment that ignores the flag's key back on the bundle
    without the flag. *)
Ltac unflag key :=
  rewrite ?(patent_query_ignores key eq_refl), ?(deduplicate_ignores key eq_refl);
  cbn [fst snd];
  rewrite ?(cpc_query_ignores key eq_refl), ?(pct_query_ignores key eq_refl),
    ?(inventor_query_ignores key eq_refl), ?(assignee_query_ignores key eq_refl);
  cbn [fst snd].

(** Takes the next fragment of both runs, the same on both sides, and keeps
    where its conditions are rooted. *)
Ltac same_fragment rooted_lemma :=
  match goal with
  | |- context [rbind (?m ?d).2 _] =>
      let Hq := fresh "Hrooted" in
      pose proof (rooted_lemma d) as Hq;
      destruct (m d).2 as [?|?]; cbn [rbind]; [specialize (Hq _ eq_refl)|done]
  end.

(** C7: for each of the three flags, and whatever else the bundle holds:
    with the flag unset (None) the compiled condition has no condition on
    the flag's column; with the flag set to [b] (false in particular) it is
    the condition of the unset flag together with the equality of the column
    with [b], so a row that satisfies the unset condition and whose column is
    not [b] tells the two apart; and a bundle that raises raises the same
    exception either way.  On the sample snapshot the unset flag returns the
    withdrawn and the valid patent, false only the valid one. *)
Theorem unset_and_false_differ (t : tri_state) (d : dict) (b : bool) :
  match (Patent.compile (<[flag_key t := VNone]> d)).2 with
  | Return unset =>
      Forall (fun l => l.1.1 <> flag_path t) (leaves unset)
      /\ exists set,
           (Patent.compile (<[flag_key t := VBool b]> d)).2 = Return set
           /\ (flag_path t, Exact, Lit (VBool b)) ∈ leaves set
           /\ forall r,
                eval set r
                = eval unset r && eval (QLeaf (flag_path t) Exact (Lit (VBool b))) r
  | Raise e => (Patent.compile (<[flag_key t := VBool b]> d)).2 = Raise e
  end
  /\ run_filter Sample.db (<["patent_withdrawn" := VNone]> Sample.blank)
     = Return [Sample.golf_glove; Sample.filter_press]
  /\ run_filter Sample.db (<["patent_withdrawn" := VBool false]> Sample.blank)
     = Return [Sample.golf_glove]
  /\ run_filter Sample.db (<["inventor_male" := VBool false]> Sample.blank)
     = Return [Sample.golf_glove].
Proof.
  split; [|by vm_compute].
  change (adds_condition (flag_path t) b
            (Patent.compile (<[flag_key t := VNone]> d)).2
            (Patent.compile (<[flag_key t := VBool b]> d)).2).
  rewrite !compile_compiled. unfold compiled.
  destruct t; cbn [flag_key flag_path].
  - unflag "patent_withdrawn".
    pose proof (patent_query_withdrawn d b) as Hown. unfold adds_condition in *.
    destruct (Patent.patent_query (<["patent_withdrawn" := VNone]> d)).2 as [pq|e];
      [|by rewrite Hown].
    destruct Hown as (Hpaths & pq' & -> & Hin & Heval). cbn [rbind].
    destruct (Patent.deduplicate d).2 as [[]|]; cbn [rbind]; [|done].
    same_fragment cpc_query_rooted. same_fragment pct_query_rooted.
    same_fragment inventor_query_rooted. same_fragment assignee_query_rooted.
    split.
    + rewrite !leaves_q_and. repeat apply Forall_app_2; [done|..];
        (eapply rooted_elsewhere; [eassumption|reflexivity]).
    + eexists. split; [reflexivity|]. split.
      * rewrite !leaves_q_and, !elem_of_app. tauto.
      * intros r. rewrite !eval_q_and, Heval. btauto.
  - unflag "pct_granted".
    same_fragment patent_query_rooted.
    destruct (Patent.deduplicate d).2 as [[]|]; cbn [rbind]; [|done].
    same_fragment cpc_query_rooted.
    pose proof (pct_query_granted (Patent.deduplicate d).1 b) as Hown.
    unfold adds_condition in *.
    destruct (Patent.pct_query (<["pct_granted" := VNone]> _)).2 as [tq|e];
      [|by rewrite Hown].
    destruct Hown as (Hpaths & tq' & -> & Hin & Heval). cbn [rbind].
    same_fragment inventor_query_rooted. same_fragment assignee_query_rooted.
    split.
    + rewrite !leaves_q_and. repeat apply Forall_app_2; try done;
        (eapply rooted_elsewhere; [eassumption|reflexivity]).
    + eexists. split; [reflexivity|]. split.
      * rewrite !leaves_q_and, !elem_of_app. tauto.
      * intros r. rewrite !eval_q_and, Heval. btauto.
  - unflag "inventor_male".
    same_fragment patent_query_rooted.
    destruct (Patent.deduplicate d).2 as [[]|]; cbn [rbind]; [|done].
    same_fragment cpc_query_rooted. same_fragment pct_query_rooted.
    pose proof (inventor_query_male (Patent.deduplicate d).1 b) as Hown.
    unfold adds_condition in *.
    destruct (Patent.inventor_query (<["inventor_male" := VNone]> _)).2 as [iq|e];
      [|by rewrite Hown].
    destruct Hown as (Hpaths & iq' & -> & Hin & Heval). cbn [rbind].
    same_fragment assignee_query_rooted.
    split.
    + rewrite !leaves_q_and. repeat apply Forall_app_2; try done;
        (eapply rooted_elsewhere; [eassumption|reflexivity]).
    + eexists. split; [reflexivity|]. split.
      * rewrite !leaves_q_and, !elem_of_app. tauto.
      * intros r. rewrite !eval_q_and, Heval. btauto.
Qed.

End TriState.

(** ** Conditions that resolve *)

Lemma rbind_unit (r : result unit) : rbind r (fun _ => Return tt) = r.
Proof. by destruct r as [[]|]. Qed.

Lemma check_q_and (a b : Q) : check (q_and a b) = rbind (check a) (fun _ => check b).
Proof. destruct a, b; cbn; by rewrite ?rbind_unit. Qed.

Lemma checked_q_and (a b : Q) : checked a -> checked b -> checked (q_and a b).
Proof. unfold checked. rewrite check_q_and. by intros -> ->. Qed.

Lemma range_query_checked (field : list string) (v : value) (q : Q) :
  checked (QLeaf field Exact (Lit VNone)) ->
  Patent.range_query field v = Return q -> checked q.
Proof.
  unfold checked. cbn [check]. intros Hfield. unfold Patent.range_query.
  destruct (truthy v); [|by intros [= <-]].
  destruct (subscript v "min") as [lo|]; [|done].
  destruct (subscript v "max") as [hi|]; [|done]. cbn. intros [= <-].
  destruct (truthy lo), (truthy hi); cbn; by rewrite ?Hfield.
Qed.

Lemma exact_query_checked (field : list string) (v : value) :
  checked (QLeaf field Exact (Lit VNone)) -> checked (Patent.exact_query field v).
Proof. unfold Patent.exact_query. by destruct (truthy v). Qed.

Lemma level_query_checked (codes : value) (q : Q) :
  Patent.level_query codes = Return q -> checked q.
Proof.
  unfold Patent.level_query. destruct (str_join "|" codes); [|done].
  cbn. by intros [= <-].
Qed.

Lemma first_name_query_checked (field : list string) (names : value) (q : Q) :
  checked (QLeaf field Exact (Lit VNone)) ->
  Patent.first_name_query field names = Return q -> checked q.
Proof.
  intros Hfield. unfold Patent.first_name_query. destruct (str_join "" names); [|done].
  cbn. by intros [= <-].
Qed.

Lemma distance_query_checked (field : list string) (location : value) (q : Q) :
  checked (QLeaf field Exact (Lit VNone)) ->
  Patent.distance_query field location = Return q -> checked q.
Proof.
  intros Hfield. unfold Patent.distance_query.
  destruct (subscript location "lng") as [lng|]; [|done].
  destruct (subscript location "lat") as [lat|]; [|done]. cbn.
  destruct (as_number lng); [|done]. destruct (as_number lat); [|done]. cbn.
  destruct (subscript location "radius") as [radius|]; [|done]. cbn.
  destruct (as_number radius); [|done]. cbn. by intros [= <-].
Qed.

(** Proves a property of what a fragment returns by its structure, from
    the lemmas on the conditions it is made of. *)
Ltac yielding closing :=
  repeat first
    [ match goal with
      | |- yields ?P (bind (if _ then _ else _) _) =>
          apply (yields_bind_with P); [|intros ? ?]
      end
    | apply yields_bind_lift; intros ? ?
    | apply yields_lift; intros ? ?
    | apply yields_bind; intros ?
    | apply yields_ret
    | match goal with
      | |- yields _ (if ?b then _ else _) => destruct b
      | H : (if ?b then _ else _) = Return _ |- _ => destruct b
      | H : Return _ = Return _ |- _ => injection H as <-
      end
    | progress cbn beta zeta ];
  repeat first
    [ assumption
    | closing
    | match goal with
      | |- _ (if ?b then _ else _) => destruct b
      end ].

Ltac checking :=
  yielding ltac:(first
    [ apply checked_q_and
    | reflexivity
    | apply exact_query_checked; reflexivity
    | eapply range_query_checked; [|eassumption]; reflexivity
    | eapply level_query_checked; eassumption
    | eapply first_name_query_checked; [|eassumption]; reflexivity
    | eapply distance_query_checked; [|eassumption]; reflexivity ]).

Lemma cpc_query_checked : yields checked Patent.cpc_query.
Proof. unfold Patent.cpc_query. checking. Qed.

Lemma pct_query_checked : yields checked Patent.pct_query.
Proof. unfold Patent.pct_query. checking. Qed.

Lemma inventor_query_checked : yields checked Patent.inventor_query.
Proof. unfold Patent.inventor_query. checking. Qed.

Lemma assignee_query_checked : yields checked Patent.assignee_query.
Proof. unfold Patent.assignee_query. checking. Qed.

(** Runs a goal along the lookups and calls of the computation in it. *)
Ltac exec :=
  repeat
    (cbn -[String.append String.concat];
     first
       [ rewrite lookup_insert_eq
       | rewrite lookup_insert_ne by discriminate
       | match goal with
         | |- context [match ?d !! ?k with _ => _ end] =>
             destruct (d !! k) as [?|] eqn:?
         | |- context [match ?x with Return _ => _ | Raise _ => _ end] =>
             lazymatch x with
             | context [match _ with _ => _ end] => fail
             | context [if _ then _ else _] => fail
             | _ => destruct x as [?|?] eqn:?
             end
         | |- context [if ?c then _ else _] => destruct c eqn:?
         end ]).

(** The patent fragment resolves but for the keyword condition, whose
    second half names [abstract]. *)
Lemma patent_query_check (d : dict) :
  match (Patent.patent_query d).2 with
  | Return q =>
      exists words,
        d !! "patent_keywords" = Some words
        /\ check q = if truthy words then Raise (FieldError "abstract") else Return tt
  | Raise _ => True
  end.
Proof.
  unfold Patent.patent_query. unfold_py. exec; try done.
  all: eexists; split; [reflexivity|].
  all: repeat match goal with H : Some _ = Some _ |- _ => injection H as -> end.
  all: repeat match goal with H : truthy ?v = _ |- context [truthy ?v] => rewrite H end.
  all: rewrite ?check_q_and.
  all: repeat match goal with
         | H : Patent.range_query ?f ?v = Return ?q |- context [check ?q] =>
             rewrite (range_query_checked f v q eq_refl H)
         end.
  all: rewrite ?(exact_query_checked ["office"] _ eq_refl),
             ?(exact_query_checked ["type"] _ eq_refl).
  all: reflexivity.
Qed.

Lemma filter_compile (d : dict) :
  (Patent.filter d).2 = rbind (Patent.compile d).2 objects_filter.
Proof. unfold Patent.filter, bind, lift. by destruct (Patent.compile d) as [d' [q|e]]. Qed.

(** What [compile] returns is the conjunction of what its five fragments
    return, the last four on the de-duplicated bundle. *)
Lemma compiled_fragments (d : dict) (q : Q) :
  compiled d = Return q ->
  exists patent_query cpc_query pct_query inventor_query assignee_query,
    (Patent.patent_query d).2 = Return patent_query
    /\ (Patent.deduplicate d).2 = Return tt
    /\ (Patent.cpc_query (Patent.deduplicate d).1).2 = Return cpc_query
    /\ (Patent.pct_query (Patent.deduplicate d).1).2 = Return pct_query
    /\ (Patent.inventor_query (Patent.deduplicate d).1).2 = Return inventor_query
    /\ (Patent.assignee_query (Patent.deduplicate d).1).2 = Return assignee_query
    /\ q = q_and (q_and (q_and (q_and patent_query cpc_query) pct_query) inventor_query)
             assignee_query.
Proof.
  unfold compiled.
  destruct (Patent.patent_query d).2 as [pq|]; [|done].
  destruct (Patent.deduplicate d).2 as [[]|]; [|done].
  destruct (Patent.cpc_query _).2 as [cq|]; [|done].
  destruct (Patent.pct_query _).2 as [tq|]; [|done].
  destruct (Patent.inventor_query _).2 as [iq|]; [|done].
  destruct (Patent.assignee_query _).2 as [aq|]; [|done].
  cbn. intros [= <-]. by exists pq, cq, tq, iq, aq.
Qed.

(** The one condition of a compiled bundle that does not resolve is the
    keyword condition. *)
Lemma check_compiled (d : dict) (q : Q) (words : value) :
  compiled d = Return q ->
  d !! "patent_keywords" = Some words ->
  check q = if truthy words then Raise (FieldError "abstract") else Return tt.
Proof.
  intros Hq Hwords.
  apply compiled_fragments in Hq
    as (pq & cq & tq & iq & aq & Hp & _ & Hc & Ht & Hi & Ha & ->).
  pose proof (patent_query_check d) as Hcheck. rewrite Hp in Hcheck.
  destruct Hcheck as (words' & Hwords' & Hcheck).
  assert (words' = words) as -> by congruence.
  apply cpc_query_checked in Hc. apply pct_query_checked in Ht.
  apply inventor_query_checked in Hi. apply assignee_query_checked in Ha.
  unfold checked in *.
  rewrite !check_q_and, Hcheck, Hc, Ht, Hi, Ha.
  by destruct (truthy words).
Qed.

(** ** Keys the bundle must have *)

Ltac needing :=
  intros d a; unfold_py; exec; intros Hreturn; try discriminate Hreturn;
  repeat (apply Forall_cons_2; [done|]); apply Forall_nil_2.

Lemma patent_query_needs :
  needs [ "patent_keywords_logic"; "patent_keywords"; "patent_office"; "patent_type";
          "patent_application_filed_date"; "patent_granted_date";
          "patent_figures_count"; "patent_claims_count"; "patent_sheets_count";
          "patent_withdrawn" ] Patent.patent_query.
Proof. unfold Patent.patent_query. needing. Qed.

Lemma cpc_query_needs :
  needs ["cpc_section"; "cpc_class"; "cpc_subclass"; "cpc_group"] Patent.cpc_query.
Proof. unfold Patent.cpc_query. needing. Qed.

Lemma pct_query_needs : needs ["pct_application_date"; "pct_granted"] Patent.pct_query.
Proof. unfold Patent.pct_query. needing. Qed.

Lemma inventor_query_needs :
  needs ["inventor_first_name"; "inventor_last_name"; "inventor_male"; "inventor_location"]
    Patent.inventor_query.
Proof. unfold Patent.inventor_query. needing. Qed.

Lemma assignee_query_needs :
  needs [ "assignee_first_name"; "assignee_last_name"; "assignee_organization";
          "assignee_location" ] Patent.assignee_query.
Proof. unfold Patent.assignee_query. needing. Qed.

Lemma adds_no_key_bind {A B} (m : py A) (f : A -> py B) :
  adds_no_key m -> (forall a, adds_no_key (f a)) -> adds_no_key (bind m f).
Proof.
  intros Hm Hf d k Hk. unfold bind. specialize (Hm d k Hk).
  destruct (m d) as [d' [a|e]]; cbn in *; [|done]. by apply Hf.
Qed.

Lemma adds_no_key_ret {A} (a : A) : adds_no_key (ret a).
Proof. by intros d k Hk. Qed.

Lemma adds_no_key_for_each {A} (xs : list A) (body : A -> py unit) :
  (forall x, adds_no_key (body x)) -> adds_no_key (for_each xs body).
Proof.
  intros Hbody. induction xs as [|x xs IH]; cbn [for_each].
  - apply adds_no_key_ret.
  - apply adds_no_key_bind; [apply Hbody | by intros _].
Qed.

(** [prune] assigns the key it has read. *)
Lemma prune_adds_no_key (below : string) (key : value) :
  adds_no_key (Patent.prune below key).
Proof.
  intros d k Hk. unfold Patent.prune. unfold_py.
  destruct (d !! below) as [v|] eqn:Hbelow; cbn; [|done].
  destruct (py_iter v) as [items|]; cbn; [|done].
  destruct (Patent.without_prefix key items) as [kept|]; cbn; [|done].
  rewrite lookup_insert_ne; [done|]. intros <-. congruence.
Qed.

Lemma adds_no_key_getitem (key : string) : adds_no_key (getitem key).
Proof. intros d k Hk. unfold getitem. by destruct (d !! key). Qed.

Lemma adds_no_key_lift {A} (r : result A) : adds_no_key (lift r).
Proof. by intros d k Hk. Qed.

Lemma prune_below_adds_no_key (level below : string) :
  adds_no_key (Patent.prune_below level below).
Proof.
  unfold Patent.prune_below.
  apply adds_no_key_bind; [apply adds_no_key_getitem|intros selected].
  apply adds_no_key_bind; [apply adds_no_key_lift|intros keys].
  apply adds_no_key_for_each. intros key. apply prune_adds_no_key.
Qed.

Lemma prune_below_needs (level below : string) :
  needs [level] (Patent.prune_below level below).
Proof.
  intros d a. unfold Patent.prune_below. unfold bind at 1, getitem.
  destruct (d !! level) as [selected|] eqn:Hlevel; cbn; [|done].
  intros _. apply Forall_cons_2; [by rewrite Hlevel|constructor].
Qed.

Lemma deduplicate_adds_no_key : adds_no_key Patent.deduplicate.
Proof.
  rewrite deduplicate_unroll.
  repeat first
    [ apply prune_below_adds_no_key
    | apply adds_no_key_ret
    | apply adds_no_key_bind; [|intros ?] ].
Qed.

Lemma needs_bind {A B} (keys keys' : list string) (m : py A) (f : A -> py B) :
  needs keys m -> adds_no_key m -> (forall a, needs keys' (f a)) ->
  needs (keys ++ keys') (bind m f).
Proof.
  intros Hm Hadd Hf d b. unfold bind. specialize (Hm d). specialize (Hadd d).
  destruct (m d) as [d' [a|e]]; cbn in *; [|done]. intros Hb.
  apply Forall_app_2; [by eapply Hm|].
  eapply Forall_impl; [by eapply Hf|]. intros k Hk. cbv beta in Hk.
  destruct (d !! k) eqn:Hd; [done|]. rewrite (Hadd k Hd) in Hk. by destruct Hk.
Qed.

Lemma needs_ret {A} (a : A) : needs [] (ret a).
Proof. intros d a' _. constructor. Qed.

Lemma deduplicate_needs :
  needs ["cpc_section"; "cpc_class"; "cpc_subclass"] Patent.deduplicate.
Proof.
  rewrite deduplicate_unroll.
  intros d a Ha.
  assert (needs
    (["cpc_section"; "cpc_section"; "cpc_section"] ++ ["cpc_class"; "cpc_class"]
     ++ ["cpc_subclass"] ++ [] ++ [])
    ((Patent.prune_below "cpc_section" "cpc_class" ;;;
      Patent.prune_below "cpc_section" "cpc_subclass" ;;;
      Patent.prune_below "cpc_section" "cpc_group" ;;; ret tt) ;;;
     (Patent.prune_below "cpc_class" "cpc_subclass" ;;;
      Patent.prune_below "cpc_class" "cpc_group" ;;; ret tt) ;;;
     (Patent.prune_below "cpc_subclass" "cpc_group" ;;; ret tt) ;;;
     ret tt ;;; ret tt)) as Hneeds.
  { repeat first
      [ apply needs_ret
      | apply prune_below_needs
      | apply prune_below_adds_no_key
      | apply adds_no_key_ret
      | apply adds_no_key_bind; [|intros ?]
      | match goal with
        | |- needs (?l ++ _) _ => apply (needs_bind l); [| |intros ?]
        | |- needs [?k; ?k; ?k] _ => apply (needs_bind [k] [k; k]); [| |intros ?]
        | |- needs [?k; ?k] _ => apply (needs_bind [k] [k]); [| |intros ?]
        | |- needs [?k] _ => apply (needs_bind [k] []); [| |intros ?]
        | |- needs [] _ => apply (needs_bind [] []); [| |intros ?]
        end ]. }
  specialize (Hneeds d a Ha). cbn in Hneeds.
  repeat match goal with H : Forall _ (_ :: _) |- _ => apply Forall_cons in H as [? H] end.
  by repeat constructor.
Qed.

(** [filter] returns only for a bundle that has every key of the form. *)
Lemma filter_needs_every_key (d : dict) (patents : QuerySet) :
  (Patent.filter d).2 = Return patents ->
  Forall (fun k => is_Some (d !! k)) form_keys.
Proof.
  rewrite filter_compile, compile_compiled. intros Hf.
  destruct (compiled d) as [q|] eqn:Hq; [clear Hf|done].
  apply compiled_fragments in Hq
    as (pq & cq & tq & iq & aq & Hp & Hd & Hc & Ht & Hi & Ha & _).
  assert (forall keys,
    Forall (fun k => is_Some ((Patent.deduplicate d).1 !! k)) keys ->
    Forall (fun k => is_Some (d !! k)) keys) as Hback.
  { intros keys Hkeys. eapply Forall_impl; [exact Hkeys|]. intros k Hk. cbv beta in Hk.
    destruct (d !! k) eqn:Hdk; [done|].
    rewrite (deduplicate_adds_no_key d k Hdk) in Hk. by destruct Hk. }
  apply patent_query_needs in Hp. apply deduplicate_needs in Hd.
  apply cpc_query_needs, Hback in Hc. apply pct_query_needs, Hback in Ht.
  apply inventor_query_needs, Hback in Hi. apply assignee_query_needs, Hback in Ha.
  unfold form_keys.
  repeat match goal with H : Forall _ (_ :: _) |- _ => apply Forall_cons in H as [? H] end.
  by repeat constructor.
Qed.

(** The blank form has every key. *)

(** Carries a check of the bundle across the removal of another key. *)
Ltac removed_key :=
  match goal with
  | H : ?check ?d = true |- ?check (delete _ ?d) = true =>
      revert H;
      unfold check, falsy_at, none_at, string_at, empty_iterable_at, no_range_at;
      rewrite !lookup_delete_ne by done;
      exact (fun H => H)
  end.

(** Runs a computation on a bundle from which a key was removed. *)
Ltac run_without :=
  repeat (cbn -[String.append String.concat];
          match goal with
          | |- context [delete ?k _ !! ?k] => rewrite lookup_delete_eq
          | |- context [delete _ _ !! _] => rewrite lookup_delete_ne by done
          | H : ?d !! ?k = _ |- context [?d !! ?k] => rewrite H
          | H : truthy ?v = _ |- context [truthy ?v] => rewrite H
          | H : unset_range ?v = true |- context [Patent.range_query ?f ?v] =>
              rewrite (range_query_unset f v H)
          | H : py_iter ?v = Return [] |- context [str_join ?sep ?v] =>
              rewrite (str_join_nothing sep v H)
          | H : py_iter ?v = _ |- context [py_iter ?v] => rewrite H
          end).

(** Without one key of the form, and every dimension left empty, [filter]
    raises the [KeyError] of that key. *)
Lemma filter_without_key (d : dict) (k : string) :
  unconstrained d = true -> k ∈ form_keys ->
  (Patent.filter (delete k d)).2 = Raise (KeyError k).
Proof.
  unfold unconstrained. intros Hd Hk.
  apply andb_prop in Hd as [Hd Hassignee]. apply andb_prop in Hd as [Hd Hinventor].
  apply andb_prop in Hd as [Hd Hpct]. apply andb_prop in Hd as [Hpatent Hcpc].
  unfold form_keys in Hk.
  repeat (apply elem_of_cons in Hk as [->|Hk]); [..|by apply elem_of_nil in Hk].
  all: unfold Patent.filter, Patent.compile; unfold bind at 1 2 3 4 5 6 7.
  all: rewrite ?(patent_query_unconstrained (delete _ d)) by removed_key.
  all: rewrite ?(deduplicate_unconstrained (delete _ d)) by removed_key.
  all: rewrite ?(cpc_query_unconstrained (delete _ d)) by removed_key.
  all: rewrite ?(pct_query_unconstrained (delete _ d)) by removed_key.
  all: rewrite ?(inventor_query_unconstrained (delete _ d)) by removed_key.
  all: unfold patent_unconstrained, cpc_unconstrained, pct_unconstrained,
         inventor_unconstrained, assignee_unconstrained in *.
  all: lookups Hpatent; lookups Hcpc; lookups Hpct; lookups Hinventor; lookups Hassignee.
  all: try rewrite deduplicate_unroll.
  all: unfold Patent.patent_query, Patent.exact_query, Patent.prune_below, Patent.cpc_query,
         Patent.pct_query, Patent.inventor_query, Patent.assignee_query; unfold_py.
  all: by run_without.
Qed.

(** ** A bundle that selects nothing *)

Section Everything.
Context `{Datastore}.

(** C2, as the code has it: when every key of the form is present and every
    dimension is left empty, [filter] returns, leaves the bundle as it was,
    and its result set is the whole patent table.  Absent keys are not read
    as empty: with one key of the form removed from such a bundle [filter]
    raises the [KeyError] of that key, and no bundle from which a key of the
    form is absent makes [filter] return. *)
Theorem filter_unconstrained_everything (db : Database) (d : dict) :
  unconstrained d = true ->
  Patent.filter d = (d, Return {| query_where := QEmpty |})
  /\ run_filter db d = Return (patents db)
  /\ (forall k : string,
        k ∈ form_keys -> (Patent.filter (delete k d)).2 = Raise (KeyError k))
  /\ (forall (d' : dict) (k : string),
        k ∈ form_keys -> d' !! k = None ->
        exists e : exception, (Patent.filter d').2 = Raise e).
Proof.
  intros Hd.
  assert (Patent.filter d = (d, Return {| query_where := QEmpty |})) as Hf.
  { unfold Patent.filter, bind. by rewrite compile_unconstrained. }
  split; [done|]. split; [|split].
  - unfold run_filter. rewrite Hf. cbn. by rewrite execute_everything.
  - intros k Hk. by apply filter_without_key.
  - intros d' k Hk Hnone.
    destruct (Patent.filter d').2 as [selected|e] eqn:Hd'; [|by exists e].
    apply filter_needs_every_key in Hd'.
    rewrite Forall_forall in Hd'. specialize (Hd' k Hk).
    rewrite Hnone in Hd'. by destruct Hd'.
Qed.

End Everything.

(** The blank form on the sample snapshot. *)
Lemma filter_unconstrained_everything_witness :
  unconstrained Sample.blank = true
  /\ (Patent.filter Sample.blank = (Sample.blank, Return {| query_where := QEmpty |})
      /\ run_filter (H := Sample.store) Sample.db Sample.blank
         = Return (patents Sample.db)
      /\ (forall k : string,
            k ∈ form_keys ->
            (Patent.filter (delete k Sample.blank)).2 = Raise (KeyError k))
      /\ (forall (d' : dict) (k : string),
            k ∈ form_keys -> d' !! k = None ->
            exists e : exception, (Patent.filter d').2 = Raise e)).
Proof.
  split; [reflexivity|].
  apply (filter_unconstrained_everything (H := Sample.store) Sample.db Sample.blank).
  reflexivity.
Defined.

(** C2, as stated, fails: a bundle with absent keys (here the empty one, and
    the blank form without its inventor names) makes [filter] raise
    [KeyError] at the first [data[key]] that finds nothing. *)
Lemma filter_absent_key_raises :
  (Patent.filter ∅).2 = Raise (KeyError "patent_keywords_logic")
  /\ (Patent.filter (delete "inventor_first_name" Sample.blank)).2
     = Raise (KeyError "inventor_first_name").
Proof. split; reflexivity. Qed.

(** * Further properties of the code *)

(** ** Bundles that lack a key *)

(** X2: [filter] reads every key of the form with [data[key]]: it returns only
    for a bundle that has all twenty-four of them. *)
Theorem filter_returns_only_with_every_key (d : dict) (patents : QuerySet) :
  (Patent.filter d).2 = Return patents ->
  Forall (fun k => is_Some (d !! k)) form_keys.
Proof. exact (filter_needs_every_key d patents). Qed.

Lemma filter_returns_only_with_every_key_witness :
  (Patent.filter Sample.blank).2 = Return {| query_where := QEmpty |}
  /\ Forall (fun k => is_Some (Sample.blank !! k)) form_keys.
Proof.
  split; [reflexivity|].
  exact (filter_returns_only_with_every_key Sample.blank _ eq_refl).
Defined.

(** ** Bundles of the shape the form gives *)

Lemma is_strings_strings (v : value) :
  is_strings v = true -> exists l, v = VList (VStr <$> l).
Proof.
  destruct v as [| | | | | |items|]; try done. cbn. intros Hitems.
  enough (exists l, items = VStr <$> l) as [l ->] by by exists l.
  induction items as [|[] items IH]; try done; [by exists []|].
  cbn in Hitems. destruct (IH Hitems) as [l ->]. by exists (s :: l).
Qed.

Lemma str_join_strings (sep : string) (l : list string) :
  str_join sep (VList (VStr <$> l)) = Return (String.concat sep l).
Proof. unfold str_join. cbn. by rewrite all_str_strings. Qed.

Lemma range_query_has_bounds (is_bound : value -> bool) (field : list string) (v : value) :
  optional (has_bounds is_bound) v = true ->
  exists q, Patent.range_query field v = Return q.
Proof.
  unfold optional, has_bounds, Patent.range_query. destruct (truthy v); [|by eexists]. cbn.
  destruct (subscript v "min") as [lo|]; [|done].
  destruct (subscript v "max") as [hi|]; [|done]. by eexists.
Qed.

Lemma distance_query_location (field : list string) (v : value) :
  is_location v = true -> exists q, Patent.distance_query field v = Return q.
Proof.
  unfold is_location, Patent.distance_query.
  destruct (subscript v "lng") as [[]|]; try done;
    destruct (subscript v "lat") as [[]|]; try done;
    destruct (subscript v "radius") as [[]|]; try done; by eexists.
Qed.

(** Turns the checks of a well-formed bundle into what its keys hold. *)
Ltac shapes H :=
  repeat match type of H with
         | (_ && _ = true) =>
             let H' := fresh "H" in
             apply andb_prop in H; destruct H as [H H']
         end;
  unfold shaped in *;
  repeat match goal with
         | H : match ?d !! ?k with _ => _ end = true |- _ =>
             let v := fresh "v" in
             destruct (d !! k) as [v|] eqn:?; [|discriminate H]
         end.

Ltac returning :=
  repeat first
    [ progress cbn -[String.append String.concat]
    | match goal with
      | H : ?d !! ?k = _ |- context [?d !! ?k] => rewrite H
      | H : is_strings ?v = true |- _ =>
          apply is_strings_strings in H; destruct H as [? ->]
      | H : optional (has_bounds ?ok) ?v = true
        |- context [Patent.range_query ?f ?v] =>
          let q := fresh "q" in
          let Hq := fresh "Hq" in
          destruct (range_query_has_bounds ok f v H) as [q Hq]; rewrite Hq
      | |- context [str_join ?sep (VList (VStr <$> ?l))] =>
          rewrite (str_join_strings sep l)
      | |- context [all_str (VStr <$> ?l)] => rewrite (all_str_strings l)
      | H : is_string ?v = true |- _ => destruct v; try discriminate H; clear H
      end ].

Lemma patent_query_well_formed (d : dict) :
  patent_well_formed d = true -> exists q, (Patent.patent_query d).2 = Return q.
Proof.
  unfold patent_well_formed. intros Hd. shapes Hd.
  unfold Patent.patent_query. unfold_py. returning. by eexists.
Qed.

Lemma pct_query_well_formed (d : dict) :
  pct_well_formed d = true -> exists q, (Patent.pct_query d).2 = Return q.
Proof.
  unfold pct_well_formed. intros Hd. shapes Hd.
  unfold Patent.pct_query. unfold_py. returning. by eexists.
Qed.

Lemma cpc_query_well_formed (d : dict) :
  cpc_well_formed d = true -> exists q, (Patent.cpc_query d).2 = Return q.
Proof.
  unfold cpc_well_formed. intros Hd. shapes Hd.
  unfold Patent.cpc_query, Patent.level_query. unfold_py. returning.
  repeat match goal with
         | |- context [match VStr <$> ?l with _ => _ end] => is_var l; destruct l; cbn
         end; by eexists.
Qed.

(** Decides the tests of a names entry and of a location entry. *)
Ltac deciding :=
  repeat match goal with
         | H : optional _ ?v = true |- context [truthy ?v] =>
             unfold optional in H; destruct (truthy v) eqn:?; cbn [negb orb] in H
         | H : is_location ?v = true |- context [Patent.distance_query ?f ?v] =>
             let q := fresh "q" in
             let Hq := fresh "Hq" in
             destruct (distance_query_location f v H) as [q Hq]; rewrite Hq
         | H : ?d !! ?k = _ |- context [?d !! ?k] => rewrite H
         | H : truthy ?v = _ |- context [truthy ?v] => rewrite H
         end.

Lemma inventor_query_well_formed (d : dict) :
  inventor_well_formed d = true -> exists q, (Patent.inventor_query d).2 = Return q.
Proof.
  unfold inventor_well_formed. intros Hd. shapes Hd.
  unfold Patent.inventor_query, Patent.first_name_query. unfold_py.
  deciding; returning; deciding; returning; by eexists.
Qed.

Lemma assignee_query_well_formed (d : dict) :
  assignee_well_formed d = true -> exists q, (Patent.assignee_query d).2 = Return q.
Proof.
  unfold assignee_well_formed. intros Hd. shapes Hd.
  unfold Patent.assignee_query, Patent.first_name_query. unfold_py.
  deciding; returning; deciding; returning; by eexists.
Qed.

(** What [deduplicate] makes of four lists of codes. *)
Lemma deduplicate_selection (d : dict) (sections classes subclasses groups : list string) :
  Patent.deduplicate (with_selection d sections classes subclasses groups)
  = (with_selection d sections
       (not_implied sections classes)
       (not_implied (sections ++ classes) subclasses)
       (not_implied (sections ++ classes ++ subclasses) groups),
     Return tt).
Proof.
  rewrite deduplicate_unroll. unfold with_selection.
  set (C := not_implied sections classes).
  set (S1 := not_implied sections subclasses).
  set (G1 := not_implied sections groups).
  repeat first
    [ rewrite bind_assoc
    | erewrite bind_step;
      [|apply prune_below_strings; simplify_map_eq; reflexivity]
    | rewrite bind_ret
    | progress cbn beta ].
  subst C S1 G1.
  rewrite (not_implied_app sections classes subclasses).
  rewrite (not_implied_app sections classes groups).
  rewrite (not_implied_app (sections ++ classes) subclasses groups).
  rewrite <- app_assoc.
  unfold ret. f_equal. apply map_eq. intros k.
  destruct (decide (k = "cpc_group")) as [->|]; [by simplify_map_eq|].
  destruct (decide (k = "cpc_subclass")) as [->|]; [by simplify_map_eq|].
  destruct (decide (k = "cpc_class")) as [->|]; [by simplify_map_eq|].
  destruct (decide (k = "cpc_section")) as [->|]; by simplify_map_eq.
Qed.

Lemma with_selection_id (d : dict) (sections classes subclasses groups : list string) :
  d !! "cpc_section" = Some (VList (VStr <$> sections)) ->
  d !! "cpc_class" = Some (VList (VStr <$> classes)) ->
  d !! "cpc_subclass" = Some (VList (VStr <$> subclasses)) ->
  d !! "cpc_group" = Some (VList (VStr <$> groups)) ->
  with_selection d sections classes subclasses groups = d.
Proof.
  intros Hs Hc Hsc Hg. unfold with_selection.
  rewrite (insert_id d "cpc_group") by done.
  rewrite (insert_id d "cpc_subclass") by done.
  rewrite (insert_id d "cpc_class") by done.
  by rewrite (insert_id d "cpc_section").
Qed.

Lemma is_strings_fmap (l : list string) : forallb is_string (VStr <$> l) = true.
Proof. by induction l. Qed.

(** On lists of codes [deduplicate] returns, and leaves lists of codes. *)
Lemma deduplicate_well_formed (d : dict) :
  cpc_well_formed d = true ->
  (Patent.deduplicate d).2 = Return tt
  /\ cpc_well_formed (Patent.deduplicate d).1 = true.
Proof.
  unfold cpc_well_formed at 1. intros Hd. shapes Hd. returning.
  match goal with
  | Hs : d !! "cpc_section" = Some (VList (VStr <$> ?s)),
    Hc : d !! "cpc_class" = Some (VList (VStr <$> ?c)),
    Hsc : d !! "cpc_subclass" = Some (VList (VStr <$> ?sc)),
    Hg : d !! "cpc_group" = Some (VList (VStr <$> ?g)) |- _ =>
      rewrite <- (with_selection_id d s c sc g Hs Hc Hsc Hg)
  end.
  rewrite deduplicate_selection. split; [done|]. cbn [fst].
  unfold cpc_well_formed, shaped, with_selection.
  simplify_map_eq.
  by rewrite !is_strings_fmap.
Qed.

Lemma deduplicate_elsewhere (d : dict) (k : string) :
  existsb (String.eqb k) ["cpc_class"; "cpc_subclass"; "cpc_group"] = false ->
  (Patent.deduplicate d).1 !! k = d !! k.
Proof. by apply (deduplicate_writes ["cpc_class"; "cpc_subclass"; "cpc_group"]). Qed.

Lemma admissible_well_formed (d : dict) : admissible d = true -> well_formed d = true.
Proof.
  unfold admissible. intros Hd.
  do 5 (apply andb_prop in Hd as [Hd _]). exact Hd.
Qed.

(** X1: On an admissible bundle (well-formed, with values the libraries take)
    [filter] raises nothing but the [FieldError] of the keyword condition,
    whose second half names [abstract], a column the model does not have:
    with keywords it raises it, and without keywords it returns the query
    set of the compiled condition.  Every other condition it builds
    resolves. *)
Theorem filter_raises_only_for_keywords (d : dict) :
  admissible d = true ->
  exists q,
    (Patent.compile d).2 = Return q
    /\ (Patent.filter d).2
       = if falsy_at d "patent_keywords" then Return {| query_where := q |}
         else Raise (FieldError "abstract").
Proof.
  intros Hd. apply admissible_well_formed in Hd. unfold well_formed in Hd.
  apply andb_prop in Hd as [Hd Hassignee]. apply andb_prop in Hd as [Hd Hinventor].
  apply andb_prop in Hd as [Hd Hpct]. apply andb_prop in Hd as [Hpatent Hcpc].
  assert (exists words, d !! "patent_keywords" = Some words) as [words Hwords].
  { unfold patent_well_formed in Hpatent. shapes Hpatent. by eexists. }
  destruct (patent_query_well_formed d Hpatent) as [pq Hpq].
  destruct (deduplicate_well_formed d Hcpc) as [Hdedup Hcpc'].
  destruct (cpc_query_well_formed _ Hcpc') as [cq Hcq].
  assert (pct_well_formed (Patent.deduplicate d).1 = true) as Hpct'.
  { revert Hpct. unfold pct_well_formed, shaped.
    by rewrite !deduplicate_elsewhere. }
  assert (inventor_well_formed (Patent.deduplicate d).1 = true) as Hinventor'.
  { revert Hinventor. unfold inventor_well_formed, shaped.
    by rewrite !deduplicate_elsewhere. }
  assert (assignee_well_formed (Patent.deduplicate d).1 = true) as Hassignee'.
  { revert Hassignee. unfold assignee_well_formed, shaped.
    by rewrite !deduplicate_elsewhere. }
  destruct (pct_query_well_formed _ Hpct') as [tq Htq].
  destruct (inventor_query_well_formed _ Hinventor') as [iq Hiq].
  destruct (assignee_query_well_formed _ Hassignee') as [aq Haq].
  assert (compiled d
          = Return (q_and (q_and (q_and (q_and pq cq) tq) iq) aq)) as Hq.
  { unfold compiled. by rewrite Hpq, Hdedup, Hcq, Htq, Hiq, Haq. }
  eexists. split; [by rewrite compile_compiled|].
  rewrite filter_compile, compile_compiled, Hq. cbn [rbind]. unfold objects_filter.
  rewrite (check_compiled d _ words Hq Hwords).
  unfold falsy_at. rewrite Hwords. by destruct (truthy words).
Qed.

(** The bundle of the specification's example is admissible, and raises. *)
Lemma filter_raises_only_for_keywords_witness :
  admissible Sample.golf_or_tennis = true
  /\ exists q,
       (Patent.compile Sample.golf_or_tennis).2 = Return q
       /\ (Patent.filter Sample.golf_or_tennis).2
          = if falsy_at Sample.golf_or_tennis "patent_keywords"
            then Return {| query_where := q |}
            else Raise (FieldError "abstract").
Proof.
  split; [reflexivity|].
  exact (filter_raises_only_for_keywords Sample.golf_or_tennis eq_refl).
Defined.

(** ** De-duplicating twice *)

Lemma existsb_not_implied (p : string -> bool) (coarser codes : list string) :
  existsb p (not_implied coarser codes) = true -> existsb p codes = true.
Proof.
  rewrite !existsb_exists. intros (c & Hc & Hp). exists c. split; [|done].
  unfold not_implied in Hc. by apply filter_In in Hc as [Hc _].
Qed.

(** Codes already pruned by a list are not pruned further by a list that
    implies no more. *)
Lemma not_implied_again (coarser' coarser codes : list string) :
  (forall code,
     existsb (fun c => String.prefix c code) coarser' = true ->
     existsb (fun c => String.prefix c code) coarser = true) ->
  not_implied coarser' (not_implied coarser codes) = not_implied coarser codes.
Proof.
  intros Hsub. induction codes as [|code codes IH]; [done|].
  rewrite (not_implied_step coarser).
  destruct (existsb (fun c => String.prefix c code) coarser) eqn:Hcode; [done|].
  rewrite not_implied_step, IH.
  destruct (existsb (fun c => String.prefix c code) coarser') eqn:Hcode'; [|done].
  apply Hsub in Hcode'. congruence.
Qed.

(** On lists of codes that [deduplicate] has pruned it changes nothing. *)
Lemma deduplicate_pruned (d : dict) (sections classes subclasses groups : list string) :
  let pruned :=
    with_selection d sections
      (not_implied sections classes)
      (not_implied (sections ++ classes) subclasses)
      (not_implied (sections ++ classes ++ subclasses) groups) in
  Patent.deduplicate pruned = (pruned, Return tt).
Proof.
  cbv zeta. rewrite deduplicate_selection.
  set (C := not_implied sections classes).
  set (S := not_implied (sections ++ classes) subclasses).
  assert (not_implied sections C = C) as ->.
  { by apply not_implied_again. }
  assert (not_implied (sections ++ C) S = S) as ->.
  { apply not_implied_again. intros code. rewrite !existsb_app, !orb_true_iff.
    intros [?|Hc]; [by left|right]. by eapply existsb_not_implied. }
  assert (not_implied (sections ++ C ++ S)
            (not_implied (sections ++ classes ++ subclasses) groups)
          = not_implied (sections ++ classes ++ subclasses) groups) as ->; [|done].
  apply not_implied_again. intros code. rewrite !existsb_app, !orb_true_iff.
  intros [?|[Hc|Hs]]; [by left| |].
  - right. left. by eapply existsb_not_implied.
  - right. right. by eapply existsb_not_implied.
Qed.

(** X3: [deduplicate] is idempotent on lists of codes: what one call leaves,
    a second call leaves as it is. *)
Theorem deduplicate_twice (d : dict) (sections classes subclasses groups : list string) :
  let once := Patent.deduplicate (with_selection d sections classes subclasses groups) in
  Patent.deduplicate once.1 = (once.1, Return tt).
Proof. cbv zeta. rewrite deduplicate_selection. cbn [fst]. apply deduplicate_pruned. Qed.

(** ** How often a patent is selected *)

Lemma compiled_of_fragments (d : dict) :
  compiled d
  = rbind (fragments d) (fun '(pq, cq, tq, iq, aq) =>
      Return (q_and (q_and (q_and (q_and pq cq) tq) iq) aq)).
Proof.
  unfold compiled, fragments.
  destruct (Patent.patent_query d).2; [|done].
  destruct (Patent.deduplicate d).2; [|done]. cbn.
  destruct (Patent.cpc_query _).2; [|done].
  destruct (Patent.pct_query _).2; [|done].
  destruct (Patent.inventor_query _).2; [|done].
  by destruct (Patent.assignee_query _).2.
Qed.

Section Parts.
Context `{Datastore}.

(** A resolved path reads the part of the row of its relation. *)
Lemma resolve_part (path : list string) (f : Row -> cell) (r : Row) :
  resolve path = Return f -> f r = f (part (root_of path) r).
Proof.
  destruct path as [|name rest]; [done|]. cbn [resolve root_of].
  destruct (relation_named name) as [[]|];
    destruct rest as [|n1 [|n2 [|n3 rest]]];
    unfold resolve_person, resolve_column;
    repeat match goal with
           | |- context [column ?cols ?n] => destruct (column cols n)
           | |- context [if ?b then _ else _] => destruct b
           end;
    try done; by intros [= <-].
Qed.

Lemma eval_part (rel : option relation) (q : Q) (r : Row) :
  through_relation rel q -> eval q r = eval q (part rel r).
Proof.
  unfold through_relation. induction q as [|path lk v|a IHa b IHb|a IHa b IHb];
    cbn [leaves eval]; [done| | |].
  - intros Hq. apply Forall_cons in Hq as [<- _]. cbn [fst].
    destruct (resolve path) as [f|] eqn:Hf; [|done].
    by rewrite (resolve_part path f r Hf).
  - intros Hq. apply Forall_app in Hq as [Ha Hb]. by rewrite IHa, IHb.
  - intros Hq. apply Forall_app in Hq as [Ha Hb]. by rewrite IHa, IHb.
Qed.

Lemma eval_no_leaves (q : Q) (r : Row) : leaves q = [] -> eval q r = true.
Proof.
  induction q as [|path lk v|a IHa b IHb|a IHa b IHb]; cbn [leaves eval];
    [done|done| |]; intros Hq; apply app_eq_nil in Hq as [Ha Hb];
    by rewrite IHa, IHb.
Qed.

Lemma holds_null (lk : lookup) (v : rhs) : holds lk CNull v = false.
Proof.
  destruct lk, v as [v|]; try done; cbn.
  - by destruct v.
  - by destruct v.
  - by destruct v.
  - by destruct v.
  - destruct (py_iter v) as [items|]; [|done].
    induction items as [|x items IH]; [done|]. cbn. rewrite IH. by destruct x.
Qed.

Lemma resolve_null (rel : relation) (path : list string) (f : Row -> cell) (r : Row) :
  root_of path = Some rel -> null_part rel r -> resolve path = Return f -> f r = CNull.
Proof.
  destruct path as [|name rest]; [done|]. cbn [resolve root_of]. intros -> Hr.
  destruct rel; cbn in Hr; [| |destruct Hr as [Hr Hr']..];
    destruct rest as [|n1 [|n2 [|n3 rest]]];
    unfold resolve_person, resolve_column;
    repeat match goal with
           | |- context [column ?cols ?n] => destruct (column cols n)
           | |- context [if ?b then _ else _] => destruct b
           end;
    try done; intros [= <-]; unfold through; by rewrite ?Hr, ?Hr'.
Qed.

(** A conjunction of conditions through a relation holds of no row without
    a related row. *)
Lemma eval_null (rel : relation) (q : Q) (r : Row) :
  conjunctive q = true -> through_relation (Some rel) q -> leaves q <> [] ->
  null_part rel r -> eval q r = false.
Proof.
  unfold through_relation. intros Hc Hq Hleaves Hr.
  induction q as [|path lk v|a IHa b IHb|a IHa b IHb]; cbn [leaves eval conjunctive] in *.
  - by destruct Hleaves.
  - apply Forall_cons in Hq as [Hpath _]. cbn [fst] in Hpath.
    destruct (resolve path) as [f|] eqn:Hf; [|done].
    by rewrite (resolve_null rel path f r Hpath Hr Hf), holds_null.
  - apply andb_prop in Hc as [Hca Hcb]. apply Forall_app in Hq as [Ha Hb].
    destruct (leaves a) as [|l ls] eqn:Hla.
    + rewrite IHb by done. apply andb_false_r.
    + by rewrite IHa.
  - done.
Qed.

Lemma joins_rooted (rel : relation) (q : Q) :
  through_relation (Some rel) q ->
  joins q rel = match leaves q with [] => false | _ => true end.
Proof.
  unfold through_relation, joins. destruct (leaves q) as [|l ls]; [done|].
  intros Hq. apply Forall_cons in Hq as [Hl _]. cbn [existsb].
  unfold path_joins. unfold root_of in Hl. destruct l.1.1 as [|name rest]; [done|].
  rewrite Hl. by destruct rel.
Qed.

Lemma joins_elsewhere (rel : option relation) (rel' : relation) (q : Q) :
  through_relation rel q -> rel <> Some rel' -> joins q rel' = false.
Proof.
  unfold through_relation, joins. intros Hq Hrel.
  induction Hq as [|l ls Hl Hls IH]; [done|]. cbn [existsb]. rewrite IH, orb_false_r.
  unfold path_joins. unfold root_of in Hl. destruct l.1.1 as [|name rest]; [done|].
  rewrite Hl. destruct rel as [rel|]; [|done].
  destruct rel, rel'; try done; by destruct Hrel.
Qed.

Lemma joins_q_and (a b : Q) (rel : relation) :
  joins (q_and a b) rel = joins a rel || joins b rel.
Proof. unfold joins. by rewrite leaves_q_and, existsb_app. Qed.

(** One side of the join counts as [matches] says. *)
Lemma side_matches {A} (rel : relation) (q : Q) (row : option A -> Row)
    (related : list A) :
  conjunctive q = true -> through_relation (Some rel) q ->
  null_part rel (row None) ->
  length (List.filter (fun a => eval q (row a)) (side (joins q rel) related))
  = matches q rel row related.
Proof.
  intros Hc Hq Hnull. unfold matches, side. rewrite (joins_rooted rel q Hq).
  destruct (leaves q) as [|l ls] eqn:Hleaves.
  - cbn. by rewrite eval_no_leaves.
  - destruct related as [|a related].
    + cbn. rewrite (eval_null rel q (row None)); [done..| |done]. by rewrite Hleaves.
    + generalize (a :: related). intros l'. induction l' as [|a' l' IH]; [done|].
      cbn. destruct (eval q (row (Some a'))); cbn; by rewrite <- IH.
Qed.

End Parts.

Lemma rooted_through (name : string) (rel : relation) (q : Q) :
  relation_named name = Some rel -> rooted [name] q -> through_relation (Some rel) q.
Proof.
  intros Hname. unfold rooted, through_relation. intros Hq.
  eapply Forall_impl; [exact Hq|]. intros l Hl.
  cbn in Hl. rewrite orb_false_r in Hl. apply String.eqb_eq in Hl.
  destruct l.1.1 as [|name' rest]; cbn in *; [by subst|]. by subst.
Qed.

Lemma rooted_patent (q : Q) :
  rooted ("abstract" :: patent_columns_named) q -> through_relation None q.
Proof.
  unfold rooted, through_relation. intros Hq.
  eapply Forall_impl; [exact Hq|]. intros l Hl. cbv beta in Hl.
  destruct l.1.1 as [|name rest]; [done|]. cbn [hd root_of] in *.
  apply existsb_exists in Hl as (name' & Hin & Heq). apply String.eqb_eq in Heq as <-.
  revert name Hin. apply Stdlib.Lists.List.Forall_forall.
  unfold patent_columns_named. cbn. by repeat constructor.
Qed.

Lemma conjunction_q_and (a b : Q) : conjunction a -> conjunction b -> conjunction (q_and a b).
Proof.
  unfold conjunction. destruct a, b; cbn; try done; intros Ha Hb;
    by rewrite ?Ha, ?Hb.
Qed.

Lemma range_query_conjunction (field : list string) (v : value) (q : Q) :
  Patent.range_query field v = Return q -> conjunction q.
Proof.
  unfold Patent.range_query. destruct (truthy v); [|by intros [= <-]].
  destruct (subscript v "min") as [lo|]; [|done].
  destruct (subscript v "max") as [hi|]; [|done]. cbn. intros [= <-].
  by destruct (truthy lo), (truthy hi).
Qed.

Lemma level_query_conjunction (codes : value) (q : Q) :
  Patent.level_query codes = Return q -> conjunction q.
Proof.
  unfold Patent.level_query. destruct (str_join "|" codes); [|done]. by intros [= <-].
Qed.

Lemma first_name_query_conjunction (field : list string) (names : value) (q : Q) :
  Patent.first_name_query field names = Return q -> conjunction q.
Proof.
  unfold Patent.first_name_query. destruct (str_join "" names); [|done].
  by intros [= <-].
Qed.

Lemma distance_query_conjunction (field : list string) (location : value) (q : Q) :
  Patent.distance_query field location = Return q -> conjunction q.
Proof.
  unfold Patent.distance_query.
  destruct (subscript location "lng") as [lng|]; [|done].
  destruct (subscript location "lat") as [lat|]; [|done]. cbn.
  destruct (as_number lng); [|done]. destruct (as_number lat); [|done]. cbn.
  destruct (subscript location "radius") as [radius|]; [|done]. cbn.
  destruct (as_number radius); [|done]. by intros [= <-].
Qed.

Ltac conjoining :=
  yielding ltac:(first
    [ apply conjunction_q_and
    | reflexivity
    | eapply range_query_conjunction; eassumption
    | eapply level_query_conjunction; eassumption
    | eapply first_name_query_conjunction; eassumption
    | eapply distance_query_conjunction; eassumption ]).

Lemma cpc_query_conjunction : yields conjunction Patent.cpc_query.
Proof. unfold Patent.cpc_query. conjoining. Qed.

Lemma pct_query_conjunction : yields conjunction Patent.pct_query.
Proof. unfold Patent.pct_query. conjoining. Qed.

Lemma inventor_query_conjunction : yields conjunction Patent.inventor_query.
Proof. unfold Patent.inventor_query. conjoining. Qed.

Lemma assignee_query_conjunction : yields conjunction Patent.assignee_query.
Proof. unfold Patent.assignee_query. conjoining. Qed.

Section Counting.
Context `{Datastore}.

Lemma count_flat_map {X} (P : Row -> bool) (rows : X -> list Row) (f : X -> bool)
    (c n : nat) (xs : list X) :
  (forall x, length (List.filter P (rows x)) = c * count_true (f x) * n) ->
  length (List.filter P (flat_map rows xs)) = c * length (List.filter f xs) * n.
Proof.
  intros Hrows. induction xs as [|x xs IH]; cbn [flat_map List.filter length]; [lia|].
  rewrite List.filter_app, length_app, IH, Hrows.
  destruct (f x); cbn [count_true length]; lia.
Qed.

(** The rows of one patent that a conjunction of five fragments selects:
    each fragment reads its own part of the row, so their numbers
    multiply. *)
Lemma rows_multiplicity (db : Database) (pq cq tq iq aq : Q) (p : Model.Patent.t) :
  through_relation None pq ->
  conjunction cq -> through_relation (Some Rel_cpc_groups) cq ->
  conjunction tq -> through_relation (Some Rel_pct_data) tq ->
  conjunction iq -> through_relation (Some Rel_inventors) iq ->
  conjunction aq -> through_relation (Some Rel_assignees) aq ->
  let q := q_and (q_and (q_and (q_and pq cq) tq) iq) aq in
  length (List.filter (eval q) (joined_rows db (joins q) p))
  = multiplicity db (pq, cq, tq, iq, aq) p.
Proof.
  intros Hp Hcc Hc Htc Ht Hic Hi Hac Ha q.
  assert (forall r,
    eval q r
    = eval pq (part None r) && eval cq (part (Some Rel_cpc_groups) r)
      && eval tq (part (Some Rel_pct_data) r) && eval iq (part (Some Rel_inventors) r)
      && eval aq (part (Some Rel_assignees) r)) as Heval.
  { intros r. subst q. rewrite !eval_q_and.
    by rewrite <- (eval_part None pq), <- (eval_part _ cq), <- (eval_part _ tq),
      <- (eval_part _ iq), <- (eval_part _ aq). }
  assert (joins q Rel_cpc_groups = joins cq Rel_cpc_groups) as Hjc.
  { subst q. rewrite !joins_q_and.
    rewrite (joins_elsewhere None _ pq), (joins_elsewhere (Some Rel_pct_data) _ tq),
      (joins_elsewhere (Some Rel_inventors) _ iq),
      (joins_elsewhere (Some Rel_assignees) _ aq) by done.
    by rewrite !orb_false_r. }
  assert (joins q Rel_pct_data = joins tq Rel_pct_data) as Hjt.
  { subst q. rewrite !joins_q_and.
    rewrite (joins_elsewhere None _ pq), (joins_elsewhere (Some Rel_cpc_groups) _ cq),
      (joins_elsewhere (Some Rel_inventors) _ iq),
      (joins_elsewhere (Some Rel_assignees) _ aq) by done.
    by rewrite !orb_false_r. }
  assert (joins q Rel_inventors = joins iq Rel_inventors) as Hji.
  { subst q. rewrite !joins_q_and.
    rewrite (joins_elsewhere None _ pq), (joins_elsewhere (Some Rel_cpc_groups) _ cq),
      (joins_elsewhere (Some Rel_pct_data) _ tq),
      (joins_elsewhere (Some Rel_assignees) _ aq) by done.
    by rewrite !orb_false_r. }
  assert (joins q Rel_assignees = joins aq Rel_assignees) as Hja.
  { subst q. rewrite !joins_q_and.
    rewrite (joins_elsewhere None _ pq), (joins_elsewhere (Some Rel_cpc_groups) _ cq),
      (joins_elsewhere (Some Rel_pct_data) _ tq),
      (joins_elsewhere (Some Rel_inventors) _ iq) by done.
    by rewrite !orb_false_r. }
  unfold joined_rows, multiplicity. rewrite Hjc, Hjt, Hji, Hja.
  rewrite <- (side_matches Rel_cpc_groups cq (cpc_row p)) by done.
  rewrite <- (side_matches Rel_pct_data tq (pct_row p)) by done.
  rewrite <- (side_matches Rel_inventors iq (inventor_row db p)) by done.
  rewrite <- (side_matches Rel_assignees aq (assignee_row db p)) by done.
  set (P := eval pq (bare_row p)).
  set (C := fun g => eval cq (cpc_row p g)).
  set (T := fun t => eval tq (pct_row p t)).
  set (I := fun i => eval iq (inventor_row db p i)).
  set (A := fun a => eval aq (assignee_row db p a)).
  set (gs := side _ (cpc_groups_of db p)). set (ts := side _ (pct_data_of db p)).
  set (ins := side _ (inventors_of db p)). set (ans := side _ (assignees_of db p)).
  rewrite (count_flat_map (eval q) _ C (count_true P)
             (length (List.filter T ts) * length (List.filter I ins)
              * length (List.filter A ans))); [lia|].
  intros g.
  rewrite (count_flat_map (eval q) _ T (count_true P * count_true (C g))
             (length (List.filter I ins) * length (List.filter A ans))); [lia|].
  intros t.
  rewrite (count_flat_map (eval q) _ I (count_true P * count_true (C g) * count_true (T t))
             (length (List.filter A ans))); [lia|].
  intros i.
  rewrite (count_flat_map (eval q) _ A
             (count_true P * count_true (C g) * count_true (T t) * count_true (I i)) 1);
    [lia|].
  intros a. cbn [List.filter]. rewrite Heval. cbn [part row_patent row_cpc_groups
    row_pct_data row_inventors row_inventors_location row_assignees
    row_assignees_location].
  fold (bare_row p) (cpc_row p g) (pct_row p t) (inventor_row db p i)
    (assignee_row db p a).
  fold P. change (eval cq (cpc_row p g)) with (C g).
  change (eval tq (pct_row p t)) with (T t).
  change (eval iq (inventor_row db p i)) with (I i).
  change (eval aq (assignee_row db p a)) with (A a).
  by destruct P, (C g), (T t), (I i), (A a).
Qed.

Lemma joined_rows_patent (db : Database) (joined : relation -> bool) (p : Model.Patent.t)
    (P : Row -> bool) :
  row_patent <$> List.filter P (joined_rows db joined p)
  = repeat p (length (List.filter P (joined_rows db joined p))).
Proof.
  assert (Forall (fun r => row_patent r = p) (joined_rows db joined p)) as Hrows.
  { apply Forall_forall. intros r Hr. apply list_elem_of_In in Hr. unfold joined_rows in Hr.
    apply in_flat_map in Hr as (g & _ & Hr). apply in_flat_map in Hr as (t & _ & Hr).
    apply in_flat_map in Hr as (i & _ & Hr). apply in_flat_map in Hr as (a & _ & Hr).
    by destruct Hr as [<-|[]]. }
  induction Hrows as [|r rows Hr Hrows IH]; [done|]. cbn [List.filter].
  destruct (P r); [|done]. cbn. by rewrite Hr, IH.
Qed.

(** X5: For every admissible bundle on which [filter] returns, a patent of the
    table is in the result as often as the product says: not at all when
    its own columns fail the conditions of the patent fragment, and
    otherwise once for every combination of a classification link, a PCT
    document, an inventor and an assignee of the patent that each satisfy
    all the conditions of their fragment, a relation without a condition
    counting once.  The query has no ordering: the order of the result is
    left open. *)
Theorem filter_selects_by_multiplicity (db : Database) (d : dict)
    (fs : Q * Q * Q * Q * Q) (selected : QuerySet) :
  admissible d = true ->
  fragments d = Return fs ->
  (Patent.filter d).2 = Return selected ->
  execute db selected ≡ₚ flat_map (fun p => repeat p (multiplicity db fs p)) (patents db).
Proof.
  intros _ Hfs. rewrite filter_compile, compile_compiled, compiled_of_fragments, Hfs.
  destruct fs as [[[[pq cq] tq] iq] aq]. cbn [rbind]. unfold objects_filter.
  destruct (check _); [|done]. cbn [rbind]. intros [= <-]. apply Permutation_eq_refl.
  unfold fragments in Hfs.
  destruct (Patent.patent_query d).2 as [pq'|] eqn:Hp; [|done].
  destruct (Patent.deduplicate d).2 as [[]|]; [|done]. cbn [rbind] in Hfs.
  destruct (Patent.cpc_query _).2 as [cq'|] eqn:Hc; [|done].
  destruct (Patent.pct_query _).2 as [tq'|] eqn:Ht; [|done].
  destruct (Patent.inventor_query _).2 as [iq'|] eqn:Hi; [|done].
  destruct (Patent.assignee_query _).2 as [aq'|] eqn:Ha; [|done].
  cbn [rbind] in Hfs. injection Hfs as -> -> -> -> ->.
  unfold execute, select. cbn [query_where].
  induction (patents db) as [|p ps IH]; [done|].
  cbn [flat_map]. rewrite fmap_app, IH. f_equal.
  rewrite joined_rows_patent. f_equal.
  apply rows_multiplicity.
  - by eapply rooted_patent, patent_query_rooted.
  - by eapply cpc_query_conjunction.
  - by eapply (rooted_through "cpc_groups"), cpc_query_rooted.
  - by eapply pct_query_conjunction.
  - by eapply (rooted_through "pct_data"), pct_query_rooted.
  - by eapply inventor_query_conjunction.
  - by eapply (rooted_through "inventors"), inventor_query_rooted.
  - by eapply assignee_query_conjunction.
  - by eapply (rooted_through "assignees"), assignee_query_rooted.
Qed.

End Counting.

(** The first patent of the sample has one link under [B] and two inventors
    nearby, the second has none nearby. *)
Lemma filter_selects_by_multiplicity_witness :
  let cpc_query :=
    QLeaf ["cpc_groups"; "cpc_group"; "group"] IRegex (Lit (VStr "^(B)")) in
  let inventor_query :=
    QLeaf ["inventors"; "location"; "point"] DistanceLte
      (Geo {| x := number_of_Z 23; y := number_of_Z 37 |} (number_of_Z 5)) in
  let fs := (QEmpty, cpc_query, QEmpty, inventor_query, QEmpty) in
  let selected := {| query_where := QAnd cpc_query inventor_query |} in
  (admissible section_b_nearby = true
   /\ fragments section_b_nearby = Return fs
   /\ (Patent.filter section_b_nearby).2 = Return selected)
  /\ execute (H := Sample.store) Sample.db selected
     ≡ₚ flat_map (fun p => repeat p (multiplicity (H := Sample.store) Sample.db fs p))
         (patents Sample.db).
Proof.
  intros cpc_query inventor_query fs selected. split; [repeat split; reflexivity|].
  exact (filter_selects_by_multiplicity (H := Sample.store) Sample.db section_b_nearby
           fs selected eq_refl eq_refl eq_refl).
Defined.

(** ** The patents of the representation *)

Lemma group_keys_elem (k : Z) (ks : list Z) : k ∈ group_keys ks <-> k ∈ ks.
Proof.
  unfold group_keys. induction ks as [|k' ks IH]; [done|].
  cbn [foldr]. rewrite insert_key_elem, elem_of_cons, IH. done.
Qed.

Lemma sorted_same_elements (l l' : list Z) :
  StronglySorted Z.lt l -> StronglySorted Z.lt l' ->
  (forall k, k ∈ l <-> k ∈ l') -> l = l'.
Proof.
  intros Hl. revert l'. induction Hl as [|k l Hl IH Hk]; intros l' Hl' Hsame.
  - destruct l' as [|k' l']; [done|]. exfalso.
    by apply (elem_of_nil k'), Hsame, elem_of_cons; left.
  - destruct Hl' as [|k' l' Hl' Hk'].
    + exfalso. by apply (elem_of_nil k), Hsame, elem_of_cons; left.
    + rewrite Forall_forall in Hk. rewrite Forall_forall in Hk'.
      assert (k = k') as <-.
      { assert (k ∈ k' :: l') as Hin by (apply Hsame; by left).
        assert (k' ∈ k :: l) as Hin' by (apply Hsame; by left).
        apply elem_of_cons in Hin as [?|Hin]; [done|].
        apply elem_of_cons in Hin' as [?|Hin']; [done|].
        apply Hk in Hin'. apply Hk' in Hin. lia. }
      f_equal. apply IH; [done|]. intros j. split; intros Hj.
      * assert (j ∈ k :: l') as Hin by (apply Hsame; by right).
        apply elem_of_cons in Hin as [->|?]; [|done]. apply Hk in Hj. lia.
      * assert (j ∈ k :: l) as Hin by (apply Hsame; by right).
        apply elem_of_cons in Hin as [->|?]; [|done]. apply Hk' in Hj. lia.
Qed.

(** The keys of the groups depend on which keys there are, not on how
    often or in which order. *)
Lemma group_keys_same_elements (l l' : list Z) :
  (forall k, k ∈ l <-> k ∈ l') -> group_keys l = group_keys l'.
Proof.
  intros Hsame. apply sorted_same_elements; [apply group_keys_sorted..|].
  intros k. by rewrite !group_keys_elem.
Qed.

Lemma annotated_joins_all (patents : QuerySet) (rel : relation) :
  annotated_joins (Patent.fetch_representation patents) rel = true.
Proof. unfold annotated_joins. destruct rel; cbn; apply orb_true_r. Qed.

Lemma side_joined {A} (related : list A) : exists a, List.In a (side true related).
Proof. destruct related as [|a related]; [by exists None; left|by exists (Some a); left]. Qed.

Lemma side_restrict {A} (joined : bool) (related : list A) (a : option A) :
  List.In a (side true related) ->
  List.In (if joined then a else None) (side joined related).
Proof. destruct joined; [done|]. intros _. by left. Qed.

Lemma side_extend {A} (joined : bool) (related : list A) (a : option A) :
  List.In a (side joined related) ->
  exists a', List.In a' (side true related) /\ (if joined then a' else None) = a.
Proof.
  destruct joined; [by exists a|]. intros [<-|[]].
  destruct (side_joined related) as [a' Ha']. by exists a'.
Qed.

Section Same.
Context `{Datastore}.

Lemma part_restrict (joined : relation -> bool) (rel : option relation) (r : Row) :
  match rel with Some rel' => joined rel' = true | None => True end ->
  part rel (restrict joined r) = part rel r.
Proof. destruct rel as [[]|]; cbn; try done; by intros ->. Qed.

Lemma joins_root (path : list string) (lk : lookup) (v : rhs) (rel : relation) :
  root_of path = Some rel -> joins (QLeaf path lk v) rel = true.
Proof.
  unfold joins, path_joins, root_of. cbn. destruct path as [|name rest]; [done|].
  intros ->. by destruct rel.
Qed.

(** A condition reads the joined parts of a row alone. *)
Lemma eval_restrict (joined : relation -> bool) (q : Q) (r : Row) :
  (forall rel, joins q rel = true -> joined rel = true) ->
  eval q (restrict joined r) = eval q r.
Proof.
  induction q as [|path lk v|a IHa b IHb|a IHa b IHb]; intros Hq; cbn [eval]; [done| | |].
  - destruct (resolve path) as [f|] eqn:Hf; [|done].
    rewrite (resolve_part path f (restrict joined r) Hf), (resolve_part path f r Hf).
    rewrite part_restrict; [done|].
    destruct (root_of path) as [rel|] eqn:Hroot; [|done].
    by eapply Hq, joins_root.
  - rewrite IHa, IHb; [done|intros rel Hrel; apply Hq..];
      unfold joins in *; cbn [leaves]; rewrite existsb_app, Hrel;
      [apply orb_true_r|done].
  - rewrite IHa, IHb; [done|intros rel Hrel; apply Hq..];
      unfold joins in *; cbn [leaves]; rewrite existsb_app, Hrel;
      [apply orb_true_r|done].
Qed.

Lemma joined_rows_elem (db : Database) (joined : relation -> bool) (p : Model.Patent.t)
    (r : Row) :
  List.In r (joined_rows db joined p)
  <-> exists g t i a,
        List.In g (side (joined Rel_cpc_groups) (cpc_groups_of db p))
        /\ List.In t (side (joined Rel_pct_data) (pct_data_of db p))
        /\ List.In i (side (joined Rel_inventors) (inventors_of db p))
        /\ List.In a (side (joined Rel_assignees) (assignees_of db p))
        /\ r = {| row_patent := p; row_cpc_groups := g; row_pct_data := t;
                  row_inventors := i;
                  row_inventors_location :=
                    match i with
                    | Some i' => location_of db (Model.Inventor.location i')
                    | None => None
                    end;
                  row_assignees := a;
                  row_assignees_location :=
                    match a with
                    | Some a' => location_of db (Model.Assignee.location a')
                    | None => None
                    end |}.
Proof.
  unfold joined_rows. split.
  - intros Hr. apply in_flat_map in Hr as (g & Hg & Hr).
    apply in_flat_map in Hr as (t & Ht & Hr). apply in_flat_map in Hr as (i & Hi & Hr).
    apply in_flat_map in Hr as (a & Ha & Hr). destruct Hr as [<-|[]].
    by exists g, t, i, a.
  - intros (g & t & i & a & Hg & Ht & Hi & Ha & ->).
    apply in_flat_map. exists g. split; [done|].
    apply in_flat_map. exists t. split; [done|].
    apply in_flat_map. exists i. split; [done|].
    apply in_flat_map. exists a. split; [done|]. by left.
Qed.

(** Joining every relation selects a row of a patent when joining those of
    the condition does. *)
Lemma selected_all_joined (db : Database) (q : Q) (all : relation -> bool)
    (p : Model.Patent.t) :
  (forall rel, all rel = true) ->
  (exists r, List.In r (joined_rows db all p) /\ eval q r = true)
  <-> (exists r, List.In r (joined_rows db (joins q) p) /\ eval q r = true).
Proof.
  intros Hall. split.
  - intros (r & Hr & Hq). exists (restrict (joins q) r).
    split; [|by rewrite eval_restrict]. apply joined_rows_elem in Hr
      as (g & t & i & a & Hg & Ht & Hi & Ha & ->).
    rewrite !Hall in *. apply joined_rows_elem.
    exists (if joins q Rel_cpc_groups then g else None),
      (if joins q Rel_pct_data then t else None),
      (if joins q Rel_inventors then i else None),
      (if joins q Rel_assignees then a else None).
    repeat (split; [by apply side_restrict|]).
    unfold restrict. cbn. by destruct (joins q Rel_inventors), (joins q Rel_assignees).
  - intros (r & Hr & Hq).
    apply joined_rows_elem in Hr as (g & t & i & a & Hg & Ht & Hi & Ha & ->).
    apply side_extend in Hg as (g' & Hg' & Hg). apply side_extend in Ht as (t' & Ht' & Ht).
    apply side_extend in Hi as (i' & Hi' & Hi). apply side_extend in Ha as (a' & Ha' & Ha).
    eexists. split.
    + apply joined_rows_elem. exists g', t', i', a'. rewrite !Hall. by repeat split.
    + rewrite <- (eval_restrict (joins q)) by done. rewrite <- Hq. f_equal.
      unfold restrict. cbn. subst g t i a.
      by destruct (joins q Rel_cpc_groups), (joins q Rel_pct_data),
        (joins q Rel_inventors), (joins q Rel_assignees).
Qed.

Lemma joined_rows_row_patent (db : Database) (joined : relation -> bool)
    (p : Model.Patent.t) (r : Row) :
  List.In r (joined_rows db joined p) -> row_patent r = p.
Proof. intros Hr. by apply joined_rows_elem in Hr as (g & t & i & a & _ & _ & _ & _ & ->). Qed.

Lemma select_ids (db : Database) (q : Q) (joined : relation -> bool) (k : Z) :
  k ∈ Model.Patent.id <$> (row_patent <$> select db q joined)
  <-> exists p r,
        List.In p (patents db) /\ Model.Patent.id p = k
        /\ List.In r (joined_rows db joined p) /\ eval q r = true.
Proof.
  rewrite <- list_fmap_compose, list_elem_of_fmap. unfold select. split.
  - intros (r & -> & Hr). apply list_elem_of_In, in_flat_map in Hr as (p & Hp & Hr).
    apply filter_In in Hr as [Hr Hq]. exists p, r. cbn.
    by rewrite (joined_rows_row_patent db joined p r Hr).
  - intros (p & r & Hp & <- & Hr & Hq). exists r. split.
    + cbn. by rewrite (joined_rows_row_patent db joined p r Hr).
    + apply list_elem_of_In, in_flat_map. exists p. split; [done|]. by apply filter_In.
Qed.

Lemma rows_of_elem (k : Z) (rows : list Row) :
  k ∈ Model.Patent.id <$> (row_patent <$> rows) -> rows_of k rows <> [].
Proof.
  rewrite <- list_fmap_compose, list_elem_of_fmap. intros (r & Hk & Hr) Hnone.
  cbn in Hk. subst k.
  assert (List.In r (rows_of (Model.Patent.id (row_patent r)) rows)) as Hin.
  { unfold rows_of. apply filter_In. split; [by apply list_elem_of_In|]. cbn. lia. }
  by rewrite Hnone in Hin.
Qed.

(** With [order_by("id")] the output has the keys of the groups, in their
    order. *)
Lemma execute_annotated_ids (db : Database) (a : AnnotatedQuerySet) :
  order_by a = "id" ->
  (fun o => Model.Patent.id (instance o)) <$> execute_annotated db a
  = group_keys
      (Model.Patent.id
       <$> (row_patent
            <$> select db (query_where (patents_annotated a)) (annotated_joins a))).
Proof.
  intros Ha. unfold execute_annotated. rewrite Ha. cbn [String.eqb Ascii.eqb Bool.eqb].
  set (rows := select db _ _).
  assert (Forall (fun k => k ∈ Model.Patent.id <$> (row_patent <$> rows))
            (group_keys (Model.Patent.id <$> (row_patent <$> rows)))) as Hkeys.
  { apply Forall_forall. intros k. by rewrite group_keys_elem. }
  induction Hkeys as [|k keys Hk Hkeys IH]; [done|].
  cbn [flat_map]. rewrite fmap_app, IH. apply rows_of_elem in Hk.
  destruct (rows_of k rows) as [|r group] eqn:Hgroup; [done|]. cbn. f_equal.
  apply (rows_of_id k rows). rewrite Hgroup. by left.
Qed.

(** X7: [fetch_representation] after a query set: the output lists the patents
    of the query set, each of them once however often the query set has it,
    by increasing [id]. *)
Theorem representation_lists_the_selected_patents (db : Database) (patents : QuerySet) :
  (fun o => Model.Patent.id (instance o))
  <$> execute_annotated db (Patent.fetch_representation patents)
  = group_keys (Model.Patent.id <$> execute db patents).
Proof.
  rewrite execute_annotated_ids by done. apply group_keys_same_elements. intros k.
  unfold execute. cbn [Patent.fetch_representation patents_annotated].
  rewrite !select_ids.
  pose proof (fun p =>
    selected_all_joined db (query_where patents) _ p (annotated_joins_all patents))
    as Hsame.
  split.
  - intros (p & r & Hp & Hk & Hr).
    destruct (proj1 (Hsame p)) as (r' & Hr'); [by exists r|]. by exists p, r'.
  - intros (p & r & Hp & Hk & Hr).
    destruct (proj2 (Hsame p)) as (r' & Hr'); [by exists r|]. by exists p, r'.
Qed.

End Same.

(** ** Patents without related rows *)

Lemma remove_dups_same {A} `{EqDecision A} (x : A) (l : list A) :
  l <> [] -> Forall (fun y => y = x) l -> remove_dups l = [x].
Proof.
  intros Hl Hx. induction Hx as [|y l -> Hx IH]; [done|]. cbn [remove_dups].
  destruct l as [|z l].
  - destruct (decide_rel _ _ _) as [Hin|_]; [by apply elem_of_nil in Hin|done].
  - destruct (decide_rel _ _ _) as [_|Hnin]; [by apply IH|].
    destruct Hnin. apply Forall_cons in Hx as [-> _]. by left.
Qed.

Section Unrelated.
Context `{Datastore}.

(** The aggregate of an expression with the same value on every row of a
    group: the value, and for NULL what the datastore gives a group without
    a value. *)
Lemma string_agg_same (agg_delimiter : string) (v : option string)
    (values : list (option string)) :
  values <> [] -> Forall (fun y => y = v) values ->
  string_agg true agg_delimiter values
  = match v with Some s => Some s | None => aggregate_of_nothing end.
Proof.
  intros Hvalues Hv. unfold string_agg. destruct v as [s|].
  - rewrite (remove_dups_same s); [done| |].
    + destruct values as [|y values]; [done|]. by apply Forall_cons in Hv as [-> _].
    + clear Hvalues. induction Hv as [|y values -> Hv IH]; [done|]. cbn. by constructor.
  - replace (omap id values) with (@nil string); [done|].
    clear Hvalues. induction Hv as [|y values -> Hv IH]; [done|]. by cbn.
Qed.

Lemma aggregate_same (e : expr) (agg_delimiter : string) (v : option string)
    (group : list Row) :
  group <> [] -> Forall (fun r => eval_expr e r = v) group ->
  string_agg true agg_delimiter (eval_expr e <$> group)
  = match v with Some s => Some s | None => aggregate_of_nothing end.
Proof.
  intros Hgroup Hv. apply string_agg_same.
  - by destruct group.
  - by apply Forall_fmap.
Qed.

(** An output row and the rows of its group. *)
Lemma execute_annotated_group (db : Database) (a : AnnotatedQuerySet) (o : AnnotatedPatent) :
  o ∈ execute_annotated db a ->
  let group :=
    rows_of (Model.Patent.id (instance o))
      (select db (query_where (patents_annotated a)) (annotated_joins a)) in
  group <> [] /\ annotation o = aggregate a group.
Proof.
  intros Ho. apply list_elem_of_In in Ho. split; [|by apply execute_annotated_elem].
  unfold execute_annotated in Ho. apply in_flat_map in Ho as (k & _ & Ho).
  set (rows := select db _ _) in *.
  destruct (rows_of k rows) as [|r group] eqn:Hgroup; [done|].
  destruct Ho as [<-|[]]. cbn [instance].
  rewrite (rows_of_id k rows r); [by rewrite Hgroup|]. rewrite Hgroup. by left.
Qed.

(** The rows of a group are rows of the join for a patent with the key of
    the group. *)
Lemma rows_of_joined (db : Database) (q : Q) (joined : relation -> bool) (k : Z) :
  Forall
    (fun r =>
       exists p, Model.Patent.id p = k /\ List.In r (joined_rows db joined p))
    (rows_of k (select db q joined)).
Proof.
  apply Forall_forall. intros r Hr. apply list_elem_of_In in Hr.
  unfold rows_of in Hr. apply filter_In in Hr as [Hr Hk].
  unfold select in Hr. apply in_flat_map in Hr as (p & _ & Hr).
  apply filter_In in Hr as [Hr _]. exists p. split; [|done].
  rewrite <- (joined_rows_row_patent db joined p r Hr). lia.
Qed.

Lemma side_none {A} (joined : bool) (a : option A) :
  List.In a (side joined []) -> a = None.
Proof. destruct joined; by intros [<-|[]]. Qed.

(** X8: In the output of [fetch_representation] a patent without a related
    row of a relation has the aggregates of the null row of the outer join:
    for the classification groups and the PCT documents, which aggregate a
    column, what the datastore gives a group without a value (NULL or the
    empty string, by the version of Django), and for the names and the
    points, which aggregate a [Concat], the separators alone. *)
Theorem representation_without_related_rows (db : Database) (patents : QuerySet)
    (o : AnnotatedPatent) :
  o ∈ execute_annotated db (Patent.fetch_representation patents) ->
  (cpc_groups_of db (instance o) = [] ->
   ("cpc_groups_groups", aggregate_of_nothing) ∈ annotation o)
  /\ (pct_data_of db (instance o) = [] ->
      ("pct_documents", aggregate_of_nothing) ∈ annotation o)
  /\ (inventors_of db (instance o) = [] ->
      ("inventor_names", Some " ") ∈ annotation o
      /\ ("inventor_points", Some "|") ∈ annotation o)
  /\ (assignees_of db (instance o) = [] ->
      ("assignee_names", Some "  ") ∈ annotation o
      /\ ("assignee_points", Some "|") ∈ annotation o).
Proof.
  intros Ho. apply execute_annotated_group in Ho as [Hgroup ->].
  pose proof (rows_of_joined db (query_where patents)
                (annotated_joins (Patent.fetch_representation patents))
                (Model.Patent.id (instance o))) as Hrows.
  cbn [Patent.fetch_representation patents_annotated] in *.
  set (group := rows_of _ _) in *.
  unfold aggregate. cbn [annotations Patent.fetch_representation fmap list_fmap fst snd
    expression delimiter distinct].
  assert (forall (e : expr) (agg_delimiter : string) (v : option string),
    Forall (fun r => eval_expr e r = v) group ->
    string_agg true agg_delimiter (eval_expr e <$> group)
    = match v with Some s => Some s | None => aggregate_of_nothing end) as Hsame.
  { intros e agg_delimiter v. by apply aggregate_same. }
  split; [|split; [|split]]; intros Hnone.
  - rewrite (Hsame (F ["cpc_groups"; "cpc_group"; "group"]) ", " None); [set_solver|].
    eapply Forall_impl; [exact Hrows|]. intros r (p & Hp & Hr).
    apply joined_rows_elem in Hr as (g & t & i & a & Hg & _ & _ & _ & ->).
    unfold cpc_groups_of in *. rewrite Hp, Hnone in Hg. by apply side_none in Hg as ->.
  - rewrite (Hsame (F ["pct_data"; "representation"]) ", " None); [set_solver|].
    eapply Forall_impl; [exact Hrows|]. intros r (p & Hp & Hr).
    apply joined_rows_elem in Hr as (g & t & i & a & _ & Ht & _ & _ & ->).
    unfold pct_data_of in *. rewrite Hp, Hnone in Ht. by apply side_none in Ht as ->.
  - assert (Forall (fun r => row_inventors r = None /\ row_inventors_location r = None)
              group) as Hnull.
    { eapply Forall_impl; [exact Hrows|]. intros r (p & Hp & Hr).
      apply joined_rows_elem in Hr as (g & t & i & a & _ & _ & Hi & _ & ->).
      unfold inventors_of in *. rewrite Hp, Hnone in Hi.
      by apply side_none in Hi as ->. }
    rewrite (Hsame (Concat [F ["inventors"; "first_name"]; Value " ";
                            F ["inventors"; "last_name"]]) ", " (Some " "));
      [|eapply Forall_impl; [exact Hnull|]; intros r [Hr Hr']; cbn; unfold through;
        by rewrite Hr].
    rewrite (Hsame (Concat [Func (F ["inventors"; "location"; "point"]) "ST_X";
                            Value "|";
                            Func (F ["inventors"; "location"; "point"]) "ST_Y"])
               "," (Some "|"));
      [|eapply Forall_impl; [exact Hnull|]; intros r [Hr Hr']; cbn; unfold through;
        by rewrite Hr'].
    set_solver.
  - assert (Forall (fun r => row_assignees r = None /\ row_assignees_location r = None)
              group) as Hnull.
    { eapply Forall_impl; [exact Hrows|]. intros r (p & Hp & Hr).
      apply joined_rows_elem in Hr as (g & t & i & a & _ & _ & _ & Ha & ->).
      unfold assignees_of in *. rewrite Hp, Hnone in Ha.
      by apply side_none in Ha as ->. }
    rewrite (Hsame (Concat [F ["assignees"; "first_name"]; Value " ";
                            F ["assignees"; "last_name"]; Value " ";
                            F ["assignees"; "organization"]]) ", " (Some "  "));
      [|eapply Forall_impl; [exact Hnull|]; intros r [Hr Hr']; cbn; unfold through;
        by rewrite Hr].
    rewrite (Hsame (Concat [Func (F ["assignees"; "location"; "point"]) "ST_X";
                            Value "|";
                            Func (F ["assignees"; "location"; "point"]) "ST_Y"])
               "," (Some "|"));
      [|eapply Forall_impl; [exact Hnull|]; intros r [Hr Hr']; cbn; unfold through;
        by rewrite Hr'].
    set_solver.
Qed.

End Unrelated.

(** The first patent of the sample has no assignee and no PCT document; the
    datastore of the sample gives NULL for a group without a value. *)
Lemma representation_without_related_rows_witness :
  let o :=
    {| instance := Sample.golf_glove;
       annotation :=
         [ ("cpc_groups_groups", Some "A63B71/146, B01D1/00"); ("pct_documents", None);
           ("inventor_names", Some "JoMary Smith, John Smith");
           ("inventor_points", Some "23|37"); ("assignee_names", Some "  ");
           ("assignee_points", Some "|") ] |} in
  o ∈ execute_annotated (H := Sample.store) Sample.db
        (Patent.fetch_representation {| query_where := QEmpty |})
  /\ ((cpc_groups_of Sample.db (instance o) = [] ->
       ("cpc_groups_groups", None) ∈ annotation o)
      /\ (pct_data_of Sample.db (instance o) = [] ->
          ("pct_documents", None) ∈ annotation o)
      /\ (inventors_of Sample.db (instance o) = [] ->
          ("inventor_names", Some " ") ∈ annotation o
          /\ ("inventor_points", Some "|") ∈ annotation o)
      /\ (assignees_of Sample.db (instance o) = [] ->
          ("assignee_names", Some "  ") ∈ annotation o
          /\ ("assignee_points", Some "|") ∈ annotation o)).
Proof.
  intros o.
  assert (o ∈ execute_annotated (H := Sample.store) Sample.db
                (Patent.fetch_representation {| query_where := QEmpty |})) as Ho.
  { vm_compute. left. }
  split; [exact Ho|].
  exact (representation_without_related_rows (H := Sample.store) Sample.db
           {| query_where := QEmpty |} o Ho).
Defined.

(** ** The approximate count without statistics *)

(** X10: [approximate_count] raises [TypeError] exactly when the statistics have
    no row for the table of the patents: [fetchone()] is then [None]. *)
Theorem approximate_count_raises_without_statistics (db : Database) :
  Patent.approximate_count db = Raise TypeError
  <-> Forall (fun r => r.1 <> Patent.db_table) (pg_class db).
Proof.
  unfold Patent.approximate_count. induction (pg_class db) as [|r rows IH].
  - by split; [constructor|].
  - cbn [List.filter]. destruct (String.eqb_spec r.1 Patent.db_table) as [Hr|Hr].
    + split; [done|]. intros Hrows. by apply Forall_cons in Hrows as [? _].
    + rewrite IH. split; [by constructor|]. intros Hrows.
      by apply Forall_cons in Hrows as [_ ?].
Qed.

(** ** Names in the representation and in [__str__] *)

Lemma length_append (a b : string) :
  String.length (a +:+ b) = String.length a + String.length b.
Proof. induction a as [|c a IH]; [done|]. simpl. by rewrite IH. Qed.

Section Names.
Context `{Datastore}.

(** X11: The entry of an inventor in [inventor_names] is [str(inventor)] exactly
    when both names are there: [Concat] reads a NULL name as the empty
    string, the f-string of [__str__] as [None]. *)
Theorem inventor_entry_is_str_exactly_when_named
    (db : Database) (patents : QuerySet) (p : Model.Patent.t) (i : Model.Inventor.t) :
  ("inventor_names",
    {| expression := inventor_names; delimiter := ", "; distinct := true |})
  ∈ annotations (Patent.fetch_representation patents)
  /\ (eval_expr inventor_names (inventor_row db p (Some i)) = Some (Inventor.__str__ i)
      <-> is_Some (Model.Inventor.first_name i) /\ is_Some (Model.Inventor.last_name i)).
Proof.
  split; [cbn; set_solver|].
  unfold Inventor.__str__, inventor_names. cbn. unfold through. cbn.
  destruct (Model.Inventor.first_name i) as [first|],
    (Model.Inventor.last_name i) as [last|]; cbn.
  - by split.
  - split; [|by intros [_ []]]. intros [= Heq].
    apply (f_equal String.length) in Heq. rewrite !length_append in Heq. cbn in Heq. lia.
  - split; [done|by intros [[] _]].
  - split; [done|by intros [[] _]].
Qed.

(** X12: The entry of an assignee in [assignee_names] is never [str(assignee)]:
    the entry puts both names and the organization side by side, [__str__]
    shows the organization or the names. *)
Theorem assignee_entry_is_never_str
    (db : Database) (patents : QuerySet) (p : Model.Patent.t) (a : Model.Assignee.t) :
  ("assignee_names",
    {| expression := assignee_names; delimiter := ", "; distinct := true |})
  ∈ annotations (Patent.fetch_representation patents)
  /\ eval_expr assignee_names (assignee_row db p (Some a)) <> Some (Assignee.__str__ a).
Proof.
  split; [cbn; set_solver|].
  unfold Assignee.__str__, assignee_names, field_truthy. cbn. unfold through. cbn.
  intros [= Heq]. apply (f_equal String.length) in Heq. revert Heq.
  destruct (Model.Assignee.first_name a) as [first|],
    (Model.Assignee.last_name a) as [last|],
    (Model.Assignee.organization a) as [[|c organization]|]; cbn;
    rewrite ?length_append; cbn; rewrite ?length_append; cbn; lia.
Qed.

End Names.

(** ** A range of figures *)

Lemma patent_query_figures_between (d : dict) (lo hi : Z) :
  patent_unconstrained d = true -> lo <> 0%Z -> hi <> 0%Z ->
  Patent.patent_query (figures_between d lo hi)
  = (figures_between d lo hi,
     Return (QAnd (QLeaf ["figures_count"] Gte (Lit (VInt lo)))
               (QLeaf ["figures_count"] Lte (Lit (VInt hi))))).
Proof.
  unfold patent_unconstrained, figures_between. intros Hd Hlo Hhi. lookups Hd.
  apply Z.eqb_neq in Hlo. apply Z.eqb_neq in Hhi.
  unfold Patent.patent_query, Patent.exact_query. unfold_py.
  do 3 (run; rewrite ?Hlo, ?Hhi). done.
Qed.

Section Figures.
Context `{Datastore}.

(** X6: With only a range of figures whose bounds are 32-bit integers other
    than zero, [filter] returns the patents whose number of figures is known
    and lies between the bounds, each once; the order is left open. *)
Theorem filter_figures_between (db : Database) (d : dict) (lo hi : Z) :
  unconstrained d = true -> lo <> 0%Z -> hi <> 0%Z ->
  int4 lo = true -> int4 hi = true ->
  exists selected : list Model.Patent.t,
    run_filter db (figures_between d lo hi) = Return selected
    /\ selected ≡ₚ List.filter (figures_within lo hi) (patents db).
Proof.
  unfold unconstrained. intros Hd Hlo Hhi _ _. eexists.
  apply andb_prop in Hd as [Hd Hassignee]. apply andb_prop in Hd as [Hd Hinventor].
  apply andb_prop in Hd as [Hd Hpct]. apply andb_prop in Hd as [Hpatent Hcpc].
  unfold run_filter, Patent.filter, Patent.compile, bind.
  rewrite (patent_query_figures_between d lo hi) by done.
  set (d' := figures_between d lo hi).
  rewrite (deduplicate_unconstrained d') by (subst d'; unfold figures_between; other_key).
  rewrite (cpc_query_unconstrained d') by (subst d'; unfold figures_between; other_key).
  rewrite (pct_query_unconstrained d') by (subst d'; unfold figures_between; other_key).
  rewrite (inventor_query_unconstrained d')
    by (subst d'; unfold figures_between; other_key).
  rewrite (assignee_query_unconstrained d')
    by (subst d'; unfold figures_between; other_key).
  unfold lift, ret. cbn [snd q_and rbind]. rewrite objects_filter_checked by reflexivity.
  cbn [rbind]. split; [done|]. apply Permutation_eq_refl.
  unfold execute. cbn [query_where].
  rewrite select_unjoined by (by intros []).
  apply List.filter_ext. intros p. unfold figures_within. cbn. unfold through. cbn.
  destruct (Model.Patent.figures_count p) as [n|]; [|done]. cbn.
  destruct (Z.compare_spec n lo), (Z.compare_spec n hi), (Z.leb_spec lo n),
    (Z.leb_spec n hi); try done; lia.
Qed.

End Figures.

(** Between one and ten figures, on the sample. *)
Lemma filter_figures_between_witness :
  (unconstrained Sample.blank = true /\ 1%Z <> 0%Z /\ 10%Z <> 0%Z
   /\ int4 1 = true /\ int4 10 = true)
  /\ exists selected : list Model.Patent.t,
       run_filter (H := Sample.store) Sample.db (figures_between Sample.blank 1 10)
       = Return selected
       /\ selected ≡ₚ List.filter (figures_within 1 10) (patents Sample.db).
Proof.
  split; [by repeat split|].
  apply (filter_figures_between (H := Sample.store) Sample.db Sample.blank 1 10);
    [reflexivity|lia|lia|reflexivity|reflexivity].
Defined.

(** ** Calling [filter] on the bundle it has written *)

(** The bundle [compile] leaves: the de-duplicated one, once the patent
    fragment has returned. *)
Lemma compile_bundle (d : dict) :
  (Patent.compile d).1
  = match (Patent.patent_query d).2 with
    | Return _ => (Patent.deduplicate d).1
    | Raise _ => d
    end.
Proof.
  unfold Patent.compile, bind.
  pose proof (writes_nothing Patent.patent_query d (patent_query_writes_nothing [])) as Hp.
  destruct (Patent.patent_query d) as [d0 [pq|e]]; cbn [fst snd] in *; [subst d0|done].
  destruct (Patent.deduplicate d) as [d' [[]|e]]; cbn [fst snd]; [|done].
  pose proof (writes_nothing Patent.cpc_query d' (cpc_query_writes_nothing [])) as Hc.
  destruct (Patent.cpc_query d') as [d0 [cq|e]]; cbn [fst snd] in *; [subst d0|done].
  pose proof (writes_nothing Patent.pct_query d' (pct_query_writes_nothing [])) as Ht.
  destruct (Patent.pct_query d') as [d0 [tq|e]]; cbn [fst snd] in *; [subst d0|done].
  pose proof (writes_nothing Patent.inventor_query d' (inventor_query_writes_nothing []))
    as Hi.
  destruct (Patent.inventor_query d') as [d0 [iq|e]]; cbn [fst snd] in *; [subst d0|done].
  pose proof (writes_nothing Patent.assignee_query d' (assignee_query_writes_nothing []))
    as Ha.
  by destruct (Patent.assignee_query d') as [d0 [aq|e]]; cbn [fst snd] in *; subst d0.
Qed.

Lemma patent_query_with_selection (d : dict) (sections classes subclasses groups : list string) :
  (Patent.patent_query (with_selection d sections classes subclasses groups)).2
  = (Patent.patent_query d).2.
Proof.
  unfold with_selection.
  rewrite (patent_query_ignores "cpc_section" eq_refl). cbn [snd].
  rewrite (patent_query_ignores "cpc_class" eq_refl). cbn [snd].
  rewrite (patent_query_ignores "cpc_subclass" eq_refl). cbn [snd].
  by rewrite (patent_query_ignores "cpc_group" eq_refl).
Qed.

Lemma cpc_well_formed_selection (d : dict) :
  cpc_well_formed d = true ->
  exists sections classes subclasses groups,
    with_selection d sections classes subclasses groups = d.
Proof.
  unfold cpc_well_formed. intros Hd. shapes Hd. returning.
  do 4 eexists. by apply with_selection_id.
Qed.

(** X4: [filter] on the bundle a first call has left: the same result, and the
    bundle stays as the first call left it. *)
Theorem filter_again (d : dict) :
  cpc_well_formed d = true ->
  Patent.filter (Patent.filter d).1 = ((Patent.filter d).1, (Patent.filter d).2).
Proof.
  intros Hd.
  enough (Patent.compile (Patent.compile d).1
          = ((Patent.compile d).1, (Patent.compile d).2)) as Hcompile.
  { unfold Patent.filter, bind, lift.
    destruct (Patent.compile d) as [d' [q|e]] eqn:Hc; cbn [fst snd] in *;
      by rewrite Hcompile. }
  destruct (Patent.patent_query d).2 as [pq|e] eqn:Hp.
  - assert ((Patent.compile d).1 = (Patent.deduplicate d).1) as Hbundle.
    { by rewrite compile_bundle, Hp. }
    rewrite Hbundle.
    destruct (cpc_well_formed_selection d Hd) as (s & c & sc & g & Hid).
    pose proof (deduplicate_selection d s c sc g) as Hdedup.
    pose proof (deduplicate_pruned d s c sc g) as Hpruned.
    rewrite Hid in Hdedup. cbv zeta in Hpruned. clear Hid.
    set (d' := with_selection d _ _ _ _) in *.
    assert ((Patent.patent_query d').2 = Return pq) as Hp'.
    { subst d'. by rewrite patent_query_with_selection. }
    rewrite Hdedup. cbn [fst].
    apply injective_projections; cbn [fst snd].
    + by rewrite compile_bundle, Hp', Hpruned.
    + rewrite !compile_compiled. unfold compiled.
      by rewrite Hp, Hp', Hdedup, Hpruned.
  - assert ((Patent.compile d).1 = d) as Hbundle.
    { by rewrite compile_bundle, Hp. }
    rewrite Hbundle. apply injective_projections; by cbn [fst snd].
Qed.

(** The bundle with section [A] and a group below it, whose group the
    first call removes. *)
Lemma filter_again_witness :
  cpc_well_formed Sample.section_and_group = true
  /\ Patent.filter (Patent.filter Sample.section_and_group).1
     = ((Patent.filter Sample.section_and_group).1,
        (Patent.filter Sample.section_and_group).2).
Proof.
  split; [reflexivity|].
  exact (filter_again Sample.section_and_group eq_refl).
Defined.

(** ** The inventors a representation names *)

(** What the fragments that return are made of. *)
Lemma fragments_shape (d : dict) (pq cq tq iq aq : Q) :
  fragments d = Return (pq, cq, tq, iq, aq) ->
  through_relation None pq
  /\ (conjunction cq /\ through_relation (Some Rel_cpc_groups) cq)
  /\ (conjunction tq /\ through_relation (Some Rel_pct_data) tq)
  /\ (conjunction iq /\ through_relation (Some Rel_inventors) iq)
  /\ (conjunction aq /\ through_relation (Some Rel_assignees) aq).
Proof.
  unfold fragments. intros Hfs.
  destruct (Patent.patent_query d).2 as [pq'|] eqn:Hp; [|done].
  destruct (Patent.deduplicate d).2 as [[]|]; [|done]. cbn [rbind] in Hfs.
  destruct (Patent.cpc_query _).2 as [cq'|] eqn:Hc; [|done].
  destruct (Patent.pct_query _).2 as [tq'|] eqn:Ht; [|done].
  destruct (Patent.inventor_query _).2 as [iq'|] eqn:Hi; [|done].
  destruct (Patent.assignee_query _).2 as [aq'|] eqn:Ha; [|done].
  cbn [rbind] in Hfs. injection Hfs as -> -> -> -> ->.
  split; [by eapply rooted_patent, patent_query_rooted|].
  split; [split; [by eapply cpc_query_conjunction
                 |by eapply (rooted_through "cpc_groups"), cpc_query_rooted]|].
  split; [split; [by eapply pct_query_conjunction
                 |by eapply (rooted_through "pct_data"), pct_query_rooted]|].
  split; [split; [by eapply inventor_query_conjunction
                 |by eapply (rooted_through "inventors"), inventor_query_rooted]|].
  split; [by eapply assignee_query_conjunction
         |by eapply (rooted_through "assignees"), assignee_query_rooted].
Qed.

(** What [filter] returns is the conjunction of the fragments. *)
Lemma filter_fragments (d : dict) (pq cq tq iq aq : Q) (selected : QuerySet) :
  fragments d = Return (pq, cq, tq, iq, aq) ->
  (Patent.filter d).2 = Return selected ->
  selected = {| query_where := q_and (q_and (q_and (q_and pq cq) tq) iq) aq |}.
Proof.
  intros Hfs. rewrite filter_compile, compile_compiled, compiled_of_fragments, Hfs.
  cbn [rbind]. unfold objects_filter. destruct (check _); [|done]. by intros [= <-].
Qed.

Lemma distinct_entries_same (agg_delimiter : string) (values values' : list (option string))
    (agg : option string) :
  (forall s, Some s ∈ values <-> Some s ∈ values') ->
  distinct_entries agg_delimiter values agg -> distinct_entries agg_delimiter values' agg.
Proof.
  intros Hsame (entries & Hnodup & Hentries & Hagg). exists entries.
  split; [done|]. split; [|done]. intros s. by rewrite Hentries.
Qed.

Lemma side_some {A} (related : list A) (a : A) :
  List.In (Some a) (side true related) <-> List.In a related.
Proof.
  unfold side. destruct related as [|a' related].
  - split; [by intros [?|[]]|done].
  - generalize (a' :: related). intros l. rewrite <- !list_elem_of_In.
    rewrite list_elem_of_fmap. split; [by intros (a'' & [= ->] & ?)|by exists a].
Qed.

Section Named.
Context `{Datastore}.

Lemma resolve_other_patent (rel : relation) (path : list string) (f : Row -> cell)
    (p : Model.Patent.t) (r : Row) :
  root_of path = Some rel -> resolve path = Return f -> f (with_patent p r) = f r.
Proof.
  destruct path as [|name rest]; [done|]. cbn [resolve root_of]. intros ->.
  destruct rel; destruct rest as [|n1 [|n2 [|n3 rest]]];
    unfold resolve_person, resolve_column;
    repeat match goal with
           | |- context [column ?cols ?n] => destruct (column cols n)
           | |- context [if ?b then _ else _] => destruct b
           end;
    try done; by intros [= <-].
Qed.

(** A condition through a relation does not read the patent. *)
Lemma eval_other_patent (rel : relation) (q : Q) (p : Model.Patent.t) (r : Row) :
  through_relation (Some rel) q -> eval q (with_patent p r) = eval q r.
Proof.
  unfold through_relation. induction q as [|path lk v|a IHa b IHb|a IHa b IHb];
    cbn [leaves eval]; [done| | |].
  - intros Hq. apply Forall_cons in Hq as [Hpath _]. cbn [fst] in Hpath.
    destruct (resolve path) as [f|] eqn:Hf; [|done].
    by rewrite (resolve_other_patent rel path f p r Hpath Hf).
  - intros Hq. apply Forall_app in Hq as [Ha Hb]. by rewrite IHa, IHb.
  - intros Hq. apply Forall_app in Hq as [Ha Hb]. by rewrite IHa, IHb.
Qed.

Lemma eval_fragments (pq cq tq iq aq : Q) (r : Row) :
  through_relation None pq ->
  through_relation (Some Rel_cpc_groups) cq -> through_relation (Some Rel_pct_data) tq ->
  through_relation (Some Rel_inventors) iq -> through_relation (Some Rel_assignees) aq ->
  eval (q_and (q_and (q_and (q_and pq cq) tq) iq) aq) r
  = eval pq (part None r) && eval cq (part (Some Rel_cpc_groups) r)
    && eval tq (part (Some Rel_pct_data) r) && eval iq (part (Some Rel_inventors) r)
    && eval aq (part (Some Rel_assignees) r).
Proof.
  intros Hp Hc Ht Hi Ha. rewrite !eval_q_and.
  by rewrite <- (eval_part None pq), <- (eval_part _ cq), <- (eval_part _ tq),
    <- (eval_part _ iq), <- (eval_part _ aq).
Qed.

Lemma eval_inventor_names (r : Row) (i : Model.Inventor.t) :
  row_inventors r = Some i -> eval_expr inventor_names r = Some (inventor_entry i).
Proof.
  intros Hr. unfold inventor_names, inventor_entry. cbn. unfold through. rewrite Hr. cbn.
  by destruct (Model.Inventor.first_name i), (Model.Inventor.last_name i).
Qed.

Lemma select_elem (db : Database) (q : Q) (joined : relation -> bool) (r : Row) :
  List.In r (select db q joined)
  <-> exists p,
        List.In p (patents db) /\ List.In r (joined_rows db joined p) /\ eval q r = true.
Proof.
  unfold select. rewrite in_flat_map. split.
  - intros (p & Hp & Hr). apply filter_In in Hr as [Hr Hq]. by exists p.
  - intros (p & Hp & Hr & Hq). exists p. split; [done|]. by apply filter_In.
Qed.

(** X9: After [filter] on a well-formed bundle with a condition on the
    inventors, the names that [fetch_representation] gives a patent are
    those of its inventors that satisfy the conditions on the inventors, each
    name once: the aggregate runs over the rows the condition has selected,
    not over all the inventors of the patent. *)
Theorem representation_names_the_matching_inventors
    (db : Database) (d : dict) (pq cq tq iq aq : Q) (selected : QuerySet)
    (o : AnnotatedPatent) :
  well_formed d = true ->
  fragments d = Return (pq, cq, tq, iq, aq) ->
  (Patent.filter d).2 = Return selected ->
  joins iq Rel_inventors = true ->
  o ∈ execute_annotated db (Patent.fetch_representation selected) ->
  exists agg,
    ("inventor_names", agg) ∈ annotation o
    /\ distinct_entries ", "
         ((fun i => Some (inventor_entry i))
          <$> List.filter (fun i => eval iq (inventor_row db (instance o) (Some i)))
                (inventors_of db (instance o)))
         agg.
Proof.
  intros _ Hfs Hfilter Hjoin Ho.
  rewrite (filter_fragments d pq cq tq iq aq selected Hfs Hfilter) in Ho.
  apply fragments_shape in Hfs as (Hp & [_ Hc] & [_ Ht] & [Hic Hi] & [_ Ha]).
  apply execute_annotated_group in Ho as [Hgroup Hannotation].
  cbn [Patent.fetch_representation patents_annotated query_where] in *.
  set (q := q_and _ aq) in *. set (all := annotated_joins _) in *.
  set (group := rows_of _ _) in *.
  assert (forall rel, all rel = true) as Hall by apply annotated_joins_all.
  assert (forall r, List.In r group <->
            exists p, List.In p (patents db)
                      /\ Model.Patent.id p = Model.Patent.id (instance o)
                      /\ List.In r (joined_rows db all p) /\ eval q r = true) as Hrows.
  { intros r. unfold group, rows_of. rewrite filter_In, select_elem. split.
    - intros [(p & Hp' & Hr & Hq) Hid]. exists p. repeat split; try done.
      rewrite <- (joined_rows_row_patent db all p r Hr). lia.
    - intros (p & Hp' & Hid & Hr & Hq). split; [by exists p|].
      rewrite (joined_rows_row_patent db all p r Hr). lia. }
  assert (forall p, Model.Patent.id p = Model.Patent.id (instance o) ->
            inventors_of db p = inventors_of db (instance o)) as Hsame.
  { intros p Hid. unfold inventors_of. by rewrite Hid. }
  assert (forall p i, eval iq (inventor_row db p (Some i))
                      = eval iq (inventor_row db (instance o) (Some i))) as Hpatent.
  { intros p i. by rewrite <- (eval_other_patent Rel_inventors iq (instance o)). }
  exists (string_agg true ", " (eval_expr inventor_names <$> group)).
  split; [rewrite Hannotation; unfold aggregate; cbn;
    do 2 apply list_elem_of_further; apply list_elem_of_here|].
  eapply distinct_entries_same;
    [|apply string_agg_distinct; by destruct group as [|r rest]].
  intros s. rewrite !list_elem_of_fmap. split.
  - intros (r & Hs & Hr). apply list_elem_of_In in Hr.
    apply Hrows in Hr as (p & Hp' & Hid & Hr & Hq).
    apply joined_rows_elem in Hr as (g & t & i & a & _ & _ & Hin & _ & ->).
    unfold q in Hq. rewrite eval_fragments in Hq by done.
    apply andb_prop in Hq as [Hq _]. apply andb_prop in Hq as [_ Hq].
    cbn [part row_patent row_inventors row_inventors_location] in Hq.
    fold (inventor_row db p i) in Hq. rewrite Hall in Hin.
    destruct i as [i|].
    + exists i. split; [by rewrite Hs, (eval_inventor_names _ i)|].
      apply list_elem_of_In, filter_In. split.
      * rewrite <- (Hsame p Hid). by apply side_some.
      * by rewrite <- (Hpatent p).
    + rewrite (eval_null Rel_inventors iq) in Hq; [done..| |done].
      rewrite (joins_rooted Rel_inventors iq Hi) in Hjoin. by destruct (leaves iq).
  - intros (i & Hs & Hin). apply list_elem_of_In, filter_In in Hin as [Hin Hq].
    destruct group as [|r0 rest] eqn:Hg; [done|].
    assert (List.In r0 (r0 :: rest)) as Hr0 by by left.
    apply Hrows in Hr0 as (p & Hp' & Hid & Hr0 & Hq0).
    apply joined_rows_elem in Hr0 as (g & t & i0 & a & Hgs & Hts & _ & Has & ->).
    unfold q in Hq0. rewrite eval_fragments in Hq0 by done.
    apply andb_prop in Hq0 as [Hq0 Hqa]. apply andb_prop in Hq0 as [Hq0 _].
    apply andb_prop in Hq0 as [Hq0 Hqt]. apply andb_prop in Hq0 as [Hqp Hqc].
    eexists. split; [|apply list_elem_of_In, Hrows; exists p;
      split; [done|]; split; [done|]; split;
      [apply joined_rows_elem; exists g, t, (Some i), a; repeat split; try done|]].
    + by rewrite Hs, (eval_inventor_names _ i).
    + rewrite Hall. apply side_some. by rewrite (Hsame p Hid).
    + unfold q. rewrite eval_fragments by done.
      cbn [part row_patent row_cpc_groups row_pct_data row_inventors
        row_inventors_location row_assignees row_assignees_location] in *.
      rewrite Hqp, Hqc, Hqt, Hqa. cbn [andb].
      change (eval iq (inventor_row db p (Some i)) && true = true).
      by rewrite (Hpatent p), Hq.
Qed.

End Named.

Lemma representation_names_the_matching_inventors_witness :
  let iq := QLeaf ["inventors"; "first_name"] IRegex (Lit (VStr "^(John)")) in
  let selected := {| query_where := iq |} in
  let o :=
    {| instance := Sample.golf_glove;
       annotation :=
         [ ("cpc_groups_groups", Some "A63B71/146, B01D1/00"); ("pct_documents", None);
           ("inventor_names", Some "John Smith"); ("inventor_points", Some "23|37");
           ("assignee_names", Some "  "); ("assignee_points", Some "|") ] |} in
  (well_formed first_name_john = true
   /\ fragments first_name_john = Return (QEmpty, QEmpty, QEmpty, iq, QEmpty)
   /\ (Patent.filter first_name_john).2 = Return selected
   /\ joins iq Rel_inventors = true
   /\ o ∈ execute_annotated (H := Sample.store) Sample.db
            (Patent.fetch_representation selected))
  /\ exists agg,
       ("inventor_names", agg) ∈ annotation o
       /\ distinct_entries ", "
            ((fun i => Some (inventor_entry i))
             <$> List.filter
                   (fun i =>
                      eval (H := Sample.store) iq
                        (inventor_row Sample.db (instance o) (Some i)))
                   (inventors_of Sample.db (instance o)))
            agg.
Proof.
  intros iq selected o.
  assert (o ∈ execute_annotated (H := Sample.store) Sample.db
                (Patent.fetch_representation selected)) as Ho.
  { vm_compute. left. }
  split; [by repeat split|].
  exact (representation_names_the_matching_inventors (H := Sample.store) Sample.db
           first_name_john QEmpty QEmpty QEmpty iq QEmpty selected o
           eq_refl eq_refl eq_refl eq_refl Ho).
Defined.
